(** * MCP server configuration of dspy-forge: global scope, per-node scope,
      snapshots and persistence

    A shallow embedding of the three TypeScript/React sources

      - [ui/src/contexts/LMConfigContext.tsx]   (global config, localStorage)
      - [ui/src/components/LMConfigModal.tsx]   (editor of the global scope)
      - [ui/src/components/nodes/ModuleNode.tsx] (editor of one node's scope)

    React state is modelled by explicit state passing: every piece of
    [useState] becomes a record field, every event handler a function from
    state to state.  An [async] handler is split at its [await]: the part
    that runs when the handler is called, and the part that runs when the
    awaited request settles.  The requests that were issued and have not
    settled yet are kept in the state, so that properties about the traffic
    can be stated.

    None of the three files updates an array or an object in place (every
    update builds a new array with [filter], [map] or a spread), so arrays
    and objects are modelled as immutable values.

    The objects that the components index by an url ([availableTools],
    [loadingTools], [selectedTools], [collapsedServers]) or by the name of a
    parameter ([parameters]) are plain objects.  Their own properties are a
    [gmap].  A read [obj[key]] is modelled by [JS.read], which also finds
    the members inherited from [Object.prototype] (the read in
    [selectAllTools], which the page only makes for an url with a catalog of
    its own, is a plain lookup); a computed key in an object literal always
    makes an own property; an assignment [obj[key] = v] does so too, except
    for the key [__proto__]. *)

From Stdlib Require Import NArith String Ascii.
From stdpp Require Import base option list gmap.

Set Default Proof Using "Type".
Set Warnings "-register-all".

(* ===================================================================== *)
(** * JavaScript values *)
(* ===================================================================== *)

(** A JavaScript string is a sequence of UTF-16 code units. *)
Abbreviation jsstring := (list N).

(** The code units of an ASCII literal. *)
Definition js (s : string) : jsstring :=
  N_of_ascii <$> list_ascii_of_string s.

Module JS.

(** ECMAScript [WhiteSpace] and [LineTerminator] code points, the ones
    [String.prototype.trim] strips; all of them are single code units. *)
Definition is_white_space (c : N) : bool :=
  bool_decide
    (c ∈ [0x0009; 0x000A; 0x000B; 0x000C; 0x000D; 0x0020; 0x00A0; 0x1680;
          0x2000; 0x2001; 0x2002; 0x2003; 0x2004; 0x2005; 0x2006; 0x2007;
          0x2008; 0x2009; 0x200A; 0x2028; 0x2029; 0x202F; 0x205F; 0x3000;
          0xFEFF]%N).

Fixpoint trimStart (s : jsstring) : jsstring :=
  match s with
  | c :: s' => if is_white_space c then trimStart s' else s
  | [] => []
  end.

Definition trimEnd (s : jsstring) : jsstring :=
  reverse (trimStart (reverse s)).

(** [s.trim()] *)
Definition trim (s : jsstring) : jsstring := trimEnd (trimStart s).

(** Truthiness of a string: only the empty string is falsy. *)
Definition string_truthy (s : jsstring) : bool :=
  match s with [] => false | _ :: _ => true end.

(** [a === b] on strings. *)
Definition str_eq (a b : jsstring) : bool := bool_decide (a = b).

(** [xs.includes(x)] on an array of strings. *)
Definition includes (xs : list jsstring) (x : jsstring) : bool :=
  existsb (str_eq x) xs.

(** Dynamically typed values, as [JSON.parse] returns them.  A number is
    abstracted to its truthiness (false for [0], [-0] and [NaN]), the only
    observation this code makes on a number it did not produce. *)
Inductive value : Type :=
  | VUndefined
  | VNull
  | VBool (b : bool)
  | VNum (nonzero : bool)
  | VStr (s : jsstring)
  | VArr (xs : list value)
  | VObj (fields : list (jsstring * value)).

Definition truthy (v : value) : bool :=
  match v with
  | VUndefined | VNull => false
  | VBool b => b
  | VNum nz => nz
  | VStr s => string_truthy s
  | VArr _ | VObj _ => true
  end.

(** [a || b] *)
Definition or (a b : value) : value := if truthy a then a else b.

Definition is_object (v : value) : bool :=
  match v with VObj _ => true | _ => false end.

Inductive exn : Type :=
  | SyntaxError
  | TypeError.

(** An own property of an object; [undefined] when there is none. *)
Fixpoint own_property (k : jsstring) (fields : list (jsstring * value)) : value :=
  match fields with
  | [] => VUndefined
  | (k', v) :: rest => if str_eq k' k then v else own_property k rest
  end.

(** [v.k] for a key [k] that names no built-in property of arrays, strings,
    numbers or booleans (as [lmConfig] and [mcpServers]): reading a property
    of [null] or [undefined] throws, a primitive or an array has no such
    property. *)
Definition get (v : value) (k : jsstring) : exn + value :=
  match v with
  | VUndefined | VNull => inl TypeError
  | VObj fields => inr (own_property k fields)
  | VBool _ | VNum _ | VStr _ | VArr _ => inr VUndefined
  end.

(** Statements that read and write a state [S] and may throw.  A thrown
    exception carries the state reached when it was thrown: the updates made
    before the [throw] are not undone by a [catch]. *)
Inductive completion (S A : Type) : Type :=
  | Normal (a : A) (s : S)
  | Throw (e : exn) (s : S).
Arguments Normal {S A} a s.
Arguments Throw {S A} e s.

Definition stmt (S A : Type) : Type := S → completion S A.

Definition ret {S A} (a : A) : stmt S A := λ s, Normal a s.

Definition bind {S A B} (m : stmt S A) (k : A → stmt S B) : stmt S B :=
  λ s, match m s with
       | Normal a s' => k a s'
       | Throw e s' => Throw e s'
       end.

Definition lift {S A} (r : exn + A) : stmt S A :=
  λ s, match r with inl e => Throw e s | inr a => Normal a s end.

Definition modify {S} (f : S → S) : stmt S unit := λ s, Normal tt (f s).

(** [try { body } catch (e) { handler(e) }] *)
Definition try_catch {S A} (body : stmt S A) (handler : exn → stmt S A) : stmt S A :=
  λ s, match body s with
       | Normal a s' => Normal a s'
       | Throw e s' => handler e s'
       end.

(** Whether a string is well-formed UTF-16: every high surrogate is
    followed by a low one, and no low surrogate stands alone.
    [encodeURIComponent] throws a [URIError] on the other strings. *)
Definition is_high_surrogate (c : N) : bool := (0xD800 <=? c)%N && (c <=? 0xDBFF)%N.
Definition is_low_surrogate (c : N) : bool := (0xDC00 <=? c)%N && (c <=? 0xDFFF)%N.

Fixpoint isWellFormed (s : jsstring) : bool :=
  match s with
  | [] => true
  | c :: rest =>
      if is_high_surrogate c then
        match rest with
        | d :: rest' => is_low_surrogate d && isWellFormed rest'
        | [] => false
        end
      else if is_low_surrogate c then false
      else isWellFormed rest
  end.

(** The members a plain object inherits from [Object.prototype], each with
    the [length] it has: the functions have the number of their parameters,
    and [__proto__] reads as [Object.prototype] itself, which has none.
    Every member is truthy, and none has an [includes] or a [map]. *)
Definition Object_prototype : list (jsstring * option nat) :=
  [ (js "constructor", Some 1); (js "__defineGetter__", Some 2);
    (js "__defineSetter__", Some 2); (js "hasOwnProperty", Some 1);
    (js "__lookupGetter__", Some 1); (js "__lookupSetter__", Some 1);
    (js "isPrototypeOf", Some 1); (js "propertyIsEnumerable", Some 1);
    (js "toString", Some 0); (js "valueOf", Some 0);
    (js "toLocaleString", Some 0); (js "__proto__", None) ].

Fixpoint inherited_member (key : jsstring) (members : list (jsstring * option nat))
    : option (option nat) :=
  match members with
  | [] => None
  | (k, len) :: rest => if str_eq k key then Some len else inherited_member key rest
  end.

(** Whether [key] names a member of [Object.prototype]. *)
Definition inherited (key : jsstring) : bool :=
  match inherited_member key Object_prototype with Some _ => true | None => false end.

(** What [obj[key]] finds in a plain object whose own properties are those
    of the map: the own property, else the inherited member, else
    [undefined]. *)
Inductive property (V : Type) : Type :=
  | Own (v : V)
  | Inherited (length : option nat)
  | Absent.
Arguments Own {V} v.
Arguments Inherited {V} length.
Arguments Absent {V}.

Definition read {V : Type} (obj : gmap jsstring V) (key : jsstring) : property V :=
  match obj !! key with
  | Some v => Own v
  | None =>
      match inherited_member key Object_prototype with
      | Some len => Inherited len
      | None => Absent
      end
  end.

(** The truthiness of [obj[key]] in an object of booleans. *)
Definition read_truthy (obj : gmap jsstring bool) (key : jsstring) : bool :=
  match read obj key with
  | Own b => b
  | Inherited _ => true
  | Absent => false
  end.

(** The state after a handler that may throw.  When a handler or a state
    updater throws, React drops the update and unmounts the component; the
    state stays as it was.  The events that follow in a list are then events
    the component no longer receives; a run goes on from the same state, so
    that it is defined for every list of events. *)
Definition absorb {S : Type} (r : exn + S) (st : S) : S :=
  match r with
  | inr st' => st'
  | inl _ => st
  end.

End JS.

#[global] Instance stmt_ret {S} : MRet (JS.stmt S) := λ A, JS.ret.
#[global] Instance stmt_bind {S} : MBind (JS.stmt S) := λ A B k m, JS.bind m k.

(** The element type of a tool catalog,
    [Array<{name: string, description: string}>] in both components. *)
Record Tool : Type := mkTool {
  name : jsstring;
  description : jsstring;
}.

(** How a tool-discovery request settles: a success response whose body
    holds the tool list, a response that is not [ok], or a rejected [fetch]
    (also a body that does not parse: both end in the [catch]). *)
Inductive Settled : Type :=
  | ResponseOk (tools : list Tool)
  | ResponseNotOk
  | Rejected.

(** Removes the first occurrence of a request from the in-flight ones. *)
Fixpoint settle_one (url : jsstring) (reqs : list jsstring) : list jsstring :=
  match reqs with
  | [] => []
  | r :: rest => if JS.str_eq r url then rest else r :: settle_one url rest
  end.

(** The number of requests in flight for [url]. *)
Definition in_flight (url : jsstring) (reqs : list jsstring) : nat :=
  length (filter (λ r, r = url) reqs).

(* ===================================================================== *)
(** * ui/src/contexts/LMConfigContext.tsx *)
(* ===================================================================== *)

Module LMConfigContext.

Record LMConfig : Type := mkLMConfig {
  provider : jsstring;
  modelName : jsstring;
}.

Record MCPServer : Type := mkMCPServer {
  url : jsstring;
  selectedTools : list jsstring;
}.

Definition GLOBAL_CONFIG_STORAGE_KEY : jsstring := js "dspy-forge-global-config".

(** The values of the TypeScript types as the JavaScript values they are. *)
Definition LMConfig_value (c : option LMConfig) : JS.value :=
  match c with
  | None => JS.VNull
  | Some c =>
      JS.VObj [(js "provider", JS.VStr (provider c));
               (js "modelName", JS.VStr (modelName c))]
  end.

Definition MCPServer_value (s : MCPServer) : JS.value :=
  JS.VObj [(js "url", JS.VStr (url s));
           (js "selectedTools", JS.VArr (JS.VStr <$> selectedTools s))].

Definition MCPServers_value (servers : list MCPServer) : JS.value :=
  JS.VArr (MCPServer_value <$> servers).

(** [{ lmConfig, mcpServers: servers }] *)
Definition GlobalConfig_value (lmConfig : option LMConfig)
    (servers : list MCPServer) : JS.value :=
  JS.VObj [(js "lmConfig", LMConfig_value lmConfig);
           (js "mcpServers", MCPServers_value servers)].

(** The provider's state, with [localStorage] as a map from key to blob. *)
Record state : Type := mkState {
  globalLMConfig : option LMConfig;
  mcpServers : list MCPServer;
  localStorage : gmap jsstring jsstring;
}.

(** The provider's state while it mounts.  [JSON.parse] returns [any] and
    the annotation [const config: GlobalConfig] is not checked at run time,
    so what the mount effect stores is a plain JavaScript value. *)
Record mount_state : Type := mkMount {
  m_globalLMConfig : JS.value;
  m_mcpServers : JS.value;
  m_console : list JS.exn;
}.

(** [useState<LMConfig | null>(null)], [useState<MCPServer[]>([])] *)
Definition mount_init : mount_state :=
  {| m_globalLMConfig := JS.VNull; m_mcpServers := JS.VArr []; m_console := [] |}.

Definition setGlobalLMConfigState (v : JS.value) : JS.stmt mount_state unit :=
  JS.modify (λ s, {| m_globalLMConfig := v; m_mcpServers := m_mcpServers s;
                     m_console := m_console s |}).

Definition setMCPServersState (v : JS.value) : JS.stmt mount_state unit :=
  JS.modify (λ s, {| m_globalLMConfig := m_globalLMConfig s; m_mcpServers := v;
                     m_console := m_console s |}).

Definition console_error (e : JS.exn) : JS.stmt mount_state unit :=
  JS.modify (λ s, {| m_globalLMConfig := m_globalLMConfig s;
                     m_mcpServers := m_mcpServers s;
                     m_console := m_console s ++ [e] |}).

(** What a mounted provider state is for the typed part of the program. *)
Definition mounted (lmConfig : option LMConfig) (servers : list MCPServer)
    (log : list JS.exn) : mount_state :=
  {| m_globalLMConfig := LMConfig_value lmConfig;
     m_mcpServers := MCPServers_value servers;
     m_console := log |}.

(** A parsed configuration that misses fields: an object in which each of
    [lmConfig] and [mcpServers] is either missing or a value of its type
    (other properties may be there); [lm] and [servers] are what the type
    makes of it, with [null] and the empty list for a missing field. *)
Definition missing_fields (v : JS.value) (lm : option LMConfig)
    (servers : list MCPServer) : Prop :=
  ∃ fields, v = JS.VObj fields ∧
    (JS.own_property (js "lmConfig") fields = JS.VUndefined ∧ lm = None ∨
     JS.own_property (js "lmConfig") fields = LMConfig_value lm) ∧
    (JS.own_property (js "mcpServers") fields = JS.VUndefined ∧ servers = [] ∨
     JS.own_property (js "mcpServers") fields = MCPServers_value servers).

Section WithJSON.

(** The platform's [JSON.parse] (which throws a [SyntaxError] on a text that
    is not JSON) and [JSON.stringify]. *)
Variable JSON_parse : jsstring → JS.exn + JS.value.
Variable JSON_stringify : JS.value → jsstring.

(** The body of the mount effect, [useEffect(() => { ... }, [])], up to the
    call of [refreshProviderStatus], which touches neither of the two
    configuration states. *)
Definition load (storage : gmap jsstring jsstring) : JS.stmt mount_state unit :=
  let stored := storage !! GLOBAL_CONFIG_STORAGE_KEY in
  match stored with
  | Some stored =>
      if JS.string_truthy stored then
        JS.try_catch
          (config ← JS.lift (JSON_parse stored);
           lm ← JS.lift (JS.get config (js "lmConfig"));
           setGlobalLMConfigState (JS.or lm JS.VNull);;
           servers ← JS.lift (JS.get config (js "mcpServers"));
           setMCPServersState (JS.or servers (JS.VArr [])))
          (λ e, console_error e)
      else JS.ret tt
  | None => JS.ret tt
  end.

Definition saveGlobalConfig (lmConfig : option LMConfig)
    (servers : list MCPServer) (st : state) : state :=
  let config := GlobalConfig_value lmConfig servers in
  {| globalLMConfig := globalLMConfig st;
     mcpServers := mcpServers st;
     localStorage :=
       <[GLOBAL_CONFIG_STORAGE_KEY := JSON_stringify config]> (localStorage st) |}.

Definition setGlobalLMConfigState' (config : option LMConfig) (st : state) : state :=
  {| globalLMConfig := config; mcpServers := mcpServers st;
     localStorage := localStorage st |}.

Definition setMCPServersState' (servers : list MCPServer) (st : state) : state :=
  {| globalLMConfig := globalLMConfig st; mcpServers := servers;
     localStorage := localStorage st |}.

(** The setters close over the [mcpServers] and [globalLMConfig] of the
    render that created them, that is, of the state the event starts in. *)
Definition setGlobalLMConfig (config : option LMConfig) (st : state) : state :=
  saveGlobalConfig config (mcpServers st) (setGlobalLMConfigState' config st).

Definition setMCPServers (servers : list MCPServer) (st : state) : state :=
  saveGlobalConfig (globalLMConfig st) servers (setMCPServersState' servers st).

(** The mutations of the global scope. *)
Inductive mutation : Type :=
  | SetGlobalLMConfig (config : option LMConfig)
  | SetMCPServers (servers : list MCPServer).

Definition mutate (m : mutation) (st : state) : state :=
  match m with
  | SetGlobalLMConfig config => setGlobalLMConfig config st
  | SetMCPServers servers => setMCPServers servers st
  end.

End WithJSON.

End LMConfigContext.

(* ===================================================================== *)
(** * ui/src/components/LMConfigModal.tsx *)
(* ===================================================================== *)

Module LMConfigModal.

Import LMConfigContext.

Inductive Tab : Type := TabLM | TabMCP.

(** The modal's [useState]s, and the tool-discovery requests that were
    issued and have not settled. *)
Record state : Type := mkModal {
  selectedProvider : jsstring;
  modelName : jsstring;
  activeTab : Tab;
  newServerUrl : jsstring;
  availableTools : gmap jsstring (list Tool);
  loadingTools : gmap jsstring bool;
  localMCPServers : list MCPServer;
  requests : list jsstring;
}.

Definition init : state :=
  {| selectedProvider := js "databricks"; modelName := []; activeTab := TabLM;
     newServerUrl := []; availableTools := ∅; loadingTools := ∅;
     localMCPServers := []; requests := [] |}.

Definition setNewServerUrl (v : jsstring) (st : state) : state :=
  {| selectedProvider := selectedProvider st; modelName := modelName st;
     activeTab := activeTab st; newServerUrl := v;
     availableTools := availableTools st; loadingTools := loadingTools st;
     localMCPServers := localMCPServers st; requests := requests st |}.

Definition setActiveTab (v : Tab) (st : state) : state :=
  {| selectedProvider := selectedProvider st; modelName := modelName st;
     activeTab := v; newServerUrl := newServerUrl st;
     availableTools := availableTools st; loadingTools := loadingTools st;
     localMCPServers := localMCPServers st; requests := requests st |}.

Definition setAvailableTools (f : gmap jsstring (list Tool) → gmap jsstring (list Tool))
    (st : state) : state :=
  {| selectedProvider := selectedProvider st; modelName := modelName st;
     activeTab := activeTab st; newServerUrl := newServerUrl st;
     availableTools := f (availableTools st); loadingTools := loadingTools st;
     localMCPServers := localMCPServers st; requests := requests st |}.

Definition setLoadingTools (f : gmap jsstring bool → gmap jsstring bool)
    (st : state) : state :=
  {| selectedProvider := selectedProvider st; modelName := modelName st;
     activeTab := activeTab st; newServerUrl := newServerUrl st;
     availableTools := availableTools st; loadingTools := f (loadingTools st);
     localMCPServers := localMCPServers st; requests := requests st |}.

Definition setLocalMCPServers (f : list MCPServer → list MCPServer)
    (st : state) : state :=
  {| selectedProvider := selectedProvider st; modelName := modelName st;
     activeTab := activeTab st; newServerUrl := newServerUrl st;
     availableTools := availableTools st; loadingTools := loadingTools st;
     localMCPServers := f (localMCPServers st); requests := requests st |}.

(** [fetch(...)]: one more request is in flight. *)
Definition send (serverUrl : jsstring) (st : state) : state :=
  {| selectedProvider := selectedProvider st; modelName := modelName st;
     activeTab := activeTab st; newServerUrl := newServerUrl st;
     availableTools := availableTools st; loadingTools := loadingTools st;
     localMCPServers := localMCPServers st;
     requests := requests st ++ [serverUrl] |}.

Definition receive (serverUrl : jsstring) (st : state) : state :=
  {| selectedProvider := selectedProvider st; modelName := modelName st;
     activeTab := activeTab st; newServerUrl := newServerUrl st;
     availableTools := availableTools st; loadingTools := loadingTools st;
     localMCPServers := localMCPServers st;
     requests := settle_one serverUrl (requests st) |}.

(** [fetchToolsForServer] up to its first [await].  The url of the request
    is built inside the [try]: for a string that is not well-formed
    [encodeURIComponent] throws, no request is sent, and the [catch] and the
    [finally] run at once. *)
Definition fetchToolsForServer (serverUrl : jsstring) (st : state) : state :=
  let st := setLoadingTools (λ prev, <[serverUrl := true]> prev) st in
  if JS.isWellFormed serverUrl then send serverUrl st
  else setLoadingTools (λ prev, <[serverUrl := false]> prev) st.

(** [fetchToolsForServer] from its first [await] on, when the request has
    settled with [r].  A request that is not in flight does not settle. *)
Definition fetchToolsForServer_settled (serverUrl : jsstring) (r : Settled)
    (st : state) : state :=
  if bool_decide (serverUrl ∈ requests st) then
    let st := receive serverUrl st in
    let st :=
      match r with
      | ResponseOk data_tools =>
          let tools := (λ t, {| name := name t; description := description t |})
                         <$> data_tools in
          setAvailableTools (λ prev, <[serverUrl := tools]> prev) st
      | ResponseNotOk => st
      | Rejected => st
      end in
    setLoadingTools (λ prev, <[serverUrl := false]> prev) st
  else st.

(** [localMCPServers.some(s => s.url === newServerUrl.trim())] *)
Definition already_present (st : state) : bool :=
  existsb (λ s, JS.str_eq (url s) (JS.trim (newServerUrl st))) (localMCPServers st).

Definition addMCPServer (st : state) : state :=
  if JS.string_truthy (JS.trim (newServerUrl st)) && negb (already_present st) then
    let serverUrl := JS.trim (newServerUrl st) in
    let newServer := {| url := serverUrl; selectedTools := [] |} in
    let st := setLocalMCPServers (λ _, localMCPServers st ++ [newServer]) st in
    let st := setNewServerUrl [] st in
    fetchToolsForServer serverUrl st
  else st.

Definition removeMCPServer (serverUrl : jsstring) (st : state) : state :=
  let st := setLocalMCPServers
              (λ _, filter (λ s, url s ≠ serverUrl) (localMCPServers st)) st in
  setAvailableTools (λ prev, delete serverUrl prev) st.

Definition toggle_in (toolName : jsstring) (tools : list jsstring) : list jsstring :=
  let isSelected := JS.includes tools toolName in
  if isSelected then filter (λ t, t ≠ toolName) tools else tools ++ [toolName].

Definition toggleToolSelection (serverUrl toolName : jsstring) (st : state) : state :=
  setLocalMCPServers
    (λ prev, (λ server,
       if JS.str_eq (url server) serverUrl then
         {| url := url server;
            selectedTools := toggle_in toolName (selectedTools server) |}
       else server) <$> prev) st.

(** [availableTools[serverUrl] || []] is read as the own catalog of the url,
    the empty array when there is none.  The button that calls the handler
    is on the page only for a server whose own catalog is there and not
    empty, in a render that went through. *)
Definition selectAllTools (serverUrl : jsstring) (st : state) : state :=
  let tools := default [] (availableTools st !! serverUrl) in
  setLocalMCPServers
    (λ prev, (λ server,
       if JS.str_eq (url server) serverUrl then
         {| url := url server; selectedTools := name <$> tools |}
       else server) <$> prev) st.

Definition deselectAllTools (serverUrl : jsstring) (st : state) : state :=
  setLocalMCPServers
    (λ prev, (λ server,
       if JS.str_eq (url server) serverUrl then
         {| url := url server; selectedTools := [] |}
       else server) <$> prev) st.

(** The part of the [useEffect] on [mcpServers] that concerns the servers:
    the draft is reset to the context's list, and the tools of every server
    with a non-empty url are fetched. *)
Definition load_servers (mcpServers : list MCPServer) (st : state) : state :=
  let st := setLocalMCPServers (λ _, mcpServers) st in
  foldl (λ st server,
           if JS.string_truthy (url server)
           then fetchToolsForServer (url server) st else st)
        st mcpServers.

Section WithJSON.

Variable JSON_stringify : JS.value → jsstring.

(** [handleSave]: what it does to the context.  [alert] and [onClose] leave
    the context as it is. *)
Definition handleSave (st : state) (ctx : LMConfigContext.state)
    : LMConfigContext.state :=
  match activeTab st with
  | TabLM =>
      if negb (JS.string_truthy (JS.trim (modelName st))) then ctx
      else
        let fullModelName :=
          selectedProvider st ++ js "/" ++ JS.trim (modelName st) in
        setGlobalLMConfig JSON_stringify
          (Some (mkLMConfig (selectedProvider st) fullModelName))
          ctx
  | TabMCP => setMCPServers JSON_stringify (localMCPServers st) ctx
  end.

End WithJSON.

(** The user types a url and asks to add it. *)
Definition addServer (raw : jsstring) (st : state) : state :=
  addMCPServer (setNewServerUrl raw st).

(** What happens to the scope edited in the modal. *)
Inductive event : Type :=
  | AddServer (raw : jsstring)
  | RemoveServer (serverUrl : jsstring)
  | Settle (serverUrl : jsstring) (r : Settled)
  | Toggle (serverUrl toolName : jsstring)
  | SelectAll (serverUrl : jsstring)
  | DeselectAll (serverUrl : jsstring).

Definition step (st : state) (e : event) : state :=
  match e with
  | AddServer raw => addServer raw st
  | RemoveServer serverUrl => removeMCPServer serverUrl st
  | Settle serverUrl r => fetchToolsForServer_settled serverUrl r st
  | Toggle serverUrl toolName => toggleToolSelection serverUrl toolName st
  | SelectAll serverUrl => selectAllTools serverUrl st
  | DeselectAll serverUrl => deselectAllTools serverUrl st
  end.

Definition run (evs : list event) (st : state) : state := foldl step st evs.

(** The urls of the scope's servers, in order. *)
Definition urls (st : state) : list jsstring := url <$> localMCPServers st.

(** The selection of the (first) server with this url. *)
Definition selection (serverUrl : jsstring) (st : state) : option (list jsstring) :=
  selectedTools <$> find (λ s, JS.str_eq (url s) serverUrl) (localMCPServers st).

End LMConfigModal.

(* ===================================================================== *)
(** * ui/src/components/nodes/ModuleNode.tsx *)
(* ===================================================================== *)

Inductive ModuleType : Type :=
  | Predict
  | ChainOfThought
  | ReAct
  | BestOfN
  | Refine.

(** The [data] of a module node, with the ten fields [handleSave] writes.
    The declaration of the type (types/workflow) is not among the sources;
    [other] stands for every field of it that [handleSave] does not write
    ([traceData], [onTraceClick], ...). *)
Module ModuleNodeData.

Record t : Type := mk {
  label : jsstring;
  moduleType : ModuleType;
  model : jsstring;
  instruction : jsstring;
  parameters : gmap jsstring JS.value;
  mcpServers : list jsstring;
  maxIters : Z;
  useGlobalMcpServers : bool;
  selectedTools : gmap jsstring (list jsstring);
  globalMcpServersSnapshot : list LMConfigContext.MCPServer;
  other : gmap jsstring JS.value;
}.

End ModuleNodeData.

(** A node of the flow, as far as [handleSave] looks at it. *)
Record Node : Type := mkNode {
  id : jsstring;
  data : ModuleNodeData.t;
}.

Module ModuleNode.

(** The component's [useState]s, and the tool-discovery requests that were
    issued and have not settled. *)
Record state : Type := mkEditor {
  isEditing : bool;
  nodeLabel : jsstring;
  moduleType : ModuleType;
  model : jsstring;
  instruction : jsstring;
  parameters : gmap jsstring JS.value;
  mcpServers : list jsstring;
  maxIters : Z;
  useGlobalMcpServers : bool;
  selectedTools : gmap jsstring (list jsstring);
  availableTools : gmap jsstring (list Tool);
  loadingTools : gmap jsstring bool;
  newMcpServer : jsstring;
  requests : list jsstring;
}.

(** The initial values of the [useState]s for a node whose data holds none
    of the fields yet: each [nodeData.f || d] is the default [d]. *)
Definition init : state :=
  {| isEditing := false; nodeLabel := js "Module"; moduleType := Predict;
     model := []; instruction := []; parameters := ∅; mcpServers := [];
     maxIters := 5%Z; useGlobalMcpServers := false; selectedTools := ∅;
     availableTools := ∅; loadingTools := ∅; newMcpServer := [];
     requests := [] |}.

Definition setIsEditing (v : bool) (st : state) : state :=
  {| isEditing := v; nodeLabel := nodeLabel st; moduleType := moduleType st;
     model := model st; instruction := instruction st;
     parameters := parameters st; mcpServers := mcpServers st;
     maxIters := maxIters st; useGlobalMcpServers := useGlobalMcpServers st;
     selectedTools := selectedTools st; availableTools := availableTools st;
     loadingTools := loadingTools st; newMcpServer := newMcpServer st;
     requests := requests st |}.

Definition setMcpServers (v : list jsstring) (st : state) : state :=
  {| isEditing := isEditing st; nodeLabel := nodeLabel st;
     moduleType := moduleType st; model := model st;
     instruction := instruction st; parameters := parameters st;
     mcpServers := v; maxIters := maxIters st;
     useGlobalMcpServers := useGlobalMcpServers st;
     selectedTools := selectedTools st; availableTools := availableTools st;
     loadingTools := loadingTools st; newMcpServer := newMcpServer st;
     requests := requests st |}.

Definition setUseGlobalMcpServers (v : bool) (st : state) : state :=
  {| isEditing := isEditing st; nodeLabel := nodeLabel st;
     moduleType := moduleType st; model := model st;
     instruction := instruction st; parameters := parameters st;
     mcpServers := mcpServers st; maxIters := maxIters st;
     useGlobalMcpServers := v; selectedTools := selectedTools st;
     availableTools := availableTools st; loadingTools := loadingTools st;
     newMcpServer := newMcpServer st; requests := requests st |}.

Definition setSelectedTools (f : gmap jsstring (list jsstring) → gmap jsstring (list jsstring)) (st : state) : state :=
  {| isEditing := isEditing st; nodeLabel := nodeLabel st;
     moduleType := moduleType st; model := model st;
     instruction := instruction st; parameters := parameters st;
     mcpServers := mcpServers st; maxIters := maxIters st;
     useGlobalMcpServers := useGlobalMcpServers st;
     selectedTools := f (selectedTools st);
     availableTools := availableTools st; loadingTools := loadingTools st;
     newMcpServer := newMcpServer st; requests := requests st |}.

Definition setAvailableTools (f : gmap jsstring (list Tool) → gmap jsstring (list Tool)) (st : state) : state :=
  {| isEditing := isEditing st; nodeLabel := nodeLabel st;
     moduleType := moduleType st; model := model st;
     instruction := instruction st; parameters := parameters st;
     mcpServers := mcpServers st; maxIters := maxIters st;
     useGlobalMcpServers := useGlobalMcpServers st;
     selectedTools := selectedTools st;
     availableTools := f (availableTools st);
     loadingTools := loadingTools st; newMcpServer := newMcpServer st;
     requests := requests st |}.

Definition setLoadingTools (f : gmap jsstring bool → gmap jsstring bool) (st : state) : state :=
  {| isEditing := isEditing st; nodeLabel := nodeLabel st;
     moduleType := moduleType st; model := model st;
     instruction := instruction st; parameters := parameters st;
     mcpServers := mcpServers st; maxIters := maxIters st;
     useGlobalMcpServers := useGlobalMcpServers st;
     selectedTools := selectedTools st; availableTools := availableTools st;
     loadingTools := f (loadingTools st); newMcpServer := newMcpServer st;
     requests := requests st |}.

Definition setNewMcpServer (v : jsstring) (st : state) : state :=
  {| isEditing := isEditing st; nodeLabel := nodeLabel st;
     moduleType := moduleType st; model := model st;
     instruction := instruction st; parameters := parameters st;
     mcpServers := mcpServers st; maxIters := maxIters st;
     useGlobalMcpServers := useGlobalMcpServers st;
     selectedTools := selectedTools st; availableTools := availableTools st;
     loadingTools := loadingTools st; newMcpServer := v;
     requests := requests st |}.

(** [fetch(...)]: one more request is in flight. *)
Definition send (serverUrl : jsstring) (st : state) : state :=
  {| isEditing := isEditing st; nodeLabel := nodeLabel st;
     moduleType := moduleType st; model := model st;
     instruction := instruction st; parameters := parameters st;
     mcpServers := mcpServers st; maxIters := maxIters st;
     useGlobalMcpServers := useGlobalMcpServers st;
     selectedTools := selectedTools st; availableTools := availableTools st;
     loadingTools := loadingTools st; newMcpServer := newMcpServer st;
     requests := requests st ++ [serverUrl] |}.

Definition receive (serverUrl : jsstring) (st : state) : state :=
  {| isEditing := isEditing st; nodeLabel := nodeLabel st;
     moduleType := moduleType st; model := model st;
     instruction := instruction st; parameters := parameters st;
     mcpServers := mcpServers st; maxIters := maxIters st;
     useGlobalMcpServers := useGlobalMcpServers st;
     selectedTools := selectedTools st; availableTools := availableTools st;
     loadingTools := loadingTools st; newMcpServer := newMcpServer st;
     requests := settle_one serverUrl (requests st) |}.

(** The snapshot [handleSave] stores. *)
Definition snapshot (st : state) (globalMCPServers : list LMConfigContext.MCPServer)
    : list LMConfigContext.MCPServer :=
  if useGlobalMcpServers st then
    (λ s, {| LMConfigContext.url := LMConfigContext.url s;
             LMConfigContext.selectedTools := LMConfigContext.selectedTools s |})
      <$> globalMCPServers
  else [].

(** [{ ...node.data, ...nodeDataToSave }] *)
Definition nodeDataToSave (st : state)
    (globalMCPServers : list LMConfigContext.MCPServer)
    (node_data : ModuleNodeData.t) : ModuleNodeData.t :=
  {| ModuleNodeData.label := nodeLabel st;
     ModuleNodeData.moduleType := moduleType st;
     ModuleNodeData.model := model st;
     ModuleNodeData.instruction := instruction st;
     ModuleNodeData.parameters := parameters st;
     ModuleNodeData.mcpServers := mcpServers st;
     ModuleNodeData.maxIters := maxIters st;
     ModuleNodeData.useGlobalMcpServers := useGlobalMcpServers st;
     ModuleNodeData.selectedTools := selectedTools st;
     ModuleNodeData.globalMcpServersSnapshot := snapshot st globalMCPServers;
     ModuleNodeData.other := ModuleNodeData.other node_data |}.

(** [handleSave] of the node [id'], with the context's [mcpServers]: the new
    state of the editor and the new nodes of the flow. *)
Definition handleSave (id' : jsstring)
    (globalMCPServers : list LMConfigContext.MCPServer)
    (st : state) (nds : list Node) : state * list Node :=
  (setIsEditing false st,
   (λ node,
      if JS.str_eq (id node) id' then
        {| id := id node;
           data := nodeDataToSave st globalMCPServers (data node) |}
      else node) <$> nds).

(** [fetchToolsForServer] up to its first [await].  The url of the request
    is built inside the [try]: for a string that is not well-formed
    [encodeURIComponent] throws, no request is sent, and the [catch] and the
    [finally] run at once. *)
Definition fetchToolsForServer (serverUrl : jsstring) (st : state) : state :=
  let st := setLoadingTools (λ prev, <[serverUrl := true]> prev) st in
  if JS.isWellFormed serverUrl then send serverUrl st
  else setLoadingTools (λ prev, <[serverUrl := false]> prev) st.

(** [fetchToolsForServer] from its first [await] on, when the request has
    settled with [r].  A request that is not in flight does not settle. *)
Definition fetchToolsForServer_settled (serverUrl : jsstring) (r : Settled)
    (st : state) : state :=
  if bool_decide (serverUrl ∈ requests st) then
    let st := receive serverUrl st in
    let st :=
      match r with
      | ResponseOk data_tools =>
          let tools := (λ t, {| name := name t; description := description t |})
                         <$> data_tools in
          let st := setAvailableTools (λ prev, <[serverUrl := tools]> prev) st in
          setSelectedTools (λ prev, <[serverUrl := name <$> tools]> prev) st
      | ResponseNotOk => st
      | Rejected => st
      end in
    setLoadingTools (λ prev, <[serverUrl := false]> prev) st
  else st.

(** [mcpServers.includes(newMcpServer.trim())] *)
Definition already_present (st : state) : bool :=
  JS.includes (mcpServers st) (JS.trim (newMcpServer st)).

Definition addMcpServer (st : state) : state :=
  if JS.string_truthy (JS.trim (newMcpServer st)) && negb (already_present st) then
    let serverUrl := JS.trim (newMcpServer st) in
    let st := setMcpServers (mcpServers st ++ [serverUrl]) st in
    let st := setNewMcpServer [] st in
    fetchToolsForServer serverUrl st
  else st.

Definition removeMcpServer (serverUrl : jsstring) (st : state) : state :=
  let st := setMcpServers (filter (λ s, s ≠ serverUrl) (mcpServers st)) st in
  let st := setAvailableTools (λ prev, delete serverUrl prev) st in
  setSelectedTools (λ prev, delete serverUrl prev) st.

(** [prev[serverUrl] || []] finds the own selection (an array, truthy also
    when empty), or a member inherited from [Object.prototype], which has no
    [includes]: the updater throws a [TypeError]. *)
Definition toggleToolSelection (serverUrl toolName : jsstring) (st : state)
    : JS.exn + state :=
  match JS.read (selectedTools st) serverUrl with
  | JS.Inherited _ => inl JS.TypeError
  | found =>
      let serverTools := match found with JS.Own tools => tools | _ => [] end in
      let isSelected := JS.includes serverTools toolName in
      inr (setSelectedTools
             (λ prev,
                <[serverUrl := if isSelected
                               then filter (λ t, t ≠ toolName) serverTools
                               else serverTools ++ [toolName]]> prev) st)
  end.

(** The user types a url and asks to add it. *)
Definition addServer (raw : jsstring) (st : state) : state :=
  addMcpServer (setNewMcpServer raw st).

(** What happens to the scope edited in the node. *)
Inductive event : Type :=
  | AddServer (raw : jsstring)
  | RemoveServer (serverUrl : jsstring)
  | Settle (serverUrl : jsstring) (r : Settled)
  | Toggle (serverUrl toolName : jsstring)
  | UseGlobal (checked : bool).

Definition step (st : state) (e : event) : state :=
  match e with
  | AddServer raw => addServer raw st
  | RemoveServer serverUrl => removeMcpServer serverUrl st
  | Settle serverUrl r => fetchToolsForServer_settled serverUrl r st
  | Toggle serverUrl toolName =>
      JS.absorb (toggleToolSelection serverUrl toolName st) st
  | UseGlobal checked => setUseGlobalMcpServers checked st
  end.

Definition run (evs : list event) (st : state) : state := foldl step st evs.

End ModuleNode.

(* ===================================================================== *)
(** * The context and the nodes together *)
(* ===================================================================== *)

Module App.

(** The provider's state and the nodes of the flow ([setNodes]). *)
Record state : Type := mk {
  context : LMConfigContext.state;
  nodes : list Node;
}.

(** The (first) node with this id. *)
Definition node_with (id' : jsstring) (nds : list Node) : option Node :=
  find (λ node, JS.str_eq (id node) id') nds.

(** The editor [ed] of node [id'] saves: [handleSave] reads the context's
    [mcpServers] and writes the nodes. *)
Definition save_node (id' : jsstring) (ed : ModuleNode.state) (app : state) : state :=
  {| context := context app;
     nodes := (ModuleNode.handleSave id'
                 (LMConfigContext.mcpServers (context app)) ed (nodes app)).2 |}.

Section WithJSON.

Variable JSON_stringify : JS.value → jsstring.

Definition mutate_global (app : state) (m : LMConfigContext.mutation) : state :=
  {| context := LMConfigContext.mutate JSON_stringify m (context app);
     nodes := nodes app |}.

End WithJSON.

End App.

(* ===================================================================== *)
(** * A JSON printer and reader to run the definitions with *)
(* ===================================================================== *)

(** [JSON.parse] and [JSON.stringify] are parameters of the definitions
    above.  To evaluate them on concrete configurations, this module gives
    one instance: the compact text [JSON.stringify] prints, and a reader of
    JSON texts whose numbers are plain decimal integers. *)
Module MiniJSON.

Import JS.

Definition hex_digit (d : N) : N :=
  if (d <? 10)%N then (48 + d)%N else (87 + d)%N.

Definition escape (c : N) : jsstring :=
  if bool_decide (c = 34%N) then [92; 34]%N
  else if bool_decide (c = 92%N) then js "\\"
  else if bool_decide (c = 8%N) then js "\b"
  else if bool_decide (c = 9%N) then js "\t"
  else if bool_decide (c = 10%N) then js "\n"
  else if bool_decide (c = 12%N) then js "\f"
  else if bool_decide (c = 13%N) then js "\r"
  else if (c <? 32)%N then js "\u00" ++ [hex_digit (c / 16); hex_digit (c mod 16)]
  else [c].

Definition quote (s : jsstring) : jsstring :=
  [34%N] ++ concat (escape <$> s) ++ [34%N].

Fixpoint join (sep : jsstring) (parts : list jsstring) : jsstring :=
  match parts with
  | [] => []
  | [p] => p
  | p :: rest => p ++ sep ++ join sep rest
  end.

(** Inside an array [undefined] prints as [null]; a property whose value is
    [undefined] is left out. *)
Fixpoint stringify (v : value) : jsstring :=
  match v with
  | VUndefined => js "undefined"
  | VNull => js "null"
  | VBool true => js "true"
  | VBool false => js "false"
  | VNum true => js "1"
  | VNum false => js "0"
  | VStr s => quote s
  | VArr xs =>
      js "[" ++ join (js ",")
                  ((λ x, match x with VUndefined => js "null" | _ => stringify x end)
                     <$> xs) ++ js "]"
  | VObj fields =>
      js "{" ++ join (js ",")
                  (omap (λ kv, match kv.2 with
                               | VUndefined => None
                               | _ => Some (quote kv.1 ++ js ":" ++ stringify kv.2)
                               end) fields) ++ js "}"
  end.

Fixpoint eat (lit s : jsstring) : option jsstring :=
  match lit, s with
  | [], _ => Some s
  | c :: lit', d :: s' => if bool_decide (c = d) then eat lit' s' else None
  | _ :: _, [] => None
  end.

(** JSON's own white space: tab, line feed, carriage return, space. *)
Fixpoint skip_ws (s : jsstring) : jsstring :=
  match s with
  | c :: s' => if bool_decide (c ∈ [9; 10; 13; 32]%N) then skip_ws s' else s
  | [] => []
  end.

Definition hex_value (c : N) : option N :=
  if (48 <=? c)%N && (c <=? 57)%N then Some (c - 48)%N
  else if (97 <=? c)%N && (c <=? 102)%N then Some (c - 87)%N
  else if (65 <=? c)%N && (c <=? 70)%N then Some (c - 55)%N
  else None.

(** The characters of a string literal after its opening quote. *)
Fixpoint read_string (s : jsstring) (fuel : nat) : option (jsstring * jsstring) :=
  match fuel with
  | O => None
  | S fuel =>
      match s with
      | [] => None
      | 34%N :: rest => Some ([], rest)
      | 92%N :: e :: rest =>
          if bool_decide (e = 117%N) then
            match rest with
            | a :: b :: c :: d :: rest' =>
                a ← hex_value a; b ← hex_value b; c ← hex_value c; d ← hex_value d;
                '(str, rest'') ← read_string rest' fuel;
                Some ((((a * 16 + b) * 16 + c) * 16 + d)%N :: str, rest'')
            | _ => None
            end
          else
            ch ← (if bool_decide (e = 34%N) then Some 34%N
                  else if bool_decide (e = 92%N) then Some 92%N
                  else if bool_decide (e = 47%N) then Some 47%N
                  else if bool_decide (e = 98%N) then Some 8%N
                  else if bool_decide (e = 116%N) then Some 9%N
                  else if bool_decide (e = 110%N) then Some 10%N
                  else if bool_decide (e = 102%N) then Some 12%N
                  else if bool_decide (e = 114%N) then Some 13%N
                  else None);
            '(str, rest') ← read_string rest fuel;
            Some (ch :: str, rest')
      | c :: rest =>
          if (c <? 32)%N then None
          else '(str, rest') ← read_string rest fuel; Some (c :: str, rest')
      end
  end.

(** The digits of an integer: whether one of them is not [0], and the rest
    of the text. *)
Fixpoint read_digits (s : jsstring) (seen nonzero : bool) : option (bool * jsstring) :=
  match s with
  | c :: s' =>
      if (48 <=? c)%N && (c <=? 57)%N
      then read_digits s' true (nonzero || negb (bool_decide (c = 48%N)))
      else if seen then Some (nonzero, s) else None
  | [] => if seen then Some (nonzero, []) else None
  end.

Fixpoint read_value (fuel : nat) (s : jsstring) : option (value * jsstring) :=
  match fuel with
  | O => None
  | S fuel =>
      let s := skip_ws s in
      match s with
      | [] => None
      | c :: rest =>
          if bool_decide (c = 34%N) then
            '(str, rest') ← read_string rest (length rest);
            Some (VStr str, rest')
          else if bool_decide (c = 91%N) then
            match skip_ws rest with
            | 93%N :: rest' => Some (VArr [], rest')
            | _ => '(xs, rest') ← read_elements fuel rest; Some (VArr xs, rest')
            end
          else if bool_decide (c = 123%N) then
            match skip_ws rest with
            | 125%N :: rest' => Some (VObj [], rest')
            | _ => '(fs, rest') ← read_members fuel rest; Some (VObj fs, rest')
            end
          else if bool_decide (c = 45%N) then
            '(nz, rest') ← read_digits rest false false; Some (VNum nz, rest')
          else
            match eat (js "null") s, eat (js "true") s, eat (js "false") s with
            | Some rest', _, _ => Some (VNull, rest')
            | _, Some rest', _ => Some (VBool true, rest')
            | _, _, Some rest' => Some (VBool false, rest')
            | _, _, _ =>
                '(nz, rest') ← read_digits s false false; Some (VNum nz, rest')
            end
      end
  end
with read_elements (fuel : nat) (s : jsstring) : option (list value * jsstring) :=
  match fuel with
  | O => None
  | S fuel =>
      '(x, rest) ← read_value fuel s;
      match skip_ws rest with
      | 44%N :: rest' =>
          '(xs, rest'') ← read_elements fuel rest'; Some (x :: xs, rest'')
      | 93%N :: rest' => Some ([x], rest')
      | _ => None
      end
  end
with read_members (fuel : nat) (s : jsstring) : option (list (jsstring * value) * jsstring) :=
  match fuel with
  | O => None
  | S fuel =>
      match skip_ws s with
      | 34%N :: rest =>
          '(key, rest) ← read_string rest (length rest);
          match skip_ws rest with
          | 58%N :: rest =>
              '(x, rest) ← read_value fuel rest;
              match skip_ws rest with
              | 44%N :: rest' =>
                  '(fs, rest'') ← read_members fuel rest';
                  Some ((key, x) :: fs, rest'')
              | 125%N :: rest' => Some ([(key, x)], rest')
              | _ => None
              end
          | _ => None
          end
      | _ => None
      end
  end.

(** The whole text must be one value. *)
Definition parse (s : jsstring) : exn + value :=
  match read_value (2 * length s + 2) s with
  | Some (v, rest) =>
      match skip_ws rest with [] => inr v | _ :: _ => inl SyntaxError end
  | None => inl SyntaxError
  end.

End MiniJSON.

(* ===================================================================== *)
(** * What the events of a scope do to its list of urls *)
(* ===================================================================== *)

(** Both scopes keep an ordered list of server urls and change it in the
    same way; [ServerList] states that way once, on bare lists, so that the
    two components can be compared with it. *)
Module ServerList.

Inductive change : Type :=
  | Added (raw : jsstring)
  | Removed (serverUrl : jsstring)
  | Unchanged.

Definition apply (us : list jsstring) (c : change) : list jsstring :=
  match c with
  | Added raw =>
      if JS.string_truthy (JS.trim raw) && negb (JS.includes us (JS.trim raw))
      then us ++ [JS.trim raw] else us
  | Removed serverUrl => filter (λ s, s ≠ serverUrl) us
  | Unchanged => us
  end.

(** The list of urls after the events [evs], from the empty list. *)
Definition track {E : Type} (change_of : E → change) (evs : list E)
    : list jsstring :=
  foldl (λ us e, apply us (change_of e)) [] evs.

(** [u] was added by an event of [evs], as the trimmed non-empty text of
    what was typed, and no later event of [evs] removed it. *)
Definition added_and_kept {E : Type} (change_of : E → change)
    (evs : list E) (u : jsstring) : Prop :=
  ∃ pre e post raw,
    evs = pre ++ e :: post ∧ change_of e = Added raw ∧
    JS.trim raw = u ∧ u ≠ [] ∧
    ∀ e', e' ∈ post → change_of e' ≠ Removed u.

End ServerList.

Definition modal_change (e : LMConfigModal.event) : ServerList.change :=
  match e with
  | LMConfigModal.AddServer raw => ServerList.Added raw
  | LMConfigModal.RemoveServer serverUrl => ServerList.Removed serverUrl
  | _ => ServerList.Unchanged
  end.

Definition node_change (e : ModuleNode.event) : ServerList.change :=
  match e with
  | ModuleNode.AddServer raw => ServerList.Added raw
  | ModuleNode.RemoveServer serverUrl => ServerList.Removed serverUrl
  | _ => ServerList.Unchanged
  end.

(** An event of [evs] added [u] (the trimmed, non-empty text typed) and no
    later one removed it, in terms of each scope's events. *)
Definition modal_added_and_kept (evs : list LMConfigModal.event) (u : jsstring) : Prop :=
  ∃ pre raw post,
    evs = pre ++ LMConfigModal.AddServer raw :: post ∧
    JS.trim raw = u ∧ u ≠ [] ∧ LMConfigModal.RemoveServer u ∉ post.

Definition node_added_and_kept (evs : list ModuleNode.event) (u : jsstring) : Prop :=
  ∃ pre raw post,
    evs = pre ++ ModuleNode.AddServer raw :: post ∧
    JS.trim raw = u ∧ u ≠ [] ∧ ModuleNode.RemoveServer u ∉ post.


(* ===================================================================== *)
(** * Concrete configurations *)
(* ===================================================================== *)

Module Scenario.

Definition server_a (tools : list jsstring) : LMConfigContext.MCPServer :=
  LMConfigContext.mkMCPServer (js "http://a") tools.

Definition lm : LMConfigContext.LMConfig :=
  LMConfigContext.mkLMConfig (js "openai") (js "openai/gpt-4o").

(** The context with one global server, [http://a], and [search] selected. *)
Definition context : LMConfigContext.state :=
  {| LMConfigContext.globalLMConfig := Some lm;
     LMConfigContext.mcpServers := [server_a [js "search"]];
     LMConfigContext.localStorage := ∅ |}.

(** Node [N] with one local server, and a given flag and snapshot. *)
Definition node_N (useGlobal : bool)
    (snapshot : list LMConfigContext.MCPServer) : Node :=
  {| id := js "N";
     data := {| ModuleNodeData.label := js "Agent";
                ModuleNodeData.moduleType := ReAct;
                ModuleNodeData.model := [];
                ModuleNodeData.instruction := [];
                ModuleNodeData.parameters := ∅;
                ModuleNodeData.mcpServers := [js "http://b"];
                ModuleNodeData.maxIters := 5%Z;
                ModuleNodeData.useGlobalMcpServers := useGlobal;
                ModuleNodeData.selectedTools := {[ js "http://b" := [js "x"; js "y"] ]};
                ModuleNodeData.globalMcpServersSnapshot := snapshot;
                ModuleNodeData.other := ∅ |} |}.

Definition node_M : Node :=
  {| id := js "M"; data := data (node_N false []) |}.

(** The editor of [N], with the box "use global servers" as given. *)
Definition editor (useGlobal : bool) : ModuleNode.state :=
  ModuleNode.setUseGlobalMcpServers useGlobal ModuleNode.init.

Definition app : App.state :=
  {| App.context := context; App.nodes := [node_M; node_N false []] |}.

End Scenario.

(* ===================================================================== *)
(** * The rest of the two components *)
(* ===================================================================== *)

(** [toggleServerCollapse], the same in both components:
    [setCollapsedServers(prev => ({ ...prev, [serverUrl]: !prev[serverUrl] }))],
    on the state [collapsedServers] alone.  The read finds inherited members
    too; the computed key of the literal always makes an own property. *)
Definition toggleServerCollapse (serverUrl : jsstring)
    (prev : gmap jsstring bool) : gmap jsstring bool :=
  <[serverUrl := negb (JS.read_truthy prev serverUrl)]> prev.

(** The truthiness of [collapsedServers[server] || false], what the two
    lists render with. *)
Definition isCollapsed (collapsedServers : gmap jsstring bool)
    (server : jsstring) : bool :=
  JS.read_truthy collapsedServers server.

(** The decimal digits of a natural number, as a template literal prints a
    number of that size (a count of keys is far below [1e21], where the
    notation of numbers changes). *)
Fixpoint decimal_digits (fuel : nat) (n : N) (acc : jsstring) : jsstring :=
  match fuel with
  | O => acc
  | S fuel =>
      let acc := (48 + n mod 10)%N :: acc in
      if (n / 10 =? 0)%N then acc else decimal_digits fuel (n / 10) acc
  end.

Definition decimal (n : N) : jsstring :=
  decimal_digits (S (N.to_nat (N.log2 n))) n [].

(** [availableTools[url] && availableTools[url].length > 0]: true for a
    catalog that is not empty, and also for an inherited member with a
    positive [length]. *)
Definition hasTools (availableTools : gmap jsstring (list Tool))
    (server : jsstring) : bool :=
  match JS.read availableTools server with
  | JS.Own tools => bool_decide (0 < length tools)
  | JS.Inherited (Some n) => bool_decide (0 < n)
  | JS.Inherited None => false
  | JS.Absent => false
  end.

(** What the body of an expanded server shows: the loading text, the tools
    with their checkboxes, the text "No tools found", nothing; or the render
    throws. *)
Inductive ToolsView : Type :=
  | ViewLoading
  | ViewTools (tools : list Tool)
  | ViewNoTools
  | ViewNothing
  | ViewThrows.

Definition view_throws (v : ToolsView) : bool :=
  match v with ViewThrows => true | _ => false end.

(** The providers of the select box, and the answer of the server about
    which of them are configured: the own properties of [availableProviders]
    in the order [Object.keys] lists them. *)
Module Providers.

Record option_ : Type := mkOption {
  value : jsstring;
  label : jsstring;
  requiresKey : bool;
}.

Definition PROVIDER_OPTIONS : list option_ :=
  [ mkOption (js "databricks") (js "Databricks") false;
    mkOption (js "openai") (js "OpenAI") true;
    mkOption (js "anthropic") (js "Anthropic") true;
    mkOption (js "gemini") (js "Gemini (Google)") true;
    mkOption (js "custom") (js "Custom Provider") true ].

(** [availableProviders[p]], [undefined] as [None]. *)
Fixpoint get (availableProviders : list (jsstring * bool)) (p : jsstring)
    : option bool :=
  match availableProviders with
  | [] => None
  | (k, b) :: rest => if JS.str_eq k p then Some b else get rest p
  end.

(** The truthiness of [availableProviders[p]]. *)
Definition available (availableProviders : list (jsstring * bool))
    (p : jsstring) : bool :=
  default false (get availableProviders p).

(** [availableProviders[provider] === true] *)
Definition isProviderConfigured (availableProviders : list (jsstring * bool))
    (provider : jsstring) : bool :=
  match get availableProviders provider with
  | Some true => true
  | _ => false
  end.

(** The default of the effect: databricks if available, otherwise the first
    available provider, [|| 'databricks']. *)
Definition defaultProvider (availableProviders : list (jsstring * bool)) : jsstring :=
  if available availableProviders (js "databricks") then js "databricks"
  else
    match find (λ p, available availableProviders p) (availableProviders.*1) with
    | Some p => if JS.string_truthy p then p else js "databricks"
    | None => js "databricks"
    end.

(** [toUpperCase] on ASCII text, which the value of a provider option is. *)
Definition toUpperCase (s : jsstring) : jsstring :=
  (λ c, if (97 <=? c)%N && (c <=? 122)%N then (c - 32)%N else c) <$> s.

Record info : Type := mkInfo {
  statusText : jsstring;
  statusColor : jsstring;
  helperText : jsstring;
}.

Definition getProviderInfo (availableProviders : list (jsstring * bool))
    (provider : jsstring) : option info :=
  match find (λ p, JS.str_eq (value p) provider) PROVIDER_OPTIONS with
  | None => None
  | Some providerConfig =>
      let isConfigured := isProviderConfigured availableProviders provider in
      if JS.str_eq (value providerConfig) (js "databricks") then
        Some {| statusText :=
                  if isConfigured then js "Configured" else js "Not configured";
                statusColor :=
                  if isConfigured then js "text-green-600" else js "text-yellow-600";
                helperText :=
                  if isConfigured then js "Databricks credentials are configured"
                  else js "Databricks credentials not found. Configure DATABRICKS_CONFIG_PROFILE or DATABRICKS_HOST/TOKEN in .env" |}
      else if negb (requiresKey providerConfig) then
        Some {| statusText := js "Available";
                statusColor := js "text-green-600";
                helperText := [] |}
      else
        Some {| statusText :=
                  if isConfigured then js "API Key Configured"
                  else js "API Key Required";
                statusColor :=
                  if isConfigured then js "text-green-600" else js "text-red-600";
                helperText :=
                  if isConfigured
                  then label providerConfig ++ js " API key is configured on the server"
                  else label providerConfig ++ js " API key not found. Configure "
                       ++ toUpperCase provider ++ js "_API_KEY in .env on the server" |}
  end.

End Providers.

(** The modal together with the context it reads and writes. *)
Module ModalSession.

Definition setSelectedProvider (v : jsstring) (st : LMConfigModal.state)
    : LMConfigModal.state :=
  {| LMConfigModal.selectedProvider := v;
     LMConfigModal.modelName := LMConfigModal.modelName st;
     LMConfigModal.activeTab := LMConfigModal.activeTab st;
     LMConfigModal.newServerUrl := LMConfigModal.newServerUrl st;
     LMConfigModal.availableTools := LMConfigModal.availableTools st;
     LMConfigModal.loadingTools := LMConfigModal.loadingTools st;
     LMConfigModal.localMCPServers := LMConfigModal.localMCPServers st;
     LMConfigModal.requests := LMConfigModal.requests st |}.

Definition setModelName (v : jsstring) (st : LMConfigModal.state)
    : LMConfigModal.state :=
  {| LMConfigModal.selectedProvider := LMConfigModal.selectedProvider st;
     LMConfigModal.modelName := v;
     LMConfigModal.activeTab := LMConfigModal.activeTab st;
     LMConfigModal.newServerUrl := LMConfigModal.newServerUrl st;
     LMConfigModal.availableTools := LMConfigModal.availableTools st;
     LMConfigModal.loadingTools := LMConfigModal.loadingTools st;
     LMConfigModal.localMCPServers := LMConfigModal.localMCPServers st;
     LMConfigModal.requests := LMConfigModal.requests st |}.

(** The first half of the [useEffect]: the form of the language model. *)
Definition load_lm (globalLMConfig : option LMConfigContext.LMConfig)
    (availableProviders : list (jsstring * bool)) (st : LMConfigModal.state)
    : LMConfigModal.state :=
  match globalLMConfig with
  | Some c =>
      setModelName (LMConfigContext.modelName c)
        (setSelectedProvider (LMConfigContext.provider c) st)
  | None =>
      setModelName []
        (setSelectedProvider (Providers.defaultProvider availableProviders) st)
  end.

(** The whole [useEffect], on the values of the context it depends on. *)
Definition effect (ctx : LMConfigContext.state)
    (availableProviders : list (jsstring * bool)) (st : LMConfigModal.state)
    : LMConfigModal.state :=
  LMConfigModal.load_servers (LMConfigContext.mcpServers ctx)
    (load_lm (LMConfigContext.globalLMConfig ctx) availableProviders st).

(** What the body of an expanded server of the modal shows.  The bodies
    are those of the servers of the draft; for another url nothing is
    shown.  When [hasTools] holds of an inherited member, the render calls
    its [map], which is not a function. *)
Definition tools_view (st : LMConfigModal.state) (server : jsstring) : ToolsView :=
  if bool_decide (server ∈ LMConfigModal.urls st) then
    if JS.read_truthy (LMConfigModal.loadingTools st) server then ViewLoading
    else if hasTools (LMConfigModal.availableTools st) server then
      match JS.read (LMConfigModal.availableTools st) server with
      | JS.Own tools => ViewTools tools
      | _ => ViewThrows
      end
    else ViewNoTools
  else ViewNothing.

(** The render of the list of servers goes through: no expanded server
    throws. *)
Definition page_renders (collapsedServers : gmap jsstring bool)
    (st : LMConfigModal.state) : bool :=
  forallb (λ server, isCollapsed collapsedServers server
                     || negb (view_throws (tools_view st server)))
          (LMConfigModal.urls st).

(** Whether the checkbox of the tool [toolName] of [server] is on the page:
    the modal is open on the tab of the servers, the list renders, the
    server is expanded and shows its tools, and the tool is one of them. *)
Definition checkbox_shown (isOpen : bool) (collapsedServers : gmap jsstring bool)
    (st : LMConfigModal.state) (server toolName : jsstring) : bool :=
  isOpen
  && match LMConfigModal.activeTab st with
     | LMConfigModal.TabMCP => true
     | LMConfigModal.TabLM => false
     end
  && page_renders collapsedServers st
  && negb (isCollapsed collapsedServers server)
  && match tools_view st server with
     | ViewTools tools => bool_decide (toolName ∈ name <$> tools)
     | _ => false
     end.

(** The user toggles the tool: the [onChange] of its checkbox runs, if the
    checkbox is there. *)
Definition checkbox_onChange (isOpen : bool)
    (collapsedServers : gmap jsstring bool) (server toolName : jsstring)
    (st : LMConfigModal.state) : LMConfigModal.state :=
  if checkbox_shown isOpen collapsedServers st server toolName
  then LMConfigModal.toggleToolSelection server toolName st
  else st.

Section WithJSON.

Variable JSON_stringify : JS.value → jsstring.

(** [handleClear]: the modal and the context after it. *)
Definition handleClear (st : LMConfigModal.state) (ctx : LMConfigContext.state)
    : LMConfigModal.state * LMConfigContext.state :=
  match LMConfigModal.activeTab st with
  | LMConfigModal.TabLM =>
      (setModelName [] (setSelectedProvider (js "databricks") st),
       LMConfigContext.setGlobalLMConfig JSON_stringify None ctx)
  | LMConfigModal.TabMCP =>
      (LMConfigModal.setLocalMCPServers (λ _, []) st,
       LMConfigContext.setMCPServers JSON_stringify [] ctx)
  end.

(** What can happen while the modal is mounted.  The effect is an action of
    its own: React runs it after a render in which one of its dependencies
    changed, and every such run is one of these. *)
Inductive action : Type :=
  | Act (e : LMConfigModal.event)
  | Effect (availableProviders : list (jsstring * bool))
  | SelectTab (tab : LMConfigModal.Tab)
  | SelectProvider (provider : jsstring)
  | TypeModelName (text : jsstring)
  | Save
  | Clear.

Definition step (s : LMConfigModal.state * LMConfigContext.state) (a : action)
    : LMConfigModal.state * LMConfigContext.state :=
  let '(st, ctx) := s in
  match a with
  | Act e => (LMConfigModal.step st e, ctx)
  | Effect availableProviders => (effect ctx availableProviders st, ctx)
  | SelectTab tab => (LMConfigModal.setActiveTab tab st, ctx)
  | SelectProvider provider => (setSelectedProvider provider st, ctx)
  | TypeModelName text => (setModelName text st, ctx)
  | Save => (st, LMConfigModal.handleSave JSON_stringify st ctx)
  | Clear => handleClear st ctx
  end.

Definition run (acts : list action)
    (s : LMConfigModal.state * LMConfigContext.state)
    : LMConfigModal.state * LMConfigContext.state :=
  foldl step s acts.

(** The stored text is the one of the configuration in memory. *)
Definition in_sync (ctx : LMConfigContext.state) : Prop :=
  LMConfigContext.localStorage ctx !! LMConfigContext.GLOBAL_CONFIG_STORAGE_KEY =
    Some (JSON_stringify
            (LMConfigContext.GlobalConfig_value
               (LMConfigContext.globalLMConfig ctx)
               (LMConfigContext.mcpServers ctx))).

End WithJSON.

End ModalSession.

(** The rest of the node's editor. *)
Module NodeForm.

Definition ModuleType_name (t : ModuleType) : jsstring :=
  match t with
  | Predict => js "Predict"
  | ChainOfThought => js "ChainOfThought"
  | ReAct => js "ReAct"
  | BestOfN => js "BestOfN"
  | Refine => js "Refine"
  end.

(** The initial values of the [useState]s from the data of a node in which
    the ten fields are set, as they are once the node was saved. *)
Definition mount (nodeData : ModuleNodeData.t) : ModuleNode.state :=
  let moduleType_name := ModuleType_name (ModuleNodeData.moduleType nodeData) in
  {| ModuleNode.isEditing := false;
     ModuleNode.nodeLabel :=
       if JS.string_truthy (ModuleNodeData.label nodeData)
       then ModuleNodeData.label nodeData
       else if JS.string_truthy moduleType_name then moduleType_name
       else js "Module";
     ModuleNode.moduleType :=
       if JS.string_truthy moduleType_name
       then ModuleNodeData.moduleType nodeData else Predict;
     ModuleNode.model :=
       if JS.string_truthy (ModuleNodeData.model nodeData)
       then ModuleNodeData.model nodeData else [];
     ModuleNode.instruction :=
       if JS.string_truthy (ModuleNodeData.instruction nodeData)
       then ModuleNodeData.instruction nodeData else [];
     ModuleNode.parameters := ModuleNodeData.parameters nodeData;
     ModuleNode.mcpServers := ModuleNodeData.mcpServers nodeData;
     ModuleNode.maxIters :=
       if (ModuleNodeData.maxIters nodeData =? 0)%Z then 5%Z
       else ModuleNodeData.maxIters nodeData;
     ModuleNode.useGlobalMcpServers :=
       ModuleNodeData.useGlobalMcpServers nodeData || false;
     ModuleNode.selectedTools := ModuleNodeData.selectedTools nodeData;
     ModuleNode.availableTools := ∅;
     ModuleNode.loadingTools := ∅;
     ModuleNode.newMcpServer := [];
     ModuleNode.requests := [] |}.

Definition setParameters (v : gmap jsstring JS.value) (st : ModuleNode.state)
    : ModuleNode.state :=
  {| ModuleNode.isEditing := ModuleNode.isEditing st;
     ModuleNode.nodeLabel := ModuleNode.nodeLabel st;
     ModuleNode.moduleType := ModuleNode.moduleType st;
     ModuleNode.model := ModuleNode.model st;
     ModuleNode.instruction := ModuleNode.instruction st;
     ModuleNode.parameters := v;
     ModuleNode.mcpServers := ModuleNode.mcpServers st;
     ModuleNode.maxIters := ModuleNode.maxIters st;
     ModuleNode.useGlobalMcpServers := ModuleNode.useGlobalMcpServers st;
     ModuleNode.selectedTools := ModuleNode.selectedTools st;
     ModuleNode.availableTools := ModuleNode.availableTools st;
     ModuleNode.loadingTools := ModuleNode.loadingTools st;
     ModuleNode.newMcpServer := ModuleNode.newMcpServer st;
     ModuleNode.requests := ModuleNode.requests st |}.

Definition setModel (v : jsstring) (st : ModuleNode.state) : ModuleNode.state :=
  {| ModuleNode.isEditing := ModuleNode.isEditing st;
     ModuleNode.nodeLabel := ModuleNode.nodeLabel st;
     ModuleNode.moduleType := ModuleNode.moduleType st;
     ModuleNode.model := v;
     ModuleNode.instruction := ModuleNode.instruction st;
     ModuleNode.parameters := ModuleNode.parameters st;
     ModuleNode.mcpServers := ModuleNode.mcpServers st;
     ModuleNode.maxIters := ModuleNode.maxIters st;
     ModuleNode.useGlobalMcpServers := ModuleNode.useGlobalMcpServers st;
     ModuleNode.selectedTools := ModuleNode.selectedTools st;
     ModuleNode.availableTools := ModuleNode.availableTools st;
     ModuleNode.loadingTools := ModuleNode.loadingTools st;
     ModuleNode.newMcpServer := ModuleNode.newMcpServer st;
     ModuleNode.requests := ModuleNode.requests st |}.

Definition updateParameter (key : jsstring) (value : JS.value)
    (st : ModuleNode.state) : ModuleNode.state :=
  setParameters (<[key := value]> (ModuleNode.parameters st)) st.

Definition removeParameter (key : jsstring) (st : ModuleNode.state)
    : ModuleNode.state :=
  let newParams := delete key (ModuleNode.parameters st) in
  setParameters newParams st.

(** [`param_${Object.keys(parameters).length + 1}`] *)
Definition next_key (parameters : gmap jsstring JS.value) : jsstring :=
  js "param_" ++ decimal (N.of_nat (size parameters) + 1).

Definition addParameter (st : ModuleNode.state) : ModuleNode.state :=
  let key := next_key (ModuleNode.parameters st) in
  updateParameter key (JS.VStr []) st.

(** The [onChange] of the name of the entry [key], [value]: the entry moves
    to the name typed.  The assignment [newParams[newKey] = value] writes an
    own property, except for the name [__proto__] when the copy has no own
    property of that name: then it runs the setter inherited from
    [Object.prototype], which makes no property (an object or [null] becomes
    the prototype of the copy, which nothing here reads; another value is
    ignored). *)
Definition renameParameter (key : jsstring) (value : JS.value)
    (newKey : jsstring) (st : ModuleNode.state) : ModuleNode.state :=
  let newParams := delete key (ModuleNode.parameters st) in
  let newParams :=
    if JS.str_eq newKey (js "__proto__") && negb (bool_decide (is_Some (newParams !! newKey)))
    then newParams
    else <[newKey := value]> newParams in
  setParameters newParams st.

Definition useGlobalConfig (globalLMConfig : option LMConfigContext.LMConfig)
    (st : ModuleNode.state) : ModuleNode.state :=
  match globalLMConfig with
  | Some c => setModel (LMConfigContext.modelName c) st
  | None => st
  end.

(** What the body of an expanded server of the node shows.  The bodies are
    those of the servers of the list; for another url nothing is shown.
    When [hasTools] holds of an inherited member, the render calls its
    [map], which is not a function; and the checkbox of a tool reads
    [selectedTools[server]?.includes(tool.name)], which throws when the
    selection found is an inherited member. *)
Definition tools_view (st : ModuleNode.state) (server : jsstring) : ToolsView :=
  if bool_decide (server ∈ ModuleNode.mcpServers st) then
    if JS.read_truthy (ModuleNode.loadingTools st) server then ViewLoading
    else if hasTools (ModuleNode.availableTools st) server then
      match JS.read (ModuleNode.availableTools st) server with
      | JS.Own tools =>
          match JS.read (ModuleNode.selectedTools st) server with
          | JS.Inherited _ => ViewThrows
          | _ => ViewTools tools
          end
      | _ => ViewThrows
      end
    else ViewNothing
  else ViewNothing.

(** The render of the list of servers goes through: no expanded server
    throws. *)
Definition page_renders (collapsedServers : gmap jsstring bool)
    (st : ModuleNode.state) : bool :=
  forallb (λ server, isCollapsed collapsedServers server
                     || negb (view_throws (tools_view st server)))
          (ModuleNode.mcpServers st).

(** Whether the checkbox of the tool [toolName] of [server] is on the page:
    the node is a ReAct node in its edit form, the list renders, the server
    is expanded and shows its tools, and the tool is one of them. *)
Definition checkbox_shown (collapsedServers : gmap jsstring bool)
    (st : ModuleNode.state) (server toolName : jsstring) : bool :=
  ModuleNode.isEditing st
  && match ModuleNode.moduleType st with ReAct => true | _ => false end
  && page_renders collapsedServers st
  && negb (isCollapsed collapsedServers server)
  && match tools_view st server with
     | ViewTools tools => bool_decide (toolName ∈ name <$> tools)
     | _ => false
     end.

(** The user toggles the tool: the [onChange] of its checkbox runs, if the
    checkbox is there. *)
Definition checkbox_onChange (collapsedServers : gmap jsstring bool)
    (server toolName : jsstring) (st : ModuleNode.state)
    : JS.exn + ModuleNode.state :=
  if checkbox_shown collapsedServers st server toolName
  then ModuleNode.toggleToolSelection server toolName st
  else inr st.

End NodeForm.

(** A url as the two lists store it: not empty, and without white space at
    either end. *)
Definition trimmed (u : jsstring) : Prop := u ≠ [] ∧ JS.trim u = u.

(** A loading flag is only up while a request for the url is in flight. *)
Definition loading_in_flight (loadingTools : gmap jsstring bool)
    (requests : list jsstring) : Prop :=
  ∀ u, loadingTools !! u = Some true → u ∈ requests.

Definition modal_loading (st : LMConfigModal.state) : Prop :=
  loading_in_flight (LMConfigModal.loadingTools st) (LMConfigModal.requests st).

Definition node_loading (st : ModuleNode.state) : Prop :=
  loading_in_flight (ModuleNode.loadingTools st) (ModuleNode.requests st).

(** Every server of a list that was fetched has a loading flag of its own;
    the servers with the empty url are not fetched. *)
Definition flags_own (loadingTools : gmap jsstring bool)
    (urls : list jsstring) : Prop :=
  ∀ u, u ∈ urls → u = [] ∨ is_Some (loadingTools !! u).

Definition modal_flags (st : LMConfigModal.state) : Prop :=
  flags_own (LMConfigModal.loadingTools st) (LMConfigModal.urls st).

Definition node_flags (st : ModuleNode.state) : Prop :=
  flags_own (ModuleNode.loadingTools st) (ModuleNode.mcpServers st).

(* ===================================================================== *)
(** * JavaScript strings and arrays: basic facts *)
(* ===================================================================== *)

Lemma str_eq_true (a b : jsstring) : JS.str_eq a b = true ↔ a = b.
Proof. unfold JS.str_eq. apply bool_decide_eq_true. Qed.

Lemma str_eq_false (a b : jsstring) : JS.str_eq a b = false ↔ a ≠ b.
Proof. unfold JS.str_eq. apply bool_decide_eq_false. Qed.

Lemma str_eq_refl (a : jsstring) : JS.str_eq a a = true.
Proof. by apply str_eq_true. Qed.

Lemma includes_true (xs : list jsstring) (x : jsstring) :
  JS.includes xs x = true ↔ x ∈ xs.
Proof.
  unfold JS.includes. rewrite existsb_exists. split.
  - intros (y & Hy & Heq). apply str_eq_true in Heq. subst y.
    by apply list_elem_of_In.
  - intros Hx. exists x. split; [by apply list_elem_of_In | apply str_eq_refl].
Qed.

Lemma includes_false (xs : list jsstring) (x : jsstring) :
  JS.includes xs x = false ↔ x ∉ xs.
Proof.
  rewrite <- includes_true. destruct (JS.includes xs x); split; congruence.
Qed.

Lemma string_truthy_true (s : jsstring) : JS.string_truthy s = true ↔ s ≠ [].
Proof. destruct s; simpl; split; congruence. Qed.

Example trim_spaces : JS.trim (js "  http://a ") = js "http://a".
Proof. reflexivity. Qed.

Example trim_blank : JS.trim (js "   ") = [].
Proof. reflexivity. Qed.

Example trim_inner : JS.trim (js "a b") = js "a b".
Proof. reflexivity. Qed.

Example parse_stringify_config :
  let config :=
    LMConfigContext.GlobalConfig_value
      (Some (LMConfigContext.mkLMConfig (js "openai") (js "openai/gpt")))
      [LMConfigContext.mkMCPServer (js "http://a") [js "search"; js "fetch"]] in
  MiniJSON.parse (MiniJSON.stringify config) = inr config.
Proof. vm_compute. reflexivity. Qed.

Example parse_not_json : MiniJSON.parse (js "{oops") = inl JS.SyntaxError.
Proof. vm_compute. reflexivity. Qed.

(* ===================================================================== *)
(** * Saving a node: the snapshot of the global servers *)
(* ===================================================================== *)

Lemma snapshot_copies (st : ModuleNode.state)
    (globalMCPServers : list LMConfigContext.MCPServer) :
  ModuleNode.useGlobalMcpServers st = true →
  ModuleNode.snapshot st globalMCPServers = globalMCPServers.
Proof.
  intros Hg. unfold ModuleNode.snapshot. rewrite Hg.
  induction globalMCPServers as [|[u ts] gs IH]; csimpl; [done|].
  by rewrite IH.
Qed.

Lemma snapshot_cleared (st : ModuleNode.state)
    (globalMCPServers : list LMConfigContext.MCPServer) :
  ModuleNode.useGlobalMcpServers st = false →
  ModuleNode.snapshot st globalMCPServers = [].
Proof. intros Hg. unfold ModuleNode.snapshot. by rewrite Hg. Qed.

(** Every node [handleSave] leaves under the saved id carries the data of
    this save. *)
Lemma handleSave_data (id' : jsstring) (gs : list LMConfigContext.MCPServer)
    (st : ModuleNode.state) (nds : list Node) (node : Node) :
  node ∈ (ModuleNode.handleSave id' gs st nds).2 → id node = id' →
  ∃ old, data node = ModuleNode.nodeDataToSave st gs old.
Proof.
  simpl. intros Hin Hid. apply list_elem_of_fmap in Hin as (n0 & -> & _).
  destruct (JS.str_eq (id n0) id') eqn:E.
  - by exists (data n0).
  - apply str_eq_false in E. done.
Qed.

Lemma handleSave_other (id' : jsstring) (gs : list LMConfigContext.MCPServer)
    (st : ModuleNode.state) (nds : list Node) (node : Node) :
  node ∈ nds → id node ≠ id' → node ∈ (ModuleNode.handleSave id' gs st nds).2.
Proof.
  simpl. intros Hin Hid. apply list_elem_of_fmap. exists node. split; [|done].
  apply str_eq_false in Hid. by rewrite Hid.
Qed.

Lemma node_with_handleSave (id' : jsstring) (gs : list LMConfigContext.MCPServer)
    (st : ModuleNode.state) (nds : list Node) (node0 : Node) :
  App.node_with id' nds = Some node0 →
  App.node_with id' (ModuleNode.handleSave id' gs st nds).2 =
    Some {| id := id node0;
            data := ModuleNode.nodeDataToSave st gs (data node0) |}.
Proof.
  unfold App.node_with. simpl. induction nds as [|n nds IH]; simpl; [done|].
  destruct (JS.str_eq (id n) id') eqn:E; simpl.
  - rewrite E. by intros [= ->].
  - rewrite E. apply IH.
Qed.

(** The setters of the context do not touch the nodes. *)
Lemma mutate_global_nodes (JSON_stringify : JS.value → jsstring)
    (ms : list LMConfigContext.mutation) (app : App.state) :
  App.nodes (foldl (App.mutate_global JSON_stringify) app ms) = App.nodes app.
Proof.
  revert app. induction ms as [|m ms IH]; intros app; simpl; [done|].
  by rewrite IH.
Qed.

(** C2. Every node written by a save carries a non-empty
    [globalMcpServersSnapshot] only if the save was made with
    [useGlobalMcpServers] set; a save made with the flag cleared stores the
    empty snapshot, whatever the node held before; and the saved flag is the
    editor's. *)
Theorem saved_snapshot_only_with_use_global (id' : jsstring)
    (globalMCPServers : list LMConfigContext.MCPServer)
    (st : ModuleNode.state) (nds : list Node) (node : Node) :
  node ∈ (ModuleNode.handleSave id' globalMCPServers st nds).2 →
  id node = id' →
  (ModuleNodeData.globalMcpServersSnapshot (data node) ≠ [] →
     ModuleNode.useGlobalMcpServers st = true) ∧
  (ModuleNode.useGlobalMcpServers st = false →
     ModuleNodeData.globalMcpServersSnapshot (data node) = []) ∧
  ModuleNodeData.useGlobalMcpServers (data node) =
    ModuleNode.useGlobalMcpServers st.
Proof.
  intros Hin Hid.
  destruct (handleSave_data _ _ _ _ _ Hin Hid) as [old ->]. simpl.
  split; [|split; [apply snapshot_cleared | done]].
  intros Hne. destruct (ModuleNode.useGlobalMcpServers st) eqn:E; [done|].
  by rewrite snapshot_cleared in Hne.
Qed.

(** C1. A node saved with [useGlobalMcpServers] set stores the context's
    server list of that moment, entry by entry (url and selected tools).
    Whatever sequence of [setMCPServers] and [setGlobalLMConfig] follows, the
    node found under that id is the same, and so is anything computed from
    it, such as the resolved tool list. *)
Theorem snapshot_frozen (JSON_stringify : JS.value → jsstring)
    (app : App.state) (ed : ModuleNode.state) (id' : jsstring) (node0 : Node)
    (ms : list LMConfigContext.mutation) :
  ModuleNode.useGlobalMcpServers ed = true →
  App.node_with id' (App.nodes app) = Some node0 →
  ∃ node,
    App.node_with id' (App.nodes (App.save_node id' ed app)) = Some node ∧
    ModuleNodeData.globalMcpServersSnapshot (data node) =
      LMConfigContext.mcpServers (App.context app) ∧
    let app' := foldl (App.mutate_global JSON_stringify)
                      (App.save_node id' ed app) ms in
    App.node_with id' (App.nodes app') = Some node ∧
    ∀ (R : Type) (resolve : Node → R),
      resolve <$> App.node_with id' (App.nodes app') = Some (resolve node).
Proof.
  intros Hg Hnode. eexists. split; [|split].
  - unfold App.save_node. cbn [App.nodes]. by apply node_with_handleSave.
  - simpl. by apply snapshot_copies.
  - cbn zeta. rewrite mutate_global_nodes.
    unfold App.save_node. cbn [App.nodes].
    rewrite (node_with_handleSave _ _ _ _ _ Hnode). done.
Qed.

Lemma snapshot_frozen_witness :
  ∃ node,
    App.node_with (js "N")
      (App.nodes (App.save_node (js "N") (Scenario.editor true) Scenario.app))
      = Some node ∧
    ModuleNodeData.globalMcpServersSnapshot (data node) =
      LMConfigContext.mcpServers (App.context Scenario.app) ∧
    let app' :=
      foldl (App.mutate_global MiniJSON.stringify)
        (App.save_node (js "N") (Scenario.editor true) Scenario.app)
        [LMConfigContext.SetMCPServers [Scenario.server_a [js "fetch"]];
         LMConfigContext.SetGlobalLMConfig None] in
    App.node_with (js "N") (App.nodes app') = Some node ∧
    ∀ (R : Type) (resolve : Node → R),
      resolve <$> App.node_with (js "N") (App.nodes app') = Some (resolve node).
Proof.
  exact (snapshot_frozen MiniJSON.stringify Scenario.app (Scenario.editor true)
           (js "N") (Scenario.node_N false [])
           [LMConfigContext.SetMCPServers [Scenario.server_a [js "fetch"]];
            LMConfigContext.SetGlobalLMConfig None]
           eq_refl eq_refl).
Defined.

(** The scenario of the specification: the global selection moves from
    [search] to [fetch] after [N] was saved; [N] keeps [search]. *)
Example snapshot_frozen_scenario :
  let saved := App.save_node (js "N") (Scenario.editor true) Scenario.app in
  let later := App.mutate_global MiniJSON.stringify saved
                 (LMConfigContext.SetMCPServers [Scenario.server_a [js "fetch"]]) in
  LMConfigContext.mcpServers (App.context later) = [Scenario.server_a [js "fetch"]] ∧
  ModuleNodeData.globalMcpServersSnapshot <$>
    (data <$> App.node_with (js "N") (App.nodes later))
    = Some [Scenario.server_a [js "search"]].
Proof. split; reflexivity. Qed.

(** The same edit made in the modal: the catalog of [http://a] arrives,
    [search] is switched off and [fetch] on, and the servers tab is saved. *)
Example global_edit_scenario :
  let a := js "http://a" in
  let catalog := [mkTool (js "search") (js "web search");
                  mkTool (js "fetch") (js "get a page")] in
  let modal :=
    LMConfigModal.setActiveTab LMConfigModal.TabMCP
      (LMConfigModal.run
         [LMConfigModal.Settle a (ResponseOk catalog);
          LMConfigModal.Toggle a (js "search");
          LMConfigModal.Toggle a (js "fetch")]
         (LMConfigModal.load_servers
            (LMConfigContext.mcpServers Scenario.context) LMConfigModal.init)) in
  let saved := App.save_node (js "N") (Scenario.editor true) Scenario.app in
  let context' :=
    LMConfigModal.handleSave MiniJSON.stringify modal (App.context saved) in
  LMConfigContext.mcpServers context' = [Scenario.server_a [js "fetch"]] ∧
  LMConfigContext.load MiniJSON.parse (LMConfigContext.localStorage context')
    LMConfigContext.mount_init =
    JS.Normal tt (LMConfigContext.mounted (Some Scenario.lm)
                    [Scenario.server_a [js "fetch"]] []).
Proof. cbn zeta. split; vm_compute; reflexivity. Qed.

Lemma saved_snapshot_only_with_use_global_witness :
  let nds := [Scenario.node_M; Scenario.node_N true [Scenario.server_a [js "search"]]] in
  let saved := {| id := js "N";
                  data := ModuleNode.nodeDataToSave (Scenario.editor false)
                            [Scenario.server_a [js "search"]]
                            (data (Scenario.node_N true
                                     [Scenario.server_a [js "search"]])) |} in
  (ModuleNodeData.globalMcpServersSnapshot (data saved) ≠ [] →
     ModuleNode.useGlobalMcpServers (Scenario.editor false) = true) ∧
  (ModuleNode.useGlobalMcpServers (Scenario.editor false) = false →
     ModuleNodeData.globalMcpServersSnapshot (data saved) = []) ∧
  ModuleNodeData.useGlobalMcpServers (data saved) =
    ModuleNode.useGlobalMcpServers (Scenario.editor false).
Proof.
  cbn zeta.
  apply (saved_snapshot_only_with_use_global (js "N")
           [Scenario.server_a [js "search"]] (Scenario.editor false)
           [Scenario.node_M; Scenario.node_N true [Scenario.server_a [js "search"]]]).
  - apply list_elem_of_In. right. left. reflexivity.
  - reflexivity.
Defined.

(* ===================================================================== *)
(** * The persisted global configuration *)
(* ===================================================================== *)

Section Persistence.

Import LMConfigContext.

Variable JSON_parse : jsstring → JS.exn + JS.value.
Variable JSON_stringify : JS.value → jsstring.

Lemma LMConfig_value_inj (a b : option LMConfig) :
  LMConfig_value a = LMConfig_value b → a = b.
Proof. destruct a as [[]|], b as [[]|]; simpl; congruence. Qed.

Lemma MCPServer_value_inj (a b : MCPServer) :
  MCPServer_value a = MCPServer_value b → a = b.
Proof.
  destruct a as [u ts], b as [u' ts']. unfold MCPServer_value. simpl.
  intros [= -> Hts]. f_equal.
  assert (Inj (=) (=) JS.VStr) by (by intros ?? [=]).
  by apply (inj (fmap JS.VStr)).
Qed.

Lemma MCPServers_value_inj (a b : list MCPServer) :
  MCPServers_value a = MCPServers_value b → a = b.
Proof.
  unfold MCPServers_value. intros [= H].
  assert (Inj (=) (=) MCPServer_value)
    by (intros x y; apply MCPServer_value_inj).
  by apply (inj (fmap MCPServer_value)).
Qed.

Lemma mounted_inj lm servers log lm' servers' log' :
  mounted lm servers log = mounted lm' servers' log' →
  lm = lm' ∧ servers = servers' ∧ log = log'.
Proof.
  intros H.
  pose proof (f_equal m_globalLMConfig H) as Hlm.
  pose proof (f_equal m_mcpServers H) as Hs.
  pose proof (f_equal m_console H) as Hlog. simpl in Hlm, Hs, Hlog.
  split; [by apply LMConfig_value_inj |].
  split; [by apply MCPServers_value_inj | done].
Qed.

Lemma or_LMConfig_value (lm : option LMConfig) :
  JS.or (LMConfig_value lm) JS.VNull = LMConfig_value lm.
Proof. by destruct lm. Qed.

Lemma or_MCPServers_value (servers : list MCPServer) :
  JS.or (MCPServers_value servers) (JS.VArr []) = MCPServers_value servers.
Proof. done. Qed.

(** What [load] does, case by case on the stored text and on what
    [JSON.parse] makes of it. *)
Lemma load_absent storage st :
  storage !! GLOBAL_CONFIG_STORAGE_KEY = None →
  load JSON_parse storage st = JS.Normal tt st.
Proof. unfold load. by intros ->. Qed.

Lemma load_empty storage st :
  storage !! GLOBAL_CONFIG_STORAGE_KEY = Some [] →
  load JSON_parse storage st = JS.Normal tt st.
Proof. unfold load. by intros ->. Qed.

Lemma load_unparsable storage st text e :
  storage !! GLOBAL_CONFIG_STORAGE_KEY = Some text → text ≠ [] →
  JSON_parse text = inl e →
  load JSON_parse storage st =
    JS.Normal tt {| m_globalLMConfig := m_globalLMConfig st;
                    m_mcpServers := m_mcpServers st;
                    m_console := m_console st ++ [e] |}.
Proof.
  unfold load. intros -> Hne Hp. apply string_truthy_true in Hne. rewrite Hne.
  unfold JS.try_catch, mbind, stmt_bind, JS.bind, JS.lift. by rewrite Hp.
Qed.

Lemma load_null storage st text v :
  storage !! GLOBAL_CONFIG_STORAGE_KEY = Some text → text ≠ [] →
  JSON_parse text = inr v → v = JS.VNull ∨ v = JS.VUndefined →
  load JSON_parse storage st =
    JS.Normal tt {| m_globalLMConfig := m_globalLMConfig st;
                    m_mcpServers := m_mcpServers st;
                    m_console := m_console st ++ [JS.TypeError] |}.
Proof.
  unfold load. intros -> Hne Hp Hv. apply string_truthy_true in Hne. rewrite Hne.
  unfold JS.try_catch, mbind, stmt_bind, JS.bind, JS.lift. rewrite Hp.
  by destruct Hv as [-> | ->].
Qed.

Lemma load_parsed storage st text v lm servers :
  storage !! GLOBAL_CONFIG_STORAGE_KEY = Some text → text ≠ [] →
  JSON_parse text = inr v →
  JS.get v (js "lmConfig") = inr lm →
  JS.get v (js "mcpServers") = inr servers →
  load JSON_parse storage st =
    JS.Normal tt {| m_globalLMConfig := JS.or lm JS.VNull;
                    m_mcpServers := JS.or servers (JS.VArr []);
                    m_console := m_console st |}.
Proof.
  unfold load. intros -> Hne Hp Hlm Hs. apply string_truthy_true in Hne.
  rewrite Hne.
  unfold JS.try_catch, mbind, stmt_bind, JS.bind, JS.lift. rewrite Hp, Hlm.
  unfold setGlobalLMConfigState, JS.modify. rewrite Hs. done.
Qed.

End Persistence.

(** C8, as the code has it.  The mount effect never throws, whatever is
    stored under the key and whatever [JSON.parse] makes of it.  With
    nothing stored, with the empty text, with a text [JSON.parse] rejects,
    or with a JSON value that is not an object, the provider keeps its
    initial configuration, [null] and the empty server list (a rejection is
    only logged).  With a JSON object, each of [lmConfig] and [mcpServers]
    that is missing or falsy gets its default, and one that is there is
    stored as it was parsed, whatever it is: the configuration is one of the
    type when the fields that are there are of their types. *)
Theorem load_never_fails (JSON_parse : jsstring → JS.exn + JS.value)
    (storage : gmap jsstring jsstring) :
  let stored := storage !! LMConfigContext.GLOBAL_CONFIG_STORAGE_KEY in
  ∃ st',
    LMConfigContext.load JSON_parse storage LMConfigContext.mount_init
      = JS.Normal tt st' ∧
    (stored = None ∨ stored = Some [] →
       st' = LMConfigContext.mounted None [] []) ∧
    (∀ text e, stored = Some text → JSON_parse text = inl e →
       ∃ log, st' = LMConfigContext.mounted None [] log) ∧
    (∀ text v, stored = Some text → JSON_parse text = inr v →
       JS.is_object v = false →
       ∃ log, st' = LMConfigContext.mounted None [] log) ∧
    (∀ text fields,
       stored = Some text → text ≠ [] → JSON_parse text = inr (JS.VObj fields) →
       st' =
         {| LMConfigContext.m_globalLMConfig :=
              JS.or (JS.own_property (js "lmConfig") fields) JS.VNull;
            LMConfigContext.m_mcpServers :=
              JS.or (JS.own_property (js "mcpServers") fields) (JS.VArr []);
            LMConfigContext.m_console := [] |}) ∧
    (∀ text v lm servers,
       stored = Some text → text ≠ [] → JSON_parse text = inr v →
       LMConfigContext.missing_fields v lm servers →
       st' = LMConfigContext.mounted lm servers []).
Proof.
  intros stored. subst stored.
  destruct (storage !! LMConfigContext.GLOBAL_CONFIG_STORAGE_KEY)
    as [text|] eqn:Hst.
  2:{ eexists. split; [by apply load_absent|].
      split; [done|]. repeat split; intros; done. }
  destruct text as [|c text].
  { eexists. split; [by apply load_empty|].
    split; [done|]. split; [|split; [|split]];
      [..|by intros ???? [= <-]].
    - intros ?? _ _. by exists [].
    - intros ?? _ _ _. by exists [].
    - by intros ?? [= <-]. }
  destruct (JSON_parse (c :: text)) as [e|v] eqn:Hp.
  { eexists. split; [by eapply load_unparsable|].
    split; [by intros [|]|]. split; [|split; [|split]].
    - intros ?? _ _. by eexists.
    - intros ?? [= <-]. congruence.
    - intros ?? [= <-]. congruence.
    - intros ???? [= <-]. congruence. }
  destruct (JS.get v (js "lmConfig")) as [e|lmv] eqn:Hlm.
  { eexists. split.
    - eapply load_null; [done..|]. destruct v; simpl in Hlm; auto; done.
    - split; [by intros [|]|]. split; [|split; [|split]].
      + intros ?? [= <-]. congruence.
      + intros ?? _ _ _. by eexists.
      + intros ?? [= <-] _ Hp'. rewrite Hp in Hp'. injection Hp' as ->. done.
      + intros ???? [= <-] _ Hp' (fields & -> & _).
        rewrite Hp in Hp'. injection Hp' as ->. done. }
  destruct (JS.get v (js "mcpServers")) as [e|sv] eqn:Hs.
  { destruct v; simpl in Hlm, Hs; done. }
  eexists. split; [by eapply load_parsed|].
  split; [by intros [|]|]. split; [|split; [|split]].
  - intros ?? [= <-]. congruence.
  - intros text' v' [= <-] Hp' Hobj. rewrite Hp in Hp'. injection Hp' as <-.
    exists []. destruct v; simpl in Hlm, Hs, Hobj; try discriminate;
      injection Hlm as <-; injection Hs as <-; reflexivity.
  - intros text' fields [= <-] _ Hp'. rewrite Hp in Hp'. injection Hp' as ->.
    simpl in Hlm, Hs. injection Hlm as <-. injection Hs as <-. done.
  - intros text' v' lm servers [= <-] _ Hp' (fields & -> & Hl & Hm).
    rewrite Hp in Hp'. injection Hp' as ->. simpl in Hlm, Hs.
    injection Hlm as <-. injection Hs as <-.
    unfold LMConfigContext.mounted, LMConfigContext.mount_init. simpl.
    f_equal.
    + destruct Hl as [[-> ->] | ->]; [done | apply or_LMConfig_value].
    + destruct Hm as [[-> ->] | ->]; [done | apply or_MCPServers_value].
Qed.

(** The configuration loaded from a JSON text that misses fields need not
    be one of the type.  From the text of an object whose only server has no
    [selectedTools], the server list loaded holds that object; from the text
    of an object whose [mcpServers] is a number, the server list loaded is
    that number.  Neither is the value of a list of servers. *)
Lemma load_ill_formed_counterexample :
  let key := LMConfigContext.GLOBAL_CONFIG_STORAGE_KEY in
  let no_selection :=
    JS.VObj [(js "mcpServers",
              JS.VArr [JS.VObj [(js "url", JS.VStr (js "http://a"))]])] in
  let number := JS.VObj [(js "mcpServers", JS.VNum true)] in
  let load config :=
    LMConfigContext.load MiniJSON.parse {[ key := MiniJSON.stringify config ]}
      LMConfigContext.mount_init in
  (∃ st', load no_selection = JS.Normal tt st' ∧
          LMConfigContext.m_mcpServers st' =
            JS.VArr [JS.VObj [(js "url", JS.VStr (js "http://a"))]] ∧
          ∀ lm servers log, st' ≠ LMConfigContext.mounted lm servers log) ∧
  (∃ st', load number = JS.Normal tt st' ∧
          LMConfigContext.m_mcpServers st' = JS.VNum true ∧
          ∀ lm servers log, st' ≠ LMConfigContext.mounted lm servers log).
Proof.
  cbn zeta. split.
  - eexists. split; [vm_compute; reflexivity|]. split; [reflexivity|].
    intros lm servers log H.
    apply (f_equal LMConfigContext.m_mcpServers) in H.
    cbn [LMConfigContext.m_mcpServers LMConfigContext.mounted] in H.
    unfold LMConfigContext.MCPServers_value in H.
    destruct servers as [|s servers]; [discriminate H|].
    csimpl in H. unfold LMConfigContext.MCPServer_value in H.
    discriminate H.
  - eexists. split; [vm_compute; reflexivity|]. split; [reflexivity|].
    intros lm servers log H.
    apply (f_equal LMConfigContext.m_mcpServers) in H.
    discriminate H.
Qed.

(** With the reader of [MiniJSON]: a text that is not JSON, the JSON text
    [null], and an object that only holds the servers. *)
Example load_examples :
  let key := LMConfigContext.GLOBAL_CONFIG_STORAGE_KEY in
  let load text :=
    LMConfigContext.load MiniJSON.parse {[ key := text ]}
      LMConfigContext.mount_init in
  load (js "{oops") =
    JS.Normal tt (LMConfigContext.mounted None [] [JS.SyntaxError]) ∧
  load (js "null") =
    JS.Normal tt (LMConfigContext.mounted None [] [JS.TypeError]) ∧
  load (MiniJSON.stringify
          (JS.VObj [(js "mcpServers",
                     LMConfigContext.MCPServers_value
                       [Scenario.server_a [js "search"]])])) =
    JS.Normal tt (LMConfigContext.mounted None [Scenario.server_a [js "search"]] []).
Proof. cbn zeta. repeat split; vm_compute; reflexivity. Qed.

(** C9. When [JSON.parse] reads the text [JSON.stringify] printed for a
    configuration back as that configuration (and the text is not empty),
    [saveGlobalConfig] followed by the mount effect on the same storage
    yields exactly the saved [lmConfig] and [mcpServers]. *)
Theorem save_load_round_trip (JSON_parse : jsstring → JS.exn + JS.value)
    (JSON_stringify : JS.value → jsstring)
    (lmConfig : option LMConfigContext.LMConfig)
    (servers : list LMConfigContext.MCPServer) (st : LMConfigContext.state) :
  let config := LMConfigContext.GlobalConfig_value lmConfig servers in
  JSON_parse (JSON_stringify config) = inr config →
  JSON_stringify config ≠ [] →
  let st' := LMConfigContext.mounted lmConfig servers [] in
  LMConfigContext.load JSON_parse
    (LMConfigContext.localStorage
       (LMConfigContext.saveGlobalConfig JSON_stringify lmConfig servers st))
    LMConfigContext.mount_init = JS.Normal tt st' ∧
  ∀ lmConfig' servers' log,
    st' = LMConfigContext.mounted lmConfig' servers' log →
    lmConfig' = lmConfig ∧ servers' = servers.
Proof.
  intros config Hp Hne st'. split.
  - rewrite (load_parsed JSON_parse _ _ (JSON_stringify config) config
               (LMConfigContext.LMConfig_value lmConfig)
               (LMConfigContext.MCPServers_value servers));
      [| simpl; apply lookup_insert_eq | done..].
    by rewrite or_LMConfig_value, or_MCPServers_value.
  - intros lm' servers' log H. symmetry in H.
    apply mounted_inj in H as (-> & -> & _). done.
Qed.

Lemma save_load_round_trip_witness :
  let lmConfig := Some Scenario.lm in
  let servers := [Scenario.server_a [js "search"; js "fetch"]] in
  let st' := LMConfigContext.mounted lmConfig servers [] in
  LMConfigContext.load MiniJSON.parse
    (LMConfigContext.localStorage
       (LMConfigContext.saveGlobalConfig MiniJSON.stringify lmConfig servers
          Scenario.context))
    LMConfigContext.mount_init = JS.Normal tt st' ∧
  ∀ lmConfig' servers' log,
    st' = LMConfigContext.mounted lmConfig' servers' log →
    lmConfig' = lmConfig ∧ servers' = servers.
Proof.
  cbn zeta.
  apply (save_load_round_trip MiniJSON.parse MiniJSON.stringify
           (Some Scenario.lm) [Scenario.server_a [js "search"; js "fetch"]]
           Scenario.context).
  - vm_compute. reflexivity.
  - vm_compute. discriminate.
Defined.

(** C10. [setGlobalLMConfig c] stores under the key the text of the object
    whose [mcpServers] is the server list in memory, and leaves that list as
    it is; [setMCPServers s] stores the text of the object whose [lmConfig]
    is the LM configuration in memory, and leaves that configuration as it
    is.  No other key of the storage changes. *)
Theorem setters_frame (JSON_stringify : JS.value → jsstring)
    (st : LMConfigContext.state) (c : option LMConfigContext.LMConfig)
    (s : list LMConfigContext.MCPServer) :
  let key := LMConfigContext.GLOBAL_CONFIG_STORAGE_KEY in
  let st1 := LMConfigContext.setGlobalLMConfig JSON_stringify c st in
  let st2 := LMConfigContext.setMCPServers JSON_stringify s st in
  (∃ config,
     LMConfigContext.localStorage st1 !! key = Some (JSON_stringify config) ∧
     JS.get config (js "mcpServers") =
       inr (LMConfigContext.MCPServers_value (LMConfigContext.mcpServers st)) ∧
     JS.get config (js "lmConfig") = inr (LMConfigContext.LMConfig_value c)) ∧
  LMConfigContext.mcpServers st1 = LMConfigContext.mcpServers st ∧
  LMConfigContext.globalLMConfig st1 = c ∧
  (∃ config,
     LMConfigContext.localStorage st2 !! key = Some (JSON_stringify config) ∧
     JS.get config (js "lmConfig") =
       inr (LMConfigContext.LMConfig_value (LMConfigContext.globalLMConfig st)) ∧
     JS.get config (js "mcpServers") = inr (LMConfigContext.MCPServers_value s)) ∧
  LMConfigContext.globalLMConfig st2 = LMConfigContext.globalLMConfig st ∧
  LMConfigContext.mcpServers st2 = s ∧
  ∀ k, k ≠ key →
    LMConfigContext.localStorage st1 !! k = LMConfigContext.localStorage st !! k ∧
    LMConfigContext.localStorage st2 !! k = LMConfigContext.localStorage st !! k.
Proof.
  intros key st1 st2. repeat split; try done.
  - eexists. split; [apply lookup_insert_eq|]. split; reflexivity.
  - eexists. split; [apply lookup_insert_eq|]. split; reflexivity.
  - simpl. by apply lookup_insert_ne.
  - simpl. by apply lookup_insert_ne.
Qed.

(* ===================================================================== *)
(** * The list of urls under a sequence of events *)
(* ===================================================================== *)

Section ServerListFacts.

Context {E : Type} (change_of : E → ServerList.change).

#[local] Abbreviation track := (ServerList.track change_of).

Lemma track_snoc (evs : list E) (e : E) :
  track (evs ++ [e]) = ServerList.apply (track evs) (change_of e).
Proof. unfold ServerList.track. by rewrite foldl_app. Qed.

Lemma apply_NoDup (us : list jsstring) (c : ServerList.change) :
  NoDup us → NoDup (ServerList.apply us c).
Proof.
  intros Hnd. destruct c as [raw|u|]; simpl; [| by apply NoDup_filter | done].
  destruct (JS.string_truthy (JS.trim raw)); simpl; [|done].
  destruct (JS.includes us (JS.trim raw)) eqn:Hin; simpl; [done|].
  apply includes_false in Hin. apply NoDup_app. split; [done|].
  split; [|apply NoDup_singleton].
  intros x Hx Hx'. apply list_elem_of_singleton in Hx'. by subst x.
Qed.

Lemma apply_elem_of (us : list jsstring) (c : ServerList.change) (u : jsstring) :
  u ∈ ServerList.apply us c ↔
    match c with
    | ServerList.Added raw => u ∈ us ∨ (JS.trim raw = u ∧ u ≠ [])
    | ServerList.Removed v => u ∈ us ∧ u ≠ v
    | ServerList.Unchanged => u ∈ us
    end.
Proof.
  destruct c as [raw|v|]; simpl;
    [| rewrite list_elem_of_filter; tauto | done].
  - destruct (JS.string_truthy (JS.trim raw)) eqn:Ht; simpl.
    + apply string_truthy_true in Ht.
      destruct (JS.includes us (JS.trim raw)) eqn:Hin; simpl.
      * apply includes_true in Hin. split; [by left|].
        intros [Hu | [<- _]]; done.
      * rewrite elem_of_app, list_elem_of_singleton. split.
        -- intros [Hu | ->]; [by left | by right].
        -- intros [Hu | [<- _]]; [by left | by right].
    + assert (JS.trim raw = []) as Hnil.
      { destruct (JS.trim raw); [done | discriminate]. }
      split; [by left|]. intros [Hu | [Heq Hne]]; [done|]. congruence.
Qed.

Lemma snoc_split (pre post evs : list E) (e0 e : E) :
  pre ++ e0 :: post = evs ++ [e] →
  (post = [] ∧ pre = evs ∧ e0 = e) ∨
  (∃ post', post = post' ++ [e] ∧ evs = pre ++ e0 :: post').
Proof.
  destruct post as [|x post _] using rev_ind; intros H.
  - left. apply app_inj_tail in H as [-> ->]. done.
  - right. exists post.
    replace (pre ++ e0 :: post ++ [x]) with ((pre ++ e0 :: post) ++ [x]) in H
      by (by rewrite <- app_assoc).
    apply app_inj_tail in H as [<- ->]. done.
Qed.

Lemma track_NoDup (evs : list E) : NoDup (track evs).
Proof.
  induction evs as [|e evs IH] using rev_ind; [apply NoDup_nil_2|].
  rewrite track_snoc. by apply apply_NoDup.
Qed.

Lemma track_elem_of (evs : list E) (u : jsstring) :
  u ∈ track evs ↔ ServerList.added_and_kept change_of evs u.
Proof.
  induction evs as [|e evs IH] using rev_ind.
  - split; [by intros ?%elem_of_nil|].
    intros (pre & e & post & raw & H & _). by destruct pre.
  - rewrite track_snoc, apply_elem_of. unfold ServerList.added_and_kept.
    split.
    + intros H.
      assert (u ∈ track evs → change_of e ≠ ServerList.Removed u →
              ∃ pre e0 post raw,
                evs ++ [e] = pre ++ e0 :: post ∧
                change_of e0 = ServerList.Added raw ∧ JS.trim raw = u ∧
                u ≠ [] ∧ ∀ e', e' ∈ post → change_of e' ≠ ServerList.Removed u)
        as Hkeep.
      { intros Hu Hne. apply IH in Hu as (pre & e0 & post & raw & -> & ? & ? & ? & Hpost).
        exists pre, e0, (post ++ [e]), raw.
        split; [by rewrite <- app_assoc|]. do 3 (split; [done|]).
        intros e' [He' | ->%list_elem_of_singleton]%elem_of_app; auto. }
      destruct (change_of e) as [raw|v|] eqn:Hc.
      * destruct H as [Hu|[Ht Hne]]; [by apply Hkeep|].
        exists evs, e, [], raw. do 4 (split; [done|]).
        by intros e' ?%elem_of_nil.
      * destruct H as [Hu Hne]. apply Hkeep; [done|]. congruence.
      * by apply Hkeep.
    + intros (pre & e0 & post & raw & Hsplit & Hadd & Ht & Hne & Hpost).
      symmetry in Hsplit.
      apply snoc_split in Hsplit as [(-> & -> & ->)|(post' & -> & ->)].
      * rewrite Hadd. by right.
      * assert (u ∈ track (pre ++ e0 :: post')) as Hu.
        { apply IH. exists pre, e0, post', raw. do 4 (split; [done|]).
          intros e' He'. apply Hpost, elem_of_app. by left. }
        assert (change_of e ≠ ServerList.Removed u) as Hrm.
        { apply Hpost, elem_of_app. right. by apply list_elem_of_singleton. }
        destruct (change_of e) as [raw'|v|]; [by left | | done].
        split; [done|]. congruence.
Qed.

End ServerListFacts.

(* ===================================================================== *)
(** * The two scopes follow [ServerList] *)
(* ===================================================================== *)

Lemma filter_fmap_url {A : Type} (f : A → jsstring) (u : jsstring) (l : list A) :
  f <$> filter (λ s, f s ≠ u) l = filter (λ s, s ≠ u) (f <$> l).
Proof.
  induction l as [|x l IH]; csimpl; [done|].
  rewrite !filter_cons. destruct (decide (f x ≠ u)); csimpl; by rewrite IH.
Qed.

Lemma existsb_url (u : jsstring) (l : list LMConfigContext.MCPServer) :
  existsb (λ s, JS.str_eq (LMConfigContext.url s) u) l =
    JS.includes (LMConfigContext.url <$> l) u.
Proof.
  unfold JS.includes. induction l as [|x l IH]; csimpl; [done|].
  rewrite IH. f_equal. unfold JS.str_eq.
  apply bool_decide_ext. split; congruence.
Qed.

Lemma modal_already_present (st : LMConfigModal.state) :
  LMConfigModal.already_present st =
    JS.includes (LMConfigModal.urls st) (JS.trim (LMConfigModal.newServerUrl st)).
Proof. apply existsb_url. Qed.

(** Starting a fetch touches the loading flags and the requests only. *)
Lemma modal_fetch_frame (u : jsstring) (st : LMConfigModal.state) :
  let st' := LMConfigModal.fetchToolsForServer u st in
  LMConfigModal.selectedProvider st' = LMConfigModal.selectedProvider st ∧
  LMConfigModal.modelName st' = LMConfigModal.modelName st ∧
  LMConfigModal.activeTab st' = LMConfigModal.activeTab st ∧
  LMConfigModal.newServerUrl st' = LMConfigModal.newServerUrl st ∧
  LMConfigModal.availableTools st' = LMConfigModal.availableTools st ∧
  LMConfigModal.localMCPServers st' = LMConfigModal.localMCPServers st.
Proof.
  unfold LMConfigModal.fetchToolsForServer.
  by destruct (JS.isWellFormed u).
Qed.

Lemma modal_fetch_servers (u : jsstring) (st : LMConfigModal.state) :
  LMConfigModal.localMCPServers (LMConfigModal.fetchToolsForServer u st) =
    LMConfigModal.localMCPServers st.
Proof. apply modal_fetch_frame. Qed.

Lemma modal_fetch_urls (u : jsstring) (st : LMConfigModal.state) :
  LMConfigModal.urls (LMConfigModal.fetchToolsForServer u st) =
    LMConfigModal.urls st.
Proof. unfold LMConfigModal.urls. by rewrite modal_fetch_servers. Qed.


(** After the start of a fetch the flag of the url tells whether a request
    went out. *)
Lemma modal_fetch_loading_flag (u : jsstring) (st : LMConfigModal.state) :
  LMConfigModal.loadingTools (LMConfigModal.fetchToolsForServer u st) =
    <[u := JS.isWellFormed u]> (LMConfigModal.loadingTools st).
Proof.
  unfold LMConfigModal.fetchToolsForServer.
  destruct (JS.isWellFormed u); simpl; [done|]. apply insert_insert_eq.
Qed.

Lemma modal_fetch_requests (u : jsstring) (st : LMConfigModal.state) :
  LMConfigModal.requests (LMConfigModal.fetchToolsForServer u st) =
    LMConfigModal.requests st ++ (if JS.isWellFormed u then [u] else []).
Proof.
  unfold LMConfigModal.fetchToolsForServer.
  destruct (JS.isWellFormed u); simpl; [done|]. by rewrite app_nil_r.
Qed.

Lemma node_fetch_frame (u : jsstring) (st : ModuleNode.state) :
  let st' := ModuleNode.fetchToolsForServer u st in
  ModuleNode.isEditing st' = ModuleNode.isEditing st ∧
  ModuleNode.nodeLabel st' = ModuleNode.nodeLabel st ∧
  ModuleNode.moduleType st' = ModuleNode.moduleType st ∧
  ModuleNode.model st' = ModuleNode.model st ∧
  ModuleNode.instruction st' = ModuleNode.instruction st ∧
  ModuleNode.parameters st' = ModuleNode.parameters st ∧
  ModuleNode.mcpServers st' = ModuleNode.mcpServers st ∧
  ModuleNode.maxIters st' = ModuleNode.maxIters st ∧
  ModuleNode.useGlobalMcpServers st' = ModuleNode.useGlobalMcpServers st ∧
  ModuleNode.selectedTools st' = ModuleNode.selectedTools st ∧
  ModuleNode.availableTools st' = ModuleNode.availableTools st ∧
  ModuleNode.newMcpServer st' = ModuleNode.newMcpServer st.
Proof.
  unfold ModuleNode.fetchToolsForServer.
  by destruct (JS.isWellFormed u).
Qed.

Lemma node_fetch_servers (u : jsstring) (st : ModuleNode.state) :
  ModuleNode.mcpServers (ModuleNode.fetchToolsForServer u st) =
    ModuleNode.mcpServers st.
Proof. apply node_fetch_frame. Qed.



Lemma node_fetch_loading_flag (u : jsstring) (st : ModuleNode.state) :
  ModuleNode.loadingTools (ModuleNode.fetchToolsForServer u st) =
    <[u := JS.isWellFormed u]> (ModuleNode.loadingTools st).
Proof.
  unfold ModuleNode.fetchToolsForServer.
  destruct (JS.isWellFormed u); simpl; [done|]. apply insert_insert_eq.
Qed.

Lemma node_fetch_requests (u : jsstring) (st : ModuleNode.state) :
  ModuleNode.requests (ModuleNode.fetchToolsForServer u st) =
    ModuleNode.requests st ++ (if JS.isWellFormed u then [u] else []).
Proof.
  unfold ModuleNode.fetchToolsForServer.
  destruct (JS.isWellFormed u); simpl; [done|]. by rewrite app_nil_r.
Qed.

(** A toggle of the node leaves all but the selections as they are, also
    when its updater throws. *)
Lemma node_toggle_absorb_frame (u t : jsstring) (st : ModuleNode.state) :
  let st' := JS.absorb (ModuleNode.toggleToolSelection u t st) st in
  ModuleNode.mcpServers st' = ModuleNode.mcpServers st ∧
  ModuleNode.availableTools st' = ModuleNode.availableTools st ∧
  ModuleNode.loadingTools st' = ModuleNode.loadingTools st ∧
  ModuleNode.requests st' = ModuleNode.requests st ∧
  ModuleNode.useGlobalMcpServers st' = ModuleNode.useGlobalMcpServers st.
Proof.
  unfold ModuleNode.toggleToolSelection.
  by destruct (JS.read (ModuleNode.selectedTools st) u).
Qed.

Lemma modal_addServer_urls (raw : jsstring) (st : LMConfigModal.state) :
  LMConfigModal.urls (LMConfigModal.addServer raw st) =
    ServerList.apply (LMConfigModal.urls st) (ServerList.Added raw).
Proof.
  unfold LMConfigModal.addServer, LMConfigModal.addMCPServer.
  rewrite modal_already_present. simpl.
  change (LMConfigModal.urls (LMConfigModal.setNewServerUrl raw st))
    with (LMConfigModal.urls st).
  destruct (JS.string_truthy (JS.trim raw)); simpl; [|done].
  destruct (JS.includes (LMConfigModal.urls st) (JS.trim raw)); simpl; [done|].
  rewrite modal_fetch_urls.
  unfold LMConfigModal.urls. simpl. by rewrite fmap_app.
Qed.

Lemma modal_settled_servers (u : jsstring) (r : Settled) (st : LMConfigModal.state) :
  LMConfigModal.localMCPServers (LMConfigModal.fetchToolsForServer_settled u r st)
    = LMConfigModal.localMCPServers st.
Proof.
  unfold LMConfigModal.fetchToolsForServer_settled.
  case_bool_decide; [|done]. by destruct r.
Qed.

Lemma fmap_url_keep (f : LMConfigContext.MCPServer → LMConfigContext.MCPServer)
    (l : list LMConfigContext.MCPServer) :
  (∀ s, LMConfigContext.url (f s) = LMConfigContext.url s) →
  LMConfigContext.url <$> (f <$> l) = LMConfigContext.url <$> l.
Proof.
  intros Hf. rewrite <- list_fmap_compose. apply list_fmap_ext.
  intros i s _. apply Hf.
Qed.

Lemma modal_step_urls (st : LMConfigModal.state) (e : LMConfigModal.event) :
  LMConfigModal.urls (LMConfigModal.step st e) =
    ServerList.apply (LMConfigModal.urls st) (modal_change e).
Proof.
  destruct e as [raw|u|u r|u t|u|u]; cbn [LMConfigModal.step modal_change].
  - apply modal_addServer_urls.
  - unfold LMConfigModal.urls. simpl. apply filter_fmap_url.
  - unfold LMConfigModal.urls. by rewrite modal_settled_servers.
  - unfold LMConfigModal.urls. simpl. apply fmap_url_keep.
    intros s. by destruct (JS.str_eq _ _).
  - unfold LMConfigModal.urls. simpl. apply fmap_url_keep.
    intros s. by destruct (JS.str_eq _ _).
  - unfold LMConfigModal.urls. simpl. apply fmap_url_keep.
    intros s. by destruct (JS.str_eq _ _).
Qed.

Lemma modal_run_urls (evs : list LMConfigModal.event) (st : LMConfigModal.state) :
  LMConfigModal.urls (LMConfigModal.run evs st) =
    foldl (λ us e, ServerList.apply us (modal_change e)) (LMConfigModal.urls st) evs.
Proof.
  unfold LMConfigModal.run. revert st.
  induction evs as [|e evs IH]; intros st; simpl; [done|].
  by rewrite IH, modal_step_urls.
Qed.

Lemma node_addServer_servers (raw : jsstring) (st : ModuleNode.state) :
  ModuleNode.mcpServers (ModuleNode.addServer raw st) =
    ServerList.apply (ModuleNode.mcpServers st) (ServerList.Added raw).
Proof.
  unfold ModuleNode.addServer, ModuleNode.addMcpServer, ModuleNode.already_present.
  simpl.
  destruct (JS.string_truthy (JS.trim raw)); simpl; [|done].
  destruct (JS.includes (ModuleNode.mcpServers st) (JS.trim raw)); simpl; [done|].
  by rewrite node_fetch_servers.
Qed.

Lemma node_settled_servers (u : jsstring) (r : Settled) (st : ModuleNode.state) :
  ModuleNode.mcpServers (ModuleNode.fetchToolsForServer_settled u r st)
    = ModuleNode.mcpServers st.
Proof.
  unfold ModuleNode.fetchToolsForServer_settled.
  case_bool_decide; [|done]. by destruct r.
Qed.

Lemma node_step_servers (st : ModuleNode.state) (e : ModuleNode.event) :
  ModuleNode.mcpServers (ModuleNode.step st e) =
    ServerList.apply (ModuleNode.mcpServers st) (node_change e).
Proof.
  destruct e as [raw|u|u r|u t|b]; cbn [ModuleNode.step node_change]; try done.
  - apply node_addServer_servers.
  - apply node_settled_servers.
  - apply node_toggle_absorb_frame.
Qed.

Lemma node_run_servers (evs : list ModuleNode.event) (st : ModuleNode.state) :
  ModuleNode.mcpServers (ModuleNode.run evs st) =
    foldl (λ us e, ServerList.apply us (node_change e)) (ModuleNode.mcpServers st) evs.
Proof.
  unfold ModuleNode.run. revert st.
  induction evs as [|e evs IH]; intros st; simpl; [done|].
  by rewrite IH, node_step_servers.
Qed.

(** An url that is in the list stays there until an event removes it. *)
Lemma apply_keeps (us : list jsstring) (cs : list ServerList.change) (u : jsstring) :
  u ∈ us → ServerList.Removed u ∉ cs → u ∈ foldl ServerList.apply us cs.
Proof.
  revert us. induction cs as [|c cs IH]; intros us Hu Hcs; simpl; [done|].
  apply IH.
  - apply apply_elem_of. destruct c as [raw|v|]; [by left | | done].
    split; [done|]. intros ->. apply Hcs. by left.
  - intros H. apply Hcs. by right.
Qed.

Lemma foldl_change {E : Type} (change_of : E → ServerList.change)
    (us : list jsstring) (evs : list E) :
  foldl (λ us e, ServerList.apply us (change_of e)) us evs =
    foldl ServerList.apply us (change_of <$> evs).
Proof. revert us. induction evs as [|e evs IH]; intros us; csimpl; [done|]. apply IH. Qed.

Lemma modal_change_removed (e : LMConfigModal.event) (u : jsstring) :
  modal_change e = ServerList.Removed u ↔ e = LMConfigModal.RemoveServer u.
Proof. destruct e; simpl; split; congruence. Qed.

Lemma node_change_removed (e : ModuleNode.event) (u : jsstring) :
  node_change e = ServerList.Removed u ↔ e = ModuleNode.RemoveServer u.
Proof. destruct e; simpl; split; congruence. Qed.

Lemma modal_added_and_kept_iff (evs : list LMConfigModal.event) (u : jsstring) :
  ServerList.added_and_kept modal_change evs u ↔ modal_added_and_kept evs u.
Proof.
  split.
  - intros (pre & e & post & raw & -> & Hc & Ht & Hne & Hpost).
    exists pre, raw, post. destruct e; simpl in Hc; try discriminate.
    injection Hc as ->. do 3 (split; [done|]).
    intros Hin. by apply (Hpost _ Hin).
  - intros (pre & raw & post & -> & Ht & Hne & Hpost).
    exists pre, (LMConfigModal.AddServer raw), post, raw. do 4 (split; [done|]).
    intros e' Hin ->%modal_change_removed. done.
Qed.

Lemma node_added_and_kept_iff (evs : list ModuleNode.event) (u : jsstring) :
  ServerList.added_and_kept node_change evs u ↔ node_added_and_kept evs u.
Proof.
  split.
  - intros (pre & e & post & raw & -> & Hc & Ht & Hne & Hpost).
    exists pre, raw, post. destruct e; simpl in Hc; try discriminate.
    injection Hc as ->. do 3 (split; [done|]).
    intros Hin. by apply (Hpost _ Hin).
  - intros (pre & raw & post & -> & Ht & Hne & Hpost).
    exists pre, (ModuleNode.AddServer raw), post, raw. do 4 (split; [done|]).
    intros e' Hin ->%node_change_removed. done.
Qed.

Lemma modal_run_track (evs : list LMConfigModal.event) :
  LMConfigModal.urls (LMConfigModal.run evs LMConfigModal.init) =
    ServerList.track modal_change evs.
Proof. apply modal_run_urls. Qed.

Lemma node_run_track (evs : list ModuleNode.event) :
  ModuleNode.mcpServers (ModuleNode.run evs ModuleNode.init) =
    ServerList.track node_change evs.
Proof. apply node_run_servers. Qed.

(** ** Removing a server *)

Lemma filter_absent {A : Type} (f : A → jsstring) (u : jsstring) (l : list A) :
  u ∉ f <$> l → filter (λ s, f s ≠ u) l = l.
Proof.
  induction l as [|x l IH]; csimpl; [done|].
  intros Hn. apply not_elem_of_cons in Hn as [Hx Hl].
  rewrite filter_cons. destruct (decide (f x ≠ u)) as [|Hnn]; [by rewrite IH|].
  exfalso. apply Hnn. congruence.
Qed.

Lemma find_absent (u : jsstring) (l : list LMConfigContext.MCPServer) :
  u ∉ LMConfigContext.url <$> l →
  find (λ s, JS.str_eq (LMConfigContext.url s) u) l = None.
Proof.
  induction l as [|x l IH]; csimpl; [done|].
  intros Hn. apply not_elem_of_cons in Hn as [Hx Hl].
  assert (JS.str_eq (LMConfigContext.url x) u = false) as ->
    by (apply str_eq_false; congruence).
  by apply IH.
Qed.

Lemma modal_remove_gone (u : jsstring) (st : LMConfigModal.state) :
  let st' := LMConfigModal.removeMCPServer u st in
  (u ∉ LMConfigModal.urls st') ∧
  LMConfigModal.availableTools st' !! u = None ∧
  LMConfigModal.selection u st' = None.
Proof.
  assert (u ∉ LMConfigModal.urls (LMConfigModal.removeMCPServer u st)) as Hn.
  { unfold LMConfigModal.urls. simpl. rewrite filter_fmap_url.
    rewrite list_elem_of_filter. tauto. }
  split; [done|]. split; [apply lookup_delete_eq|].
  unfold LMConfigModal.selection. by rewrite find_absent.
Qed.

Lemma modal_remove_absent (u : jsstring) (st : LMConfigModal.state) :
  u ∉ LMConfigModal.urls st →
  LMConfigModal.localMCPServers (LMConfigModal.removeMCPServer u st) =
    LMConfigModal.localMCPServers st ∧
  (LMConfigModal.availableTools st !! u = None →
   LMConfigModal.removeMCPServer u st = st).
Proof.
  intros Hn. simpl. split; [by apply filter_absent|]. intros Hc.
  destruct st. unfold LMConfigModal.removeMCPServer. simpl in *.
  unfold LMConfigModal.setAvailableTools, LMConfigModal.setLocalMCPServers.
  simpl. f_equal; [by apply delete_id | by apply filter_absent].
Qed.

Lemma node_remove_gone (u : jsstring) (st : ModuleNode.state) :
  let st' := ModuleNode.removeMcpServer u st in
  (u ∉ ModuleNode.mcpServers st') ∧
  ModuleNode.availableTools st' !! u = None ∧
  ModuleNode.selectedTools st' !! u = None.
Proof.
  simpl. split; [|split; apply lookup_delete_eq].
  rewrite list_elem_of_filter. tauto.
Qed.

Lemma node_remove_absent (u : jsstring) (st : ModuleNode.state) :
  u ∉ ModuleNode.mcpServers st →
  ModuleNode.mcpServers (ModuleNode.removeMcpServer u st) =
    ModuleNode.mcpServers st ∧
  (ModuleNode.availableTools st !! u = None →
   ModuleNode.selectedTools st !! u = None →
   ModuleNode.removeMcpServer u st = st).
Proof.
  intros Hn. simpl.
  assert (filter (λ s, s ≠ u) (ModuleNode.mcpServers st) = ModuleNode.mcpServers st)
    as Hf.
  { revert Hn. generalize (ModuleNode.mcpServers st) as l.
    induction l as [|x l IH]; [done|].
    intros [Hx Hl]%not_elem_of_cons. rewrite filter_cons.
    destruct (decide (x ≠ u)) as [|Hnn]; [by rewrite IH|].
    exfalso. apply Hnn. congruence. }
  split; [done|]. intros Hc Hs.
  destruct st. unfold ModuleNode.removeMcpServer. simpl in *.
  unfold ModuleNode.setSelectedTools, ModuleNode.setAvailableTools,
    ModuleNode.setMcpServers. simpl.
  f_equal; [done | by apply delete_id | by apply delete_id].
Qed.

Lemma modal_remove_twice (u : jsstring) (st : LMConfigModal.state) :
  LMConfigModal.removeMCPServer u (LMConfigModal.removeMCPServer u st) =
    LMConfigModal.removeMCPServer u st.
Proof.
  destruct (modal_remove_gone u st) as (Hn & Hc & _).
  by apply modal_remove_absent.
Qed.

Lemma node_remove_twice (u : jsstring) (st : ModuleNode.state) :
  ModuleNode.removeMcpServer u (ModuleNode.removeMcpServer u st) =
    ModuleNode.removeMcpServer u st.
Proof.
  destruct (node_remove_gone u st) as (Hn & Hc & Hs).
  by apply node_remove_absent.
Qed.

(** C4, as the code has it.  After any sequence of events from the empty
    scope (adding, removing, and also responses and selections in between),
    the list of servers has no duplicate and holds exactly the urls that an
    event added, as the trimmed and non-empty text that was typed, and that
    no later event removed.  Removing a server takes it out of the list with
    its catalog and its selection; removing an url that is not in the list
    leaves the list as it is (and the whole state, when no catalog or
    selection of that url is left); removing twice is removing once.  This
    holds in the global scope and in the scope of a node. *)
Theorem server_list_after_events (mevs : list LMConfigModal.event)
    (nevs : list ModuleNode.event) (u : jsstring)
    (mst : LMConfigModal.state) (nst : ModuleNode.state) :
  let mfinal := LMConfigModal.run mevs LMConfigModal.init in
  let nfinal := ModuleNode.run nevs ModuleNode.init in
  let mst' := LMConfigModal.removeMCPServer u mst in
  let nst' := ModuleNode.removeMcpServer u nst in
  NoDup (LMConfigModal.urls mfinal) ∧
  (u ∈ LMConfigModal.urls mfinal ↔ modal_added_and_kept mevs u) ∧
  NoDup (ModuleNode.mcpServers nfinal) ∧
  (u ∈ ModuleNode.mcpServers nfinal ↔ node_added_and_kept nevs u) ∧
  ((u ∉ LMConfigModal.urls mst') ∧
   LMConfigModal.availableTools mst' !! u = None ∧
   LMConfigModal.selection u mst' = None) ∧
  ((u ∉ ModuleNode.mcpServers nst') ∧
   ModuleNode.availableTools nst' !! u = None ∧
   ModuleNode.selectedTools nst' !! u = None) ∧
  (u ∉ LMConfigModal.urls mst →
     LMConfigModal.localMCPServers mst' = LMConfigModal.localMCPServers mst ∧
     (LMConfigModal.availableTools mst !! u = None → mst' = mst)) ∧
  (u ∉ ModuleNode.mcpServers nst →
     ModuleNode.mcpServers nst' = ModuleNode.mcpServers nst ∧
     (ModuleNode.availableTools nst !! u = None →
      ModuleNode.selectedTools nst !! u = None → nst' = nst)) ∧
  LMConfigModal.removeMCPServer u mst' = mst' ∧
  ModuleNode.removeMcpServer u nst' = nst'.
Proof.
  intros mfinal nfinal mst' nst'. subst mfinal nfinal.
  rewrite modal_run_track, node_run_track.
  split; [apply track_NoDup|].
  split; [by rewrite track_elem_of, modal_added_and_kept_iff|].
  split; [apply track_NoDup|].
  split; [by rewrite track_elem_of, node_added_and_kept_iff|].
  split; [apply modal_remove_gone|].
  split; [apply node_remove_gone|].
  split; [apply modal_remove_absent|].
  split; [apply node_remove_absent|].
  split; [apply modal_remove_twice | apply node_remove_twice].
Qed.

(** With the urls taken as they are typed the property fails: the text
    [" http://a"] was added and never removed, and the list holds
    ["http://a"] instead; a blank text was added and the list is empty. *)
Lemma server_list_verbatim_counterexample :
  let typed := js " http://a" in
  let evs := [LMConfigModal.AddServer typed] in
  let nevs := [ModuleNode.AddServer (js "  ")] in
  (∃ pre post,
     evs = pre ++ LMConfigModal.AddServer typed :: post ∧
     LMConfigModal.RemoveServer typed ∉ post) ∧
  (typed ∉ LMConfigModal.urls (LMConfigModal.run evs LMConfigModal.init)) ∧
  LMConfigModal.urls (LMConfigModal.run evs LMConfigModal.init) = [js "http://a"] ∧
  (∃ pre post,
     nevs = pre ++ ModuleNode.AddServer (js "  ") :: post ∧
     ModuleNode.RemoveServer (js "  ") ∉ post) ∧
  ModuleNode.mcpServers (ModuleNode.run nevs ModuleNode.init) = [].
Proof.
  cbn zeta. split; [|split; [|split; [|split]]].
  - exists [], []. split; [done|]. by intros ?%elem_of_nil.
  - intros H%list_elem_of_singleton. discriminate H.
  - reflexivity.
  - exists [], []. split; [done|]. by intros ?%elem_of_nil.
  - reflexivity.
Qed.

(* ===================================================================== *)
(** * Adding a server that is already there *)
(* ===================================================================== *)

Lemma modal_addServer_rejected (raw : jsstring) (st : LMConfigModal.state) :
  JS.trim raw ∈ LMConfigModal.urls st ∨ JS.trim raw = [] →
  LMConfigModal.addServer raw st = LMConfigModal.setNewServerUrl raw st.
Proof.
  intros H. unfold LMConfigModal.addServer, LMConfigModal.addMCPServer.
  rewrite modal_already_present. simpl.
  change (LMConfigModal.urls (LMConfigModal.setNewServerUrl raw st))
    with (LMConfigModal.urls st).
  destruct H as [H | ->]; [|done].
  apply includes_true in H. rewrite H. by rewrite andb_false_r.
Qed.

Lemma node_addServer_rejected (raw : jsstring) (st : ModuleNode.state) :
  JS.trim raw ∈ ModuleNode.mcpServers st ∨ JS.trim raw = [] →
  ModuleNode.addServer raw st = ModuleNode.setNewMcpServer raw st.
Proof.
  intros H. unfold ModuleNode.addServer, ModuleNode.addMcpServer,
    ModuleNode.already_present. simpl.
  destruct H as [H | ->]; [|done].
  apply includes_true in H. rewrite H. by rewrite andb_false_r.
Qed.

Lemma added_or_blank (us : list jsstring) (raw : jsstring) :
  JS.trim raw ∈ ServerList.apply us (ServerList.Added raw) ∨ JS.trim raw = [].
Proof.
  destruct (JS.trim raw) as [|c t] eqn:E; [by right|]. left.
  rewrite <- E. apply apply_elem_of. right. split; [done|]. by rewrite E.
Qed.

Lemma modal_not_removed (u : jsstring) (evs : list LMConfigModal.event) :
  LMConfigModal.RemoveServer u ∉ evs →
  ServerList.Removed u ∉ modal_change <$> evs.
Proof.
  intros Hn (e & Heq & Hin)%list_elem_of_fmap. symmetry in Heq.
  apply modal_change_removed in Heq. by subst e.
Qed.

Lemma node_not_removed (u : jsstring) (evs : list ModuleNode.event) :
  ModuleNode.RemoveServer u ∉ evs →
  ServerList.Removed u ∉ node_change <$> evs.
Proof.
  intros Hn (e & Heq & Hin)%list_elem_of_fmap. symmetry in Heq.
  apply node_change_removed in Heq. by subst e.
Qed.

(** C3, as the code has it.  The check for a duplicate compares the trimmed
    text with the urls of the list, by equality of strings.  When the same
    text is added a second time and no event in between removed its url, the
    second call changes nothing but the text field, which keeps what was
    typed: the list, the catalogs, the selections, the loading flags and the
    requests in flight are those of before.  In both scopes. *)
Theorem duplicate_add_rejected (raw : jsstring)
    (mst : LMConfigModal.state) (mmid : list LMConfigModal.event)
    (nst : ModuleNode.state) (nmid : list ModuleNode.event) :
  LMConfigModal.RemoveServer (JS.trim raw) ∉ mmid →
  ModuleNode.RemoveServer (JS.trim raw) ∉ nmid →
  let mst1 := LMConfigModal.run mmid (LMConfigModal.addServer raw mst) in
  let nst1 := ModuleNode.run nmid (ModuleNode.addServer raw nst) in
  (LMConfigModal.already_present (LMConfigModal.setNewServerUrl raw mst) = true
     ↔ JS.trim raw ∈ LMConfigModal.urls mst) ∧
  (ModuleNode.already_present (ModuleNode.setNewMcpServer raw nst) = true
     ↔ JS.trim raw ∈ ModuleNode.mcpServers nst) ∧
  LMConfigModal.addServer raw mst1 = LMConfigModal.setNewServerUrl raw mst1 ∧
  ModuleNode.addServer raw nst1 = ModuleNode.setNewMcpServer raw nst1.
Proof.
  intros Hm Hn mst1 nst1.
  split; [rewrite modal_already_present; apply includes_true|].
  split; [apply includes_true|].
  split.
  - apply modal_addServer_rejected. subst mst1.
    rewrite modal_run_urls, foldl_change, modal_addServer_urls.
    destruct (added_or_blank (LMConfigModal.urls mst) raw) as [H|H]; [|by right].
    left. apply apply_keeps; [done | by apply modal_not_removed].
  - apply node_addServer_rejected. subst nst1.
    rewrite node_run_servers, foldl_change, node_addServer_servers.
    destruct (added_or_blank (ModuleNode.mcpServers nst) raw) as [H|H]; [|by right].
    left. apply apply_keeps; [done | by apply node_not_removed].
Qed.

Lemma duplicate_add_rejected_witness :
  let raw := js "http://a " in
  let tools := [mkTool (js "search") (js "web search")] in
  let mmid := [LMConfigModal.Settle (js "http://a") (ResponseOk tools);
               LMConfigModal.Toggle (js "http://a") (js "search")] in
  let nmid := [ModuleNode.Settle (js "http://a") (ResponseOk tools);
               ModuleNode.AddServer (js "http://b")] in
  let mst1 := LMConfigModal.run mmid (LMConfigModal.addServer raw LMConfigModal.init) in
  let nst1 := ModuleNode.run nmid (ModuleNode.addServer raw ModuleNode.init) in
  (LMConfigModal.already_present
     (LMConfigModal.setNewServerUrl raw LMConfigModal.init) = true
     ↔ JS.trim raw ∈ LMConfigModal.urls LMConfigModal.init) ∧
  (ModuleNode.already_present
     (ModuleNode.setNewMcpServer raw ModuleNode.init) = true
     ↔ JS.trim raw ∈ ModuleNode.mcpServers ModuleNode.init) ∧
  LMConfigModal.addServer raw mst1 = LMConfigModal.setNewServerUrl raw mst1 ∧
  ModuleNode.addServer raw nst1 = ModuleNode.setNewMcpServer raw nst1.
Proof.
  cbn zeta.
  apply (duplicate_add_rejected (js "http://a ") LMConfigModal.init
           [LMConfigModal.Settle (js "http://a")
              (ResponseOk [mkTool (js "search") (js "web search")]);
            LMConfigModal.Toggle (js "http://a") (js "search")]
           ModuleNode.init
           [ModuleNode.Settle (js "http://a")
              (ResponseOk [mkTool (js "search") (js "web search")]);
            ModuleNode.AddServer (js "http://b")]).
  - intros H. apply elem_of_cons in H as [H|H]; [discriminate H|].
    apply elem_of_cons in H as [H|H]; [discriminate H|].
    by apply elem_of_nil in H.
  - intros H. apply elem_of_cons in H as [H|H]; [discriminate H|].
    apply elem_of_cons in H as [H|H]; [discriminate H|].
    by apply elem_of_nil in H.
Defined.

(** The check is not a comparison of the text as typed: after ["http://a"]
    was added, the different text [" http://a"] is taken for a duplicate and
    is not added. *)
Lemma duplicate_check_trims_counterexample :
  let st := LMConfigModal.addServer (js "http://a") LMConfigModal.init in
  let typed := js " http://a" in
  (typed ∉ LMConfigModal.urls st) ∧
  LMConfigModal.already_present (LMConfigModal.setNewServerUrl typed st) = true ∧
  LMConfigModal.localMCPServers (LMConfigModal.addServer typed st) =
    LMConfigModal.localMCPServers st.
Proof.
  cbn zeta. split; [|split; reflexivity].
  intros H%list_elem_of_singleton. discriminate H.
Qed.

(* ===================================================================== *)
(** * Requests in flight *)
(* ===================================================================== *)

Lemma in_flight_snoc (u u' : jsstring) (reqs : list jsstring) :
  in_flight u' (reqs ++ [u]) =
    if decide (u = u') then S (in_flight u' reqs) else in_flight u' reqs.
Proof.
  unfold in_flight. rewrite filter_app, length_app, filter_cons, filter_nil.
  destruct (decide (u = u')); simpl; lia.
Qed.

Lemma in_flight_settle_one (u u' : jsstring) (reqs : list jsstring) :
  in_flight u' (settle_one u reqs) =
    if decide (u = u') then pred (in_flight u' reqs) else in_flight u' reqs.
Proof.
  unfold in_flight. induction reqs as [|r reqs IH]; simpl.
  - by destruct (decide (u = u')).
  - unfold JS.str_eq. case_bool_decide as Hr.
    + subst r. rewrite filter_cons. destruct (decide (u = u')); simpl; done.
    + rewrite !filter_cons. destruct (decide (r = u')) as [->|Hne]; simpl.
      * rewrite IH. destruct (decide (u = u')); [congruence | done].
      * exact IH.
Qed.

Lemma in_flight_pos (u : jsstring) (reqs : list jsstring) :
  u ∈ reqs ↔ 0 < in_flight u reqs.
Proof.
  unfold in_flight. split.
  - intros Hin. assert (u ∈ filter (λ r, r = u) reqs) as H
      by (by apply list_elem_of_filter).
    destruct (filter _ reqs); [by apply elem_of_nil in H | simpl; lia].
  - intros H. destruct (filter (λ r, r = u) reqs) as [|x l] eqn:E;
      [simpl in H; lia|].
    assert (x ∈ filter (λ r, r = u) reqs) as Hx by (rewrite E; by left).
    apply list_elem_of_filter in Hx as [-> ?]. done.
Qed.

Lemma in_flight_sent (u u' : jsstring) (reqs : list jsstring) :
  in_flight u' (reqs ++ (if JS.isWellFormed u then [u] else [])) =
    if JS.isWellFormed u && bool_decide (u = u')
    then S (in_flight u' reqs) else in_flight u' reqs.
Proof.
  destruct (JS.isWellFormed u); simpl; [|by rewrite app_nil_r].
  rewrite in_flight_snoc. by case_bool_decide; [rewrite decide_True | rewrite decide_False].
Qed.

(** C5, as the code has it.  [fetchToolsForServer] never looks at the
    loading flag or at the requests in flight.  Called for an url that
    [encodeURIComponent] accepts, it sends a request every time: the url is
    marked as loading and its requests in flight are one more than before.
    Called for an url that [encodeURIComponent] rejects, it sends nothing and
    the flag of the url is down when the call returns.  The requests of the
    other urls are as before.  A request that settles is one request less,
    and clears the flag.  In both scopes. *)
Theorem fetch_not_coalesced (u u' : jsstring) (r : Settled)
    (mst : LMConfigModal.state) (nst : ModuleNode.state) :
  let mst' := LMConfigModal.fetchToolsForServer u mst in
  let nst' := ModuleNode.fetchToolsForServer u nst in
  let mst'' := LMConfigModal.fetchToolsForServer_settled u r mst in
  let nst'' := ModuleNode.fetchToolsForServer_settled u r nst in
  (LMConfigModal.loadingTools mst' !! u = Some (JS.isWellFormed u) ∧
   in_flight u (LMConfigModal.requests mst') =
     (if JS.isWellFormed u
      then S (in_flight u (LMConfigModal.requests mst))
      else in_flight u (LMConfigModal.requests mst)) ∧
   (u' ≠ u → in_flight u' (LMConfigModal.requests mst') =
             in_flight u' (LMConfigModal.requests mst))) ∧
  (ModuleNode.loadingTools nst' !! u = Some (JS.isWellFormed u) ∧
   in_flight u (ModuleNode.requests nst') =
     (if JS.isWellFormed u
      then S (in_flight u (ModuleNode.requests nst))
      else in_flight u (ModuleNode.requests nst)) ∧
   (u' ≠ u → in_flight u' (ModuleNode.requests nst') =
             in_flight u' (ModuleNode.requests nst))) ∧
  (in_flight u (LMConfigModal.requests mst'') =
     pred (in_flight u (LMConfigModal.requests mst)) ∧
   (0 < in_flight u (LMConfigModal.requests mst) →
    LMConfigModal.loadingTools mst'' !! u = Some false)) ∧
  (in_flight u (ModuleNode.requests nst'') =
     pred (in_flight u (ModuleNode.requests nst)) ∧
   (0 < in_flight u (ModuleNode.requests nst) →
    ModuleNode.loadingTools nst'' !! u = Some false)).
Proof.
  cbn zeta. split; [|split; [|split]].
  - rewrite modal_fetch_loading_flag, modal_fetch_requests, !in_flight_sent.
    split; [apply lookup_insert_eq|]. split.
    + rewrite bool_decide_eq_true_2 by done. by rewrite andb_true_r.
    + intros ?. rewrite bool_decide_eq_false_2 by done. by rewrite andb_false_r.
  - rewrite node_fetch_loading_flag, node_fetch_requests, !in_flight_sent.
    split; [apply lookup_insert_eq|]. split.
    + rewrite bool_decide_eq_true_2 by done. by rewrite andb_true_r.
    + intros ?. rewrite bool_decide_eq_false_2 by done. by rewrite andb_false_r.
  - unfold LMConfigModal.fetchToolsForServer_settled. case_bool_decide as Hin.
    + split.
      * destruct r; simpl; rewrite in_flight_settle_one; by rewrite decide_True.
      * intros _. destruct r; simpl; apply lookup_insert_eq.
    + rewrite in_flight_pos in Hin. split; lia.
  - unfold ModuleNode.fetchToolsForServer_settled. case_bool_decide as Hin.
    + split.
      * destruct r; simpl; rewrite in_flight_settle_one; by rewrite decide_True.
      * intros _. destruct r; simpl; apply lookup_insert_eq.
    + rewrite in_flight_pos in Hin. split; lia.
Qed.

(** Two requests for one url are in flight at once: in a node, after the
    url was added, removed and added again before the first response; in
    the modal, after the effect that loads the servers ran twice. *)
Lemma single_flight_counterexample :
  let u := js "http://a" in
  let st := ModuleNode.run [ModuleNode.AddServer u; ModuleNode.RemoveServer u]
              ModuleNode.init in
  let servers := [Scenario.server_a [js "search"]] in
  ModuleNode.loadingTools st !! u = Some true ∧
  in_flight u (ModuleNode.requests st) = 1 ∧
  in_flight u (ModuleNode.requests (ModuleNode.step st (ModuleNode.AddServer u))) = 2 ∧
  in_flight u
    (LMConfigModal.requests
       (LMConfigModal.load_servers servers
          (LMConfigModal.load_servers servers LMConfigModal.init))) = 2.
Proof.
  cbn zeta. split; [|split; [|split]]; vm_compute; reflexivity.
Qed.

(* ===================================================================== *)
(** * The selection when a catalog arrives *)
(* ===================================================================== *)

Lemma tools_copy (data_tools : list Tool) :
  (λ t, {| name := name t; description := description t |}) <$> data_tools
    = data_tools.
Proof.
  induction data_tools as [|[n d] l IH]; csimpl; [done|]. by rewrite IH.
Qed.

Lemma find_new_server (u : jsstring) (ts : list jsstring)
    (l : list LMConfigContext.MCPServer) :
  u ∉ LMConfigContext.url <$> l →
  find (λ s, JS.str_eq (LMConfigContext.url s) u)
       (l ++ [LMConfigContext.mkMCPServer u ts])
    = Some (LMConfigContext.mkMCPServer u ts).
Proof.
  induction l as [|x l IH]; csimpl.
  - intros _. by rewrite str_eq_refl.
  - intros [Hx Hl]%not_elem_of_cons.
    assert (JS.str_eq (LMConfigContext.url x) u = false) as ->
      by (apply str_eq_false; congruence).
    by apply IH.
Qed.

Lemma modal_addServer_new (raw : jsstring) (st : LMConfigModal.state) :
  JS.trim raw ≠ [] → JS.trim raw ∉ LMConfigModal.urls st →
  LMConfigModal.addServer raw st =
    LMConfigModal.fetchToolsForServer (JS.trim raw)
      (LMConfigModal.setNewServerUrl []
         (LMConfigModal.setLocalMCPServers
            (λ _, LMConfigModal.localMCPServers st ++
                    [LMConfigContext.mkMCPServer (JS.trim raw) []])
            (LMConfigModal.setNewServerUrl raw st))).
Proof.
  intros Hne Hnew. unfold LMConfigModal.addServer, LMConfigModal.addMCPServer.
  rewrite modal_already_present. simpl.
  change (LMConfigModal.urls (LMConfigModal.setNewServerUrl raw st))
    with (LMConfigModal.urls st).
  apply string_truthy_true in Hne. apply includes_false in Hnew.
  by rewrite Hne, Hnew.
Qed.

(** C6. In the global scope a server is added with the empty selection, and
    the arrival of its catalog stores the catalog and leaves the selection
    empty.  In the scope of a node the arrival of a catalog stores the
    catalog and selects every tool of it by name.  (A catalog arrives for a
    request that was sent: in the global scope the url added is one that
    [encodeURIComponent] accepts.) *)
Theorem selection_seeding (raw u : jsstring) (data_tools : list Tool)
    (mst : LMConfigModal.state) (nst : ModuleNode.state) :
  JS.trim raw ≠ [] →
  JS.isWellFormed (JS.trim raw) = true →
  JS.trim raw ∉ LMConfigModal.urls mst →
  u ∈ ModuleNode.requests nst →
  ModuleNode.selectedTools nst !! u = None →
  let mst1 := LMConfigModal.addServer raw mst in
  let mst2 := LMConfigModal.fetchToolsForServer_settled (JS.trim raw)
                (ResponseOk data_tools) mst1 in
  let nst' := ModuleNode.fetchToolsForServer_settled u
                (ResponseOk data_tools) nst in
  LMConfigModal.selection (JS.trim raw) mst1 = Some [] ∧
  LMConfigModal.availableTools mst2 !! JS.trim raw = Some data_tools ∧
  LMConfigModal.selection (JS.trim raw) mst2 = Some [] ∧
  ModuleNode.availableTools nst' !! u = Some data_tools ∧
  ModuleNode.selectedTools nst' !! u = Some (name <$> data_tools).
Proof.
  intros Hne Hwf Hnew Hreq _ mst1 mst2 nst'.
  assert (LMConfigModal.selection (JS.trim raw) mst1 = Some []) as Hsel.
  { subst mst1. rewrite modal_addServer_new by done.
    unfold LMConfigModal.selection. rewrite modal_fetch_servers. simpl.
    by rewrite find_new_server. }
  split; [done|].
  assert (JS.trim raw ∈ LMConfigModal.requests mst1) as Hin.
  { subst mst1. rewrite modal_addServer_new by done.
    rewrite modal_fetch_requests, Hwf.
    apply elem_of_app. right. by left. }
  split; [|split].
  - subst mst2. unfold LMConfigModal.fetchToolsForServer_settled.
    rewrite bool_decide_eq_true_2 by done. simpl.
    rewrite lookup_insert_eq. by rewrite tools_copy.
  - unfold LMConfigModal.selection. subst mst2.
    by rewrite modal_settled_servers.
  - subst nst'. unfold ModuleNode.fetchToolsForServer_settled.
    rewrite bool_decide_eq_true_2 by done. simpl.
    rewrite !lookup_insert_eq, tools_copy. done.
Qed.

Lemma selection_seeding_witness :
  let raw := js " http://a" in
  let u := js "http://b" in
  let data_tools := [mkTool (js "search") (js "web search");
                     mkTool (js "fetch") (js "get a page")] in
  let nst := ModuleNode.addServer u ModuleNode.init in
  let mst1 := LMConfigModal.addServer raw LMConfigModal.init in
  let mst2 := LMConfigModal.fetchToolsForServer_settled (JS.trim raw)
                (ResponseOk data_tools) mst1 in
  let nst' := ModuleNode.fetchToolsForServer_settled u
                (ResponseOk data_tools) nst in
  LMConfigModal.selection (JS.trim raw) mst1 = Some [] ∧
  LMConfigModal.availableTools mst2 !! JS.trim raw = Some data_tools ∧
  LMConfigModal.selection (JS.trim raw) mst2 = Some [] ∧
  ModuleNode.availableTools nst' !! u = Some data_tools ∧
  ModuleNode.selectedTools nst' !! u = Some (name <$> data_tools).
Proof.
  cbn zeta.
  apply (selection_seeding (js " http://a") (js "http://b")
           [mkTool (js "search") (js "web search");
            mkTool (js "fetch") (js "get a page")]
           LMConfigModal.init (ModuleNode.addServer (js "http://b") ModuleNode.init)).
  - discriminate.
  - reflexivity.
  - intros H. by apply elem_of_nil in H.
  - apply list_elem_of_singleton. reflexivity.
  - reflexivity.
Defined.

(* ===================================================================== *)
(** * Toggling a tool *)
(* ===================================================================== *)


Lemma modal_toggle_absent (u t : jsstring) (l : list LMConfigContext.MCPServer) :
  u ∉ LMConfigContext.url <$> l →
  (λ server,
     if JS.str_eq (LMConfigContext.url server) u then
       {| LMConfigContext.url := LMConfigContext.url server;
          LMConfigContext.selectedTools :=
            LMConfigModal.toggle_in t (LMConfigContext.selectedTools server) |}
     else server) <$> l = l.
Proof.
  induction l as [|x l IH]; csimpl; [done|].
  intros [Hx Hl]%not_elem_of_cons.
  assert (JS.str_eq (LMConfigContext.url x) u = false) as ->
    by (apply str_eq_false; congruence).
  by rewrite IH.
Qed.

(** ** Reading a plain object *)

Lemma read_own {V : Type} (m : gmap jsstring V) (k : jsstring) (v : V) :
  m !! k = Some v → JS.read m k = JS.Own v.
Proof. unfold JS.read. by intros ->. Qed.

Lemma read_absent {V : Type} (m : gmap jsstring V) (k : jsstring) :
  m !! k = None → JS.inherited k = false → JS.read m k = JS.Absent.
Proof.
  unfold JS.read, JS.inherited. intros ->.
  by destruct (JS.inherited_member k JS.Object_prototype).
Qed.

Lemma read_inherited {V : Type} (m : gmap jsstring V) (k : jsstring) :
  m !! k = None → JS.inherited k = true →
  ∃ len, JS.read (V:=V) m k = JS.Inherited len.
Proof.
  unfold JS.read, JS.inherited. intros ->.
  destruct (JS.inherited_member k JS.Object_prototype); [by eexists | done].
Qed.


Lemma read_Inherited_inv {V : Type} (m : gmap jsstring V) (k : jsstring) len :
  JS.read m k = JS.Inherited len → m !! k = None ∧ JS.inherited k = true.
Proof.
  unfold JS.read, JS.inherited. destruct (m !! k); [done|].
  by destruct (JS.inherited_member k JS.Object_prototype).
Qed.


Lemma read_truthy_own (m : gmap jsstring bool) (k : jsstring) (b : bool) :
  m !! k = Some b → JS.read_truthy m k = b.
Proof. intros H. unfold JS.read_truthy. by rewrite (read_own _ _ _ H). Qed.

Lemma read_truthy_none (m : gmap jsstring bool) (k : jsstring) :
  m !! k = None → JS.read_truthy m k = JS.inherited k.
Proof.
  intros H. unfold JS.read_truthy. destruct (JS.inherited k) eqn:E.
  - by destruct (read_inherited m k H E) as [len ->].
  - by rewrite read_absent.
Qed.

Lemma read_truthy_insert (m : gmap jsstring bool) (k : jsstring) (b : bool) :
  JS.read_truthy (<[k := b]> m) k = b.
Proof. apply read_truthy_own, lookup_insert_eq. Qed.

Lemma read_truthy_insert_ne (m : gmap jsstring bool) (k k' : jsstring) (b : bool) :
  k ≠ k' → JS.read_truthy (<[k := b]> m) k' = JS.read_truthy m k'.
Proof.
  intros Hne. unfold JS.read_truthy, JS.read. by rewrite lookup_insert_ne.
Qed.

Example read_examples :
  let obj : gmap jsstring bool := {[ js "http://a" := false ]} in
  JS.read obj (js "http://a") = JS.Own false ∧
  JS.read obj (js "http://b") = JS.Absent ∧
  JS.read obj (js "constructor") = JS.Inherited (Some 1) ∧
  JS.read obj (js "toString") = JS.Inherited (Some 0) ∧
  JS.read obj (js "__proto__") = JS.Inherited None ∧
  JS.read_truthy obj (js "constructor") = true ∧
  JS.isWellFormed (js "http://a") = true ∧
  JS.isWellFormed [0xD800%N] = false ∧
  JS.isWellFormed [0xD83D; 0xDE00]%N = true.
Proof. cbn zeta. repeat split; vm_compute; reflexivity. Qed.

(** ** The handlers *)

(** The handler of the node, where it does not throw. *)
Lemma node_toggle_ok (u t : jsstring) (st : ModuleNode.state) :
  (ModuleNode.selectedTools st !! u = None → JS.inherited u = false) →
  ModuleNode.toggleToolSelection u t st =
    inr (ModuleNode.setSelectedTools
           (λ prev, <[u := LMConfigModal.toggle_in t
                              (default [] (ModuleNode.selectedTools st !! u))]> prev)
           st).
Proof.
  intros H. unfold ModuleNode.toggleToolSelection, LMConfigModal.toggle_in.
  destruct (ModuleNode.selectedTools st !! u) as [tools|] eqn:E.
  - by rewrite (read_own _ _ _ E).
  - by rewrite (read_absent _ _ E (H eq_refl)).
Qed.

(** The handler of the node throws for an url without a selection that names
    a member of [Object.prototype]. *)
Lemma node_toggle_throws (u t : jsstring) (st : ModuleNode.state) :
  ModuleNode.selectedTools st !! u = None → JS.inherited u = true →
  ModuleNode.toggleToolSelection u t st = inl JS.TypeError.
Proof.
  intros E Hi. unfold ModuleNode.toggleToolSelection.
  by destruct (read_inherited (ModuleNode.selectedTools st) u E Hi) as [len ->].
Qed.


(** ** The checkboxes *)






(** A checkbox that is shown, in each scope: the server was added, its
    catalog arrived, and it is expanded (in the node, which is a ReAct node
    in its edit form; in the modal, which is open on the tab of the servers).
    The tool [search] is selected in the node and gets unselected; it is not
    selected in the modal and gets selected. *)
Example checkbox_shown_examples :
  let u := js "http://a" in
  let tools := [mkTool (js "search") (js "web search");
                mkTool (js "fetch") (js "get a page")] in
  let nst0 := ModuleNode.run [ModuleNode.AddServer u;
                              ModuleNode.Settle u (ResponseOk tools)]
                ModuleNode.init in
  let nst := {| ModuleNode.isEditing := true;
                ModuleNode.nodeLabel := ModuleNode.nodeLabel nst0;
                ModuleNode.moduleType := ReAct;
                ModuleNode.model := ModuleNode.model nst0;
                ModuleNode.instruction := ModuleNode.instruction nst0;
                ModuleNode.parameters := ModuleNode.parameters nst0;
                ModuleNode.mcpServers := ModuleNode.mcpServers nst0;
                ModuleNode.maxIters := ModuleNode.maxIters nst0;
                ModuleNode.useGlobalMcpServers := ModuleNode.useGlobalMcpServers nst0;
                ModuleNode.selectedTools := ModuleNode.selectedTools nst0;
                ModuleNode.availableTools := ModuleNode.availableTools nst0;
                ModuleNode.loadingTools := ModuleNode.loadingTools nst0;
                ModuleNode.newMcpServer := ModuleNode.newMcpServer nst0;
                ModuleNode.requests := ModuleNode.requests nst0 |} in
  let mst := LMConfigModal.setActiveTab LMConfigModal.TabMCP
               (LMConfigModal.run [LMConfigModal.AddServer u;
                                   LMConfigModal.Settle u (ResponseOk tools)]
                  LMConfigModal.init) in
  NodeForm.checkbox_shown ∅ nst u (js "search") = true ∧
  (∃ nst', NodeForm.checkbox_onChange ∅ u (js "search") nst = inr nst' ∧
           ModuleNode.selectedTools nst' !! u = Some [js "fetch"]) ∧
  NodeForm.checkbox_shown ∅ nst u (js "other") = false ∧
  NodeForm.checkbox_shown ∅ nst0 u (js "search") = false ∧
  ModalSession.checkbox_shown true ∅ mst u (js "search") = true ∧
  LMConfigModal.selection u
    (ModalSession.checkbox_onChange true ∅ u (js "search") mst) =
    Some [js "search"] ∧
  ModalSession.checkbox_shown false ∅ mst u (js "search") = false.
Proof.
  cbn zeta. split; [|split; [|split; [|split; [|split; [|split]]]]];
    try (vm_compute; reflexivity).
  eexists. split; vm_compute; reflexivity.
Qed.

(** The handlers themselves do not look at the catalogs: called for an url
    without a catalog, which the page never does, they select the tool.  For
    an url without a selection that names a member of [Object.prototype] the
    handler of the node throws. *)
Example handlers_without_catalog :
  let u := js "http://c" in
  let t := js "search" in
  let nst := ModuleNode.init in
  let mst := LMConfigModal.addServer u LMConfigModal.init in
  ModuleNode.availableTools nst !! u = None ∧
  (∃ nst', ModuleNode.toggleToolSelection u t nst = inr nst' ∧
           ModuleNode.selectedTools nst' !! u = Some [t]) ∧
  ModuleNode.toggleToolSelection (js "constructor") t nst = inl JS.TypeError ∧
  LMConfigModal.availableTools mst !! u = None ∧
  LMConfigModal.selection u mst = Some [] ∧
  LMConfigModal.selection u (LMConfigModal.toggleToolSelection u t mst) = Some [t].
Proof.
  cbn zeta. split; [|split; [|split; [|split; [|split]]]];
    try (vm_compute; reflexivity).
  eexists. split; vm_compute; reflexivity.
Qed.

(* ===================================================================== *)
(** * [trim] *)
(* ===================================================================== *)

Lemma trimStart_keep (c : N) (s : jsstring) :
  JS.is_white_space c = false → JS.trimStart (c :: s) = c :: s.
Proof. intros Hc. simpl. by rewrite Hc. Qed.

Lemma trimStart_head (s : jsstring) :
  JS.trimStart s = [] ∨
  ∃ c s', JS.trimStart s = c :: s' ∧ JS.is_white_space c = false.
Proof.
  induction s as [|c s IH]; simpl; [by left|].
  destruct (JS.is_white_space c) eqn:E; [done|]. right. by exists c, s.
Qed.

Lemma trimStart_app (a b : jsstring) (c : N) :
  JS.is_white_space c = false →
  JS.trimStart (a ++ c :: b) = JS.trimStart a ++ c :: b.
Proof.
  intros Hc. induction a as [|x a IH]; simpl; [by rewrite Hc|].
  by destruct (JS.is_white_space x).
Qed.

Lemma trimEnd_keep (s : jsstring) (c : N) :
  JS.is_white_space c = false → JS.trimEnd (s ++ [c]) = s ++ [c].
Proof.
  intros Hc. unfold JS.trimEnd. rewrite reverse_snoc, trimStart_keep by done.
  by rewrite reverse_cons, reverse_involutive.
Qed.

Lemma trimEnd_cons (c : N) (s : jsstring) :
  JS.is_white_space c = false → JS.trimEnd (c :: s) = c :: JS.trimEnd s.
Proof.
  intros Hc. unfold JS.trimEnd.
  rewrite reverse_cons, (trimStart_app _ [] c) by done.
  by rewrite reverse_snoc.
Qed.

Lemma trimEnd_last (s : jsstring) :
  JS.trimEnd s = [] ∨
  ∃ s' c, JS.trimEnd s = s' ++ [c] ∧ JS.is_white_space c = false.
Proof.
  unfold JS.trimEnd. destruct (trimStart_head (reverse s)) as [-> | (c & s' & -> & Hc)].
  - by left.
  - right. exists (reverse s'), c. by rewrite reverse_cons.
Qed.

Lemma trimEnd_idemp (s : jsstring) : JS.trimEnd (JS.trimEnd s) = JS.trimEnd s.
Proof.
  destruct (trimEnd_last s) as [-> | (s' & c & -> & Hc)]; [done|].
  by apply trimEnd_keep.
Qed.

(** The shape of a trimmed text: empty, or with a first and a last character
    that are not white space. *)
Lemma trim_shape (s : jsstring) :
  JS.trim s = [] ∨
  (∃ c s', JS.trim s = c :: s' ∧ JS.is_white_space c = false) ∧
  (∃ s' c, JS.trim s = s' ++ [c] ∧ JS.is_white_space c = false).
Proof.
  unfold JS.trim.
  destruct (trimStart_head s) as [-> | (c & s' & -> & Hc)]; [by left|].
  right. split.
  - exists c, (JS.trimEnd s'). by rewrite trimEnd_cons.
  - destruct (trimEnd_last (c :: s')) as [E | H]; [|done].
    rewrite trimEnd_cons in E by done. discriminate E.
Qed.

Lemma trim_idemp (s : jsstring) : JS.trim (JS.trim s) = JS.trim s.
Proof.
  destruct (trim_shape s) as [-> | [(c & s' & E & Hc) (s'' & d & E' & Hd)]];
    [done|].
  unfold JS.trim at 1. rewrite E, trimStart_keep by done.
  rewrite <- E, E'. by apply trimEnd_keep.
Qed.

Lemma trim_trimmed (raw : jsstring) : JS.trim raw ≠ [] → trimmed (JS.trim raw).
Proof. intros Hne. split; [done | apply trim_idemp]. Qed.

(** The trimmed text of [a ++ c :: t] when [c] is not white space and [t]
    is a trimmed text. *)
Lemma trim_app_trimmed (a t : jsstring) (c : N) :
  JS.is_white_space c = false →
  JS.trim (a ++ c :: JS.trim t) = JS.trimStart a ++ c :: JS.trim t.
Proof.
  intros Hc. unfold JS.trim at 1. rewrite trimStart_app by done.
  destruct (trim_shape t) as [-> | [_ (s' & d & -> & Hd)]].
  - by apply (trimEnd_keep _ c).
  - replace (JS.trimStart a ++ c :: s' ++ [d])
      with ((JS.trimStart a ++ c :: s') ++ [d]) by (by rewrite <- app_assoc).
    by apply trimEnd_keep.
Qed.

(* ===================================================================== *)
(** * Invariants of the two lists *)
(* ===================================================================== *)

(** X4. Every url in the list of a scope, after any events from the empty
    scope, is not empty and has no white space at either end. *)
Theorem stored_urls_trimmed (mevs : list LMConfigModal.event)
    (nevs : list ModuleNode.event) :
  Forall trimmed (LMConfigModal.urls (LMConfigModal.run mevs LMConfigModal.init)) ∧
  Forall trimmed (ModuleNode.mcpServers (ModuleNode.run nevs ModuleNode.init)).
Proof.
  rewrite modal_run_track, node_run_track. split.
  - apply Forall_forall. intros u Hu.
    apply track_elem_of in Hu as (pre & e & post & raw & _ & _ & <- & Hne & _).
    by apply trim_trimmed.
  - apply Forall_forall. intros u Hu.
    apply track_elem_of in Hu as (pre & e & post & raw & _ & _ & <- & Hne & _).
    by apply trim_trimmed.
Qed.

Lemma settle_one_other (u v : jsstring) (reqs : list jsstring) :
  v ≠ u → v ∈ reqs → v ∈ settle_one u reqs.
Proof.
  intros Hne. rewrite !in_flight_pos, in_flight_settle_one.
  by rewrite decide_False.
Qed.

Lemma fetch_fold_frame (ms : list LMConfigContext.MCPServer)
    (st : LMConfigModal.state) :
  let st' := foldl (λ st server,
                      if JS.string_truthy (LMConfigContext.url server)
                      then LMConfigModal.fetchToolsForServer
                             (LMConfigContext.url server) st
                      else st) st ms in
  LMConfigModal.localMCPServers st' = LMConfigModal.localMCPServers st ∧
  LMConfigModal.availableTools st' = LMConfigModal.availableTools st ∧
  LMConfigModal.newServerUrl st' = LMConfigModal.newServerUrl st ∧
  LMConfigModal.selectedProvider st' = LMConfigModal.selectedProvider st ∧
  LMConfigModal.modelName st' = LMConfigModal.modelName st ∧
  LMConfigModal.activeTab st' = LMConfigModal.activeTab st.
Proof.
  revert st. induction ms as [|m ms IH]; intros st; simpl; [done|].
  destruct (IH (if JS.string_truthy (LMConfigContext.url m)
                then LMConfigModal.fetchToolsForServer (LMConfigContext.url m) st
                else st)) as (-> & -> & -> & -> & -> & ->).
  destruct (JS.string_truthy _); [|done].
  destruct (modal_fetch_frame (LMConfigContext.url m) st)
    as (-> & -> & -> & -> & -> & ->).
  done.
Qed.

Lemma loading_sent (l : gmap jsstring bool) (r : list jsstring) (u : jsstring) :
  loading_in_flight l r →
  loading_in_flight (<[u := JS.isWellFormed u]> l)
    (r ++ (if JS.isWellFormed u then [u] else [])).
Proof.
  intros H v. rewrite elem_of_app.
  destruct (decide (u = v)) as [->|Hne].
  - rewrite lookup_insert_eq. intros [= ->]. right. by left.
  - rewrite lookup_insert_ne by done. intros Hv. left. by apply H.
Qed.

Lemma loading_settle (l : gmap jsstring bool) (r : list jsstring) (u : jsstring) :
  loading_in_flight l r → loading_in_flight (<[u := false]> l) (settle_one u r).
Proof.
  intros H v. destruct (decide (u = v)) as [->|Hne].
  - by rewrite lookup_insert_eq.
  - rewrite lookup_insert_ne by done. intros Hv.
    apply settle_one_other; [done | by apply H].
Qed.

Lemma modal_fetch_loading (u : jsstring) (st : LMConfigModal.state) :
  modal_loading st → modal_loading (LMConfigModal.fetchToolsForServer u st).
Proof.
  unfold modal_loading. rewrite modal_fetch_loading_flag, modal_fetch_requests.
  apply loading_sent.
Qed.

Lemma node_fetch_loading (u : jsstring) (st : ModuleNode.state) :
  node_loading st → node_loading (ModuleNode.fetchToolsForServer u st).
Proof.
  unfold node_loading. rewrite node_fetch_loading_flag, node_fetch_requests.
  apply loading_sent.
Qed.

Lemma modal_step_loading (st : LMConfigModal.state) (e : LMConfigModal.event) :
  modal_loading st → modal_loading (LMConfigModal.step st e).
Proof.
  intros H. destruct e as [raw|u|u r|u t|u|u]; simpl; try done.
  - unfold LMConfigModal.addServer, LMConfigModal.addMCPServer.
    destruct (_ && _); [|done]. by apply modal_fetch_loading.
  - unfold LMConfigModal.fetchToolsForServer_settled.
    case_bool_decide; [|done]. destruct r; by apply loading_settle.
Qed.

Lemma modal_load_servers_loading (ms : list LMConfigContext.MCPServer)
    (st : LMConfigModal.state) :
  modal_loading st → modal_loading (LMConfigModal.load_servers ms st).
Proof.
  intros H. unfold LMConfigModal.load_servers.
  assert (modal_loading (LMConfigModal.setLocalMCPServers (λ _, ms) st)) as H0
    by done.
  revert H0. generalize (LMConfigModal.setLocalMCPServers (λ _, ms) st).
  induction ms as [|m ms IH]; intros st0 H0; simpl; [done|].
  apply IH. destruct (JS.string_truthy _); [by apply modal_fetch_loading | done].
Qed.

Lemma session_step_loading (JSON_stringify : JS.value → jsstring)
    (s : LMConfigModal.state * LMConfigContext.state) (a : ModalSession.action) :
  modal_loading s.1 → modal_loading (ModalSession.step JSON_stringify s a).1.
Proof.
  destruct s as [st ctx]. intros H. destruct a; simpl; try done.
  - by apply modal_step_loading.
  - unfold ModalSession.effect. apply modal_load_servers_loading.
    by destruct (LMConfigContext.globalLMConfig ctx).
  - unfold ModalSession.handleClear. by destruct (LMConfigModal.activeTab st).
Qed.

Lemma session_run_loading (JSON_stringify : JS.value → jsstring)
    (acts : list ModalSession.action)
    (s : LMConfigModal.state * LMConfigContext.state) :
  modal_loading s.1 → modal_loading (ModalSession.run JSON_stringify acts s).1.
Proof.
  unfold ModalSession.run. revert s.
  induction acts as [|a acts IH]; intros s H; simpl; [done|].
  by apply IH, session_step_loading.
Qed.

Lemma node_step_loading (st : ModuleNode.state) (e : ModuleNode.event) :
  node_loading st → node_loading (ModuleNode.step st e).
Proof.
  intros H. destruct e as [raw|u|u r|u t|b]; simpl; try done.
  - unfold ModuleNode.addServer, ModuleNode.addMcpServer.
    destruct (_ && _); [|done]. by apply node_fetch_loading.
  - unfold ModuleNode.fetchToolsForServer_settled.
    case_bool_decide; [|done]. destruct r; by apply loading_settle.
  - unfold node_loading.
    destruct (node_toggle_absorb_frame u t st) as (_ & _ & -> & -> & _). done.
Qed.

Lemma node_run_loading (evs : list ModuleNode.event) (st : ModuleNode.state) :
  node_loading st → node_loading (ModuleNode.run evs st).
Proof.
  unfold ModuleNode.run. revert st.
  induction evs as [|e evs IH]; intros st H; simpl; [done|].
  by apply IH, node_step_loading.
Qed.

(** ** The loading flags of the servers of a list *)

Lemma flags_own_insert (l : gmap jsstring bool) (us : list jsstring)
    (u : jsstring) (b : bool) :
  flags_own l us → flags_own (<[u := b]> l) us.
Proof.
  intros H v Hv. destruct (H v Hv) as [->|Hs]; [by left|]. right.
  destruct (decide (u = v)) as [->|Hne].
  - rewrite lookup_insert_eq. by eexists.
  - by rewrite lookup_insert_ne.
Qed.

Lemma flags_own_snoc (l : gmap jsstring bool) (us : list jsstring)
    (u : jsstring) (b : bool) :
  flags_own l us → flags_own (<[u := b]> l) (us ++ [u]).
Proof.
  intros H v [Hv | ->%list_elem_of_singleton]%elem_of_app.
  - by apply (flags_own_insert l us u b H).
  - right. rewrite lookup_insert_eq. by eexists.
Qed.

Lemma flags_own_filter (l : gmap jsstring bool) (us : list jsstring)
    (P : jsstring → Prop) `{!∀ x, Decision (P x)} :
  flags_own l us → flags_own l (filter P us).
Proof. intros Hown v [_ Hv]%list_elem_of_filter. by apply Hown. Qed.

Lemma modal_fetch_flags (u : jsstring) (st : LMConfigModal.state) :
  modal_flags st → modal_flags (LMConfigModal.fetchToolsForServer u st).
Proof.
  unfold modal_flags. rewrite modal_fetch_loading_flag, modal_fetch_urls.
  apply flags_own_insert.
Qed.

Lemma modal_step_flags (st : LMConfigModal.state) (e : LMConfigModal.event) :
  modal_flags st → modal_flags (LMConfigModal.step st e).
Proof.
  intros H. unfold modal_flags. rewrite modal_step_urls.
  destruct e as [raw|u|u r|u t|u|u]; cbn [LMConfigModal.step modal_change];
    try exact H.
  - unfold ServerList.apply, LMConfigModal.addServer, LMConfigModal.addMCPServer.
    rewrite modal_already_present. simpl.
    change (LMConfigModal.urls (LMConfigModal.setNewServerUrl raw st))
      with (LMConfigModal.urls st).
    destruct (JS.string_truthy (JS.trim raw) &&
              negb (JS.includes (LMConfigModal.urls st) (JS.trim raw))); [|exact H].
    rewrite modal_fetch_loading_flag. by apply flags_own_snoc.
  - unfold ServerList.apply. apply flags_own_filter. exact H.
  - unfold LMConfigModal.fetchToolsForServer_settled.
    case_bool_decide; [|exact H].
    destruct r; simpl; by apply flags_own_insert.
Qed.

Lemma modal_fetch_fold_flags (ms : list LMConfigContext.MCPServer)
    (st : LMConfigModal.state) :
  let st' := foldl (λ st server,
                      if JS.string_truthy (LMConfigContext.url server)
                      then LMConfigModal.fetchToolsForServer
                             (LMConfigContext.url server) st
                      else st) st ms in
  (∀ v, is_Some (LMConfigModal.loadingTools st !! v) →
        is_Some (LMConfigModal.loadingTools st' !! v)) ∧
  flags_own (LMConfigModal.loadingTools st') (LMConfigContext.url <$> ms).
Proof.
  revert st. induction ms as [|m ms IH]; intros st; simpl.
  - split; [done|]. by intros v ?%elem_of_nil.
  - set (st0 := if JS.string_truthy (LMConfigContext.url m)
                then LMConfigModal.fetchToolsForServer (LMConfigContext.url m) st
                else st).
    destruct (IH st0) as [Hkeep Hown].
    assert (∀ v, is_Some (LMConfigModal.loadingTools st !! v) →
                 is_Some (LMConfigModal.loadingTools st0 !! v)) as Hstep.
    { intros v Hv. subst st0. destruct (JS.string_truthy _); [|done].
      rewrite modal_fetch_loading_flag.
      destruct (decide (LMConfigContext.url m = v)) as [->|Hne].
      - rewrite lookup_insert_eq. by eexists.
      - by rewrite lookup_insert_ne. }
    split; [intros v Hv; by apply Hkeep, Hstep|].
    intros v [->|Hv]%elem_of_cons; [|by apply Hown].
    destruct (LMConfigContext.url m) as [|c rest] eqn:Eu; [by left|]. right.
    apply Hkeep. subst st0. simpl. rewrite modal_fetch_loading_flag.
    rewrite lookup_insert_eq. by eexists.
Qed.

Lemma modal_load_servers_flags (ms : list LMConfigContext.MCPServer)
    (st : LMConfigModal.state) :
  modal_flags (LMConfigModal.load_servers ms st).
Proof.
  unfold modal_flags, LMConfigModal.load_servers, LMConfigModal.urls.
  destruct (fetch_fold_frame ms (LMConfigModal.setLocalMCPServers (λ _, ms) st))
    as (-> & _).
  apply modal_fetch_fold_flags.
Qed.

Lemma session_step_flags (JSON_stringify : JS.value → jsstring)
    (s : LMConfigModal.state * LMConfigContext.state) (a : ModalSession.action) :
  modal_flags s.1 → modal_flags (ModalSession.step JSON_stringify s a).1.
Proof.
  destruct s as [st ctx]. intros H. destruct a; simpl; try done.
  - by apply modal_step_flags.
  - apply modal_load_servers_flags.
  - unfold ModalSession.handleClear.
    destruct (LMConfigModal.activeTab st); simpl; [done|].
    by intros v ?%elem_of_nil.
Qed.

Lemma session_run_flags (JSON_stringify : JS.value → jsstring)
    (acts : list ModalSession.action)
    (s : LMConfigModal.state * LMConfigContext.state) :
  modal_flags s.1 → modal_flags (ModalSession.run JSON_stringify acts s).1.
Proof.
  unfold ModalSession.run. revert s.
  induction acts as [|a acts IH]; intros s H; simpl; [done|].
  by apply IH, session_step_flags.
Qed.

Lemma node_step_flags (st : ModuleNode.state) (e : ModuleNode.event) :
  node_flags st → node_flags (ModuleNode.step st e).
Proof.
  intros H. unfold node_flags. rewrite node_step_servers.
  destruct e as [raw|u|u r|u t|b]; cbn [ModuleNode.step node_change];
    try exact H.
  - unfold ServerList.apply, ModuleNode.addServer, ModuleNode.addMcpServer,
      ModuleNode.already_present. simpl.
    destruct (JS.string_truthy (JS.trim raw) &&
              negb (JS.includes (ModuleNode.mcpServers st) (JS.trim raw)));
      [|exact H].
    rewrite node_fetch_loading_flag. by apply flags_own_snoc.
  - unfold ServerList.apply. apply flags_own_filter. exact H.
  - unfold ModuleNode.fetchToolsForServer_settled.
    case_bool_decide; [|exact H].
    destruct r; simpl; by apply flags_own_insert.
  - destruct (node_toggle_absorb_frame u t st) as (_ & _ & -> & _). exact H.
Qed.

Lemma node_run_flags (evs : list ModuleNode.event) (st : ModuleNode.state) :
  node_flags st → node_flags (ModuleNode.run evs st).
Proof.
  unfold ModuleNode.run. revert st.
  induction evs as [|e evs IH]; intros st H; simpl; [done|].
  by apply IH, node_step_flags.
Qed.

(** A server of the list whose flags are its own shows the loading text
    only while its flag is up. *)
Lemma view_loading_flag (l : gmap jsstring bool) (us : list jsstring)
    (u : jsstring) :
  flags_own l us → u ∈ us → JS.read_truthy l u = true → l !! u = Some true.
Proof.
  intros H Hu Ht. destruct (H u Hu) as [->|[b Hb]].
  - destruct (l !! []) as [b|] eqn:E.
    + by rewrite (read_truthy_own _ _ _ E) in Ht; subst b.
    + rewrite (read_truthy_none _ _ E) in Ht. discriminate Ht.
  - rewrite (read_truthy_own _ _ _ Hb) in Ht. by subst b.
Qed.

(** X3. Whatever happened in the modal (events of the scope, runs of the
    effect, saving, clearing) or in a new node since it was mounted: where a
    server shows "Loading tools...", a request for its url is in flight.
    (Every server of these lists has a loading flag of its own, so the read
    of the flag never finds an inherited member.) *)
Theorem loading_means_in_flight (JSON_stringify : JS.value → jsstring)
    (acts : list ModalSession.action) (ctx : LMConfigContext.state)
    (nevs : list ModuleNode.event) (u : jsstring) :
  let mst := (ModalSession.run JSON_stringify acts (LMConfigModal.init, ctx)).1 in
  let nst := ModuleNode.run nevs ModuleNode.init in
  (ModalSession.tools_view mst u = ViewLoading →
     0 < in_flight u (LMConfigModal.requests mst)) ∧
  (NodeForm.tools_view nst u = ViewLoading →
     0 < in_flight u (ModuleNode.requests nst)).
Proof.
  intros mst nst. split.
  - intros Hv. apply in_flight_pos.
    apply (session_run_loading JSON_stringify acts (LMConfigModal.init, ctx));
      [by intros v; simpl; rewrite lookup_empty|].
    fold mst.
    assert (modal_flags mst) as Hf.
    { apply (session_run_flags JSON_stringify acts (LMConfigModal.init, ctx)).
      by intros v ?%elem_of_nil. }
    unfold ModalSession.tools_view in Hv.
    case_bool_decide as Hin; [|done].
    destruct (JS.read_truthy (LMConfigModal.loadingTools mst) u) eqn:Et.
    + by apply (view_loading_flag _ _ _ Hf Hin).
    + destruct (hasTools _ _); [|done].
      by destruct (JS.read (LMConfigModal.availableTools mst) u).
  - intros Hv. apply in_flight_pos.
    apply (node_run_loading nevs ModuleNode.init);
      [by intros v; simpl; rewrite lookup_empty|].
    fold nst.
    assert (node_flags nst) as Hf.
    { apply (node_run_flags nevs ModuleNode.init). by intros v ?%elem_of_nil. }
    unfold NodeForm.tools_view in Hv.
    case_bool_decide as Hin; [|done].
    destruct (JS.read_truthy (ModuleNode.loadingTools nst) u) eqn:Et.
    + by apply (view_loading_flag _ _ _ Hf Hin).
    + destruct (hasTools _ _); [|done].
      destruct (JS.read (ModuleNode.availableTools nst) u); [|done..].
      by destruct (JS.read (ModuleNode.selectedTools nst) u).
Qed.

(* ===================================================================== *)
(** * Responses *)
(* ===================================================================== *)

(** X2. A response for [u] changes nothing that belongs to another url: the
    lists of servers are kept, and so are the catalog, the loading flag and
    the selection of every other url.  A response that is not a success
    also keeps every catalog and every selection (a catalog fetched before
    stays).  A response for an url with no request in flight changes
    nothing at all.  In both scopes. *)
Theorem settle_touches_own_url (u u' : jsstring) (r : Settled)
    (mst : LMConfigModal.state) (nst : ModuleNode.state) :
  let mst' := LMConfigModal.fetchToolsForServer_settled u r mst in
  let nst' := ModuleNode.fetchToolsForServer_settled u r nst in
  LMConfigModal.localMCPServers mst' = LMConfigModal.localMCPServers mst ∧
  ModuleNode.mcpServers nst' = ModuleNode.mcpServers nst ∧
  (u' ≠ u →
     LMConfigModal.availableTools mst' !! u' = LMConfigModal.availableTools mst !! u' ∧
     LMConfigModal.loadingTools mst' !! u' = LMConfigModal.loadingTools mst !! u' ∧
     ModuleNode.availableTools nst' !! u' = ModuleNode.availableTools nst !! u' ∧
     ModuleNode.selectedTools nst' !! u' = ModuleNode.selectedTools nst !! u' ∧
     ModuleNode.loadingTools nst' !! u' = ModuleNode.loadingTools nst !! u') ∧
  ((∀ tools, r ≠ ResponseOk tools) →
     LMConfigModal.availableTools mst' = LMConfigModal.availableTools mst ∧
     ModuleNode.availableTools nst' = ModuleNode.availableTools nst ∧
     ModuleNode.selectedTools nst' = ModuleNode.selectedTools nst) ∧
  (u ∉ LMConfigModal.requests mst → mst' = mst) ∧
  (u ∉ ModuleNode.requests nst → nst' = nst).
Proof.
  cbn zeta.
  split; [apply modal_settled_servers|]. split; [apply node_settled_servers|].
  unfold LMConfigModal.fetchToolsForServer_settled,
    ModuleNode.fetchToolsForServer_settled.
  split; [|split; [|split]].
  - intros Hne. assert (u ≠ u') as Hne' by congruence.
    do 2 case_bool_decide; destruct r; simpl;
      rewrite ?lookup_insert_ne by done; done.
  - intros Hr. do 2 case_bool_decide; destruct r; simpl; try done;
      by destruct (Hr tools).
  - intros Hn. by rewrite bool_decide_eq_false_2.
  - intros Hn. by rewrite bool_decide_eq_false_2.
Qed.

(** X5. A success response that arrives after its server was removed puts
    the catalog back, in both scopes, and in a node also a selection of all
    its tools, for an url that is not in the list of servers; a save of the
    node then stores a selection for a server the node does not have. *)
Theorem late_response_after_removal (u : jsstring) (tools : list Tool)
    (mst : LMConfigModal.state) (nst : ModuleNode.state) :
  u ∈ LMConfigModal.requests mst →
  u ∈ ModuleNode.requests nst →
  let mst' := LMConfigModal.fetchToolsForServer_settled u (ResponseOk tools)
                (LMConfigModal.removeMCPServer u mst) in
  let nst' := ModuleNode.fetchToolsForServer_settled u (ResponseOk tools)
                (ModuleNode.removeMcpServer u nst) in
  (u ∉ LMConfigModal.urls mst') ∧
  LMConfigModal.availableTools mst' !! u = Some tools ∧
  (u ∉ ModuleNode.mcpServers nst') ∧
  ModuleNode.availableTools nst' !! u = Some tools ∧
  ModuleNode.selectedTools nst' !! u = Some (name <$> tools) ∧
  ∀ id' gs nds node,
    node ∈ (ModuleNode.handleSave id' gs nst' nds).2 → id node = id' →
    ModuleNodeData.selectedTools (data node) !! u = Some (name <$> tools) ∧
    u ∉ ModuleNodeData.mcpServers (data node).
Proof.
  intros Hm Hn mst' nst'.
  assert (u ∉ ModuleNode.mcpServers nst') as Hnot.
  { subst nst'. rewrite node_settled_servers. apply node_remove_gone. }
  assert (ModuleNode.selectedTools nst' !! u = Some (name <$> tools)) as Hsel.
  { subst nst'. unfold ModuleNode.fetchToolsForServer_settled.
    rewrite bool_decide_eq_true_2 by done. simpl.
    by rewrite lookup_insert_eq, tools_copy. }
  split; [|split; [|split; [|split; [|split]]]]; try done.
  - subst mst'. unfold LMConfigModal.urls. rewrite modal_settled_servers.
    apply modal_remove_gone.
  - subst mst'. unfold LMConfigModal.fetchToolsForServer_settled.
    rewrite bool_decide_eq_true_2 by done. simpl.
    by rewrite lookup_insert_eq, tools_copy.
  - subst nst'. unfold ModuleNode.fetchToolsForServer_settled.
    rewrite bool_decide_eq_true_2 by done. simpl.
    by rewrite lookup_insert_eq, tools_copy.
  - intros id' gs nds node Hin Hid.
    destruct (handleSave_data _ _ _ _ _ Hin Hid) as [old ->]. done.
Qed.

Lemma late_response_after_removal_witness :
  let u := js "http://a" in
  let tools := [mkTool (js "search") (js "web search")] in
  let mst := LMConfigModal.addServer u LMConfigModal.init in
  let nst := ModuleNode.addServer u ModuleNode.init in
  let mst' := LMConfigModal.fetchToolsForServer_settled u (ResponseOk tools)
                (LMConfigModal.removeMCPServer u mst) in
  let nst' := ModuleNode.fetchToolsForServer_settled u (ResponseOk tools)
                (ModuleNode.removeMcpServer u nst) in
  (u ∉ LMConfigModal.urls mst') ∧
  LMConfigModal.availableTools mst' !! u = Some tools ∧
  (u ∉ ModuleNode.mcpServers nst') ∧
  ModuleNode.availableTools nst' !! u = Some tools ∧
  ModuleNode.selectedTools nst' !! u = Some (name <$> tools) ∧
  ∀ id' gs nds node,
    node ∈ (ModuleNode.handleSave id' gs nst' nds).2 → id node = id' →
    ModuleNodeData.selectedTools (data node) !! u = Some (name <$> tools) ∧
    u ∉ ModuleNodeData.mcpServers (data node).
Proof.
  cbn zeta.
  apply (late_response_after_removal (js "http://a")
           [mkTool (js "search") (js "web search")]
           (LMConfigModal.addServer (js "http://a") LMConfigModal.init)
           (ModuleNode.addServer (js "http://a") ModuleNode.init)).
  - apply list_elem_of_singleton. reflexivity.
  - apply list_elem_of_singleton. reflexivity.
Defined.

(** ** What an added server shows *)












(** The same for a server [constructor] whose request fails, and for a url
    that is a lone surrogate. *)
Example view_of_added_server_examples :
  let view_m raw r :=
    ModalSession.tools_view
      (LMConfigModal.fetchToolsForServer_settled (JS.trim raw) r
         (LMConfigModal.addServer raw LMConfigModal.init)) (JS.trim raw) in
  let view_n raw r :=
    NodeForm.tools_view
      (ModuleNode.fetchToolsForServer_settled (JS.trim raw) r
         (ModuleNode.addServer raw ModuleNode.init)) (JS.trim raw) in
  view_m (js "constructor") Rejected = ViewThrows ∧
  view_n (js "constructor") ResponseNotOk = ViewThrows ∧
  view_m (js "toString") Rejected = ViewNoTools ∧
  view_m (js "http://a") Rejected = ViewNoTools ∧
  view_n (js "http://a") Rejected = ViewNothing ∧
  ModalSession.tools_view
    (LMConfigModal.addServer [0xD800%N] LMConfigModal.init) [0xD800%N] = ViewNoTools ∧
  LMConfigModal.requests (LMConfigModal.addServer [0xD800%N] LMConfigModal.init) = [].
Proof. cbn zeta. repeat split; vm_compute; reflexivity. Qed.

(* ===================================================================== *)
(** * The effect that loads the servers *)
(* ===================================================================== *)

Lemma fetch_fold_in_flight (u : jsstring) (ms : list LMConfigContext.MCPServer)
    (st : LMConfigModal.state) :
  in_flight u
    (LMConfigModal.requests
       (foldl (λ st server,
                 if JS.string_truthy (LMConfigContext.url server)
                 then LMConfigModal.fetchToolsForServer
                        (LMConfigContext.url server) st
                 else st) st ms)) =
  in_flight u (LMConfigModal.requests st) +
    (if JS.string_truthy u && JS.isWellFormed u
     then length (filter (λ s, LMConfigContext.url s = u) ms) else 0).
Proof.
  revert st. induction ms as [|m ms IH]; intros st; simpl.
  - destruct (_ && _); simpl; lia.
  - rewrite IH. rewrite filter_cons.
    destruct (JS.string_truthy (LMConfigContext.url m)) eqn:Em.
    + rewrite modal_fetch_requests, in_flight_sent.
      destruct (decide (LMConfigContext.url m = u)) as [<-|Hne].
      * rewrite Em, bool_decide_eq_true_2, andb_true_r by done. simpl.
        destruct (JS.isWellFormed _); simpl; lia.
      * rewrite bool_decide_eq_false_2, andb_false_r by done.
        destruct (_ && _); lia.
    + destruct (decide (LMConfigContext.url m = u)) as [<-|Hne].
      * rewrite Em. simpl. lia.
      * destruct (_ && _); lia.
Qed.

Lemma fetch_fold_loading_kept (u : jsstring) (ms : list LMConfigContext.MCPServer)
    (st : LMConfigModal.state) :
  LMConfigModal.loadingTools st !! u = Some (JS.isWellFormed u) →
  LMConfigModal.loadingTools
    (foldl (λ st server,
              if JS.string_truthy (LMConfigContext.url server)
              then LMConfigModal.fetchToolsForServer
                     (LMConfigContext.url server) st
              else st) st ms) !! u = Some (JS.isWellFormed u).
Proof.
  revert st. induction ms as [|m ms IH]; intros st H; simpl; [done|].
  apply IH. destruct (JS.string_truthy _); [|done].
  rewrite modal_fetch_loading_flag.
  destruct (decide (LMConfigContext.url m = u)) as [->|Hne].
  - apply lookup_insert_eq.
  - by rewrite lookup_insert_ne.
Qed.

Lemma fetch_fold_loading (u : jsstring) (ms : list LMConfigContext.MCPServer)
    (st : LMConfigModal.state) :
  u ≠ [] → u ∈ LMConfigContext.url <$> ms →
  LMConfigModal.loadingTools
    (foldl (λ st server,
              if JS.string_truthy (LMConfigContext.url server)
              then LMConfigModal.fetchToolsForServer
                     (LMConfigContext.url server) st
              else st) st ms) !! u = Some (JS.isWellFormed u).
Proof.
  intros Hne. revert st. induction ms as [|m ms IH]; intros st; csimpl.
  - by intros ?%elem_of_nil.
  - intros [->|Hin]%elem_of_cons; [|by apply IH].
    apply fetch_fold_loading_kept. apply string_truthy_true in Hne.
    rewrite Hne, modal_fetch_loading_flag. apply lookup_insert_eq.
Qed.

(** X8. The effect replaces the draft of the modal by the servers of the
    context, whatever was edited and not saved, and keeps the catalogs.  For
    every server whose url is not empty it starts a fetch: when
    [encodeURIComponent] accepts the url, one request goes out, on top of
    those in flight, and the url is marked as loading; when it rejects the
    url, no request goes out and the flag of the url is down. *)
Theorem load_servers_resets_draft (ms : list LMConfigContext.MCPServer)
    (st : LMConfigModal.state) (u : jsstring) :
  let st' := LMConfigModal.load_servers ms st in
  LMConfigModal.localMCPServers st' = ms ∧
  LMConfigModal.availableTools st' = LMConfigModal.availableTools st ∧
  in_flight u (LMConfigModal.requests st') =
    in_flight u (LMConfigModal.requests st) +
      (if JS.string_truthy u && JS.isWellFormed u
       then length (filter (λ s, LMConfigContext.url s = u) ms) else 0) ∧
  (u ≠ [] → u ∈ LMConfigContext.url <$> ms →
     LMConfigModal.loadingTools st' !! u = Some (JS.isWellFormed u)).
Proof.
  cbn zeta. unfold LMConfigModal.load_servers.
  destruct (fetch_fold_frame ms (LMConfigModal.setLocalMCPServers (λ _, ms) st))
    as (H1 & H2 & _).
  split; [by rewrite H1|]. split; [by rewrite H2|].
  split; [by rewrite fetch_fold_in_flight | apply fetch_fold_loading].
Qed.

(** The effect on a context with the server [http://a] twice, the empty
    url, and a lone surrogate: two requests for [http://a], none for the
    others. *)
Example load_servers_examples :
  let a := js "http://a" in
  let lone := [0xD800%N] in
  let ms := [LMConfigContext.mkMCPServer a []; LMConfigContext.mkMCPServer [] [];
             LMConfigContext.mkMCPServer lone []; LMConfigContext.mkMCPServer a []] in
  let st' := LMConfigModal.load_servers ms LMConfigModal.init in
  LMConfigModal.requests st' = [a; a] ∧
  LMConfigModal.loadingTools st' !! a = Some true ∧
  LMConfigModal.loadingTools st' !! lone = Some false ∧
  LMConfigModal.loadingTools st' !! [] = None.
Proof. cbn zeta. repeat split; vm_compute; reflexivity. Qed.

(* ===================================================================== *)
(** * Selections *)
(* ===================================================================== *)

Lemma toggle_list_twice (t : jsstring) (tools : list jsstring) :
  let once := LMConfigModal.toggle_in t tools in
  let twice := LMConfigModal.toggle_in t once in
  (∀ x, x ∈ twice ↔ x ∈ tools) ∧
  (t ∉ tools → twice = tools) ∧
  (t ∈ tools → twice = filter (λ x, x ≠ t) tools ++ [t]) ∧
  (NoDup tools → NoDup once).
Proof.
  cbn zeta. unfold LMConfigModal.toggle_in.
  destruct (JS.includes tools t) eqn:E.
  - apply includes_true in E.
    assert (JS.includes (filter (λ x, x ≠ t) tools) t = false) as ->.
    { apply includes_false. rewrite list_elem_of_filter. tauto. }
    split; [|split; [done | split; [done | by apply NoDup_filter]]].
    intros x. rewrite elem_of_app, list_elem_of_filter, list_elem_of_singleton.
    destruct (decide (x = t)) as [->|]; tauto.
  - apply includes_false in E.
    assert (JS.includes (tools ++ [t]) t = true) as ->.
    { apply includes_true, elem_of_app. right. by left. }
    assert (filter (λ x, x ≠ t) (tools ++ [t]) = tools) as Hf.
    { rewrite filter_app, filter_cons, filter_nil.
      rewrite decide_False by (by intros H; apply H).
      rewrite app_nil_r. clear -E.
      induction tools as [|x l IH]; [done|].
      apply not_elem_of_cons in E as [Hx Hl].
      rewrite filter_cons, decide_True by done. by rewrite IH. }
    rewrite Hf. split; [done|]. split; [done|]. split; [done|].
    intros Hnd. apply NoDup_app. split; [done|]. split; [|apply NoDup_singleton].
    intros x Hx ->%list_elem_of_singleton. done.
Qed.

(** X6. Toggling a tool twice leaves the same tools selected: when the tool
    was not selected the selection is the same list again, otherwise the
    tool has moved to the end.  A toggle keeps a selection free of
    duplicates.  In the modal this holds for every server of the draft.  In
    a node it holds for the selection of the url whenever the handler does
    not throw; the handler throws, at the first toggle, exactly for an url
    that has no selection and names a member of [Object.prototype]. *)
Theorem toggle_twice (u t : jsstring) (nst : ModuleNode.state)
    (mst : LMConfigModal.state) :
  let sel st := default [] (ModuleNode.selectedTools st !! u) in
  let mst1 := LMConfigModal.toggleToolSelection u t mst in
  let mst2 := LMConfigModal.toggleToolSelection u t mst1 in
  (ModuleNode.selectedTools nst !! u = None → JS.inherited u = true →
   ModuleNode.toggleToolSelection u t nst = inl JS.TypeError) ∧
  ((ModuleNode.selectedTools nst !! u = None → JS.inherited u = false) →
   ∃ nst1 nst2,
     ModuleNode.toggleToolSelection u t nst = inr nst1 ∧
     ModuleNode.toggleToolSelection u t nst1 = inr nst2 ∧
     (∀ x, x ∈ sel nst2 ↔ x ∈ sel nst) ∧
     (t ∉ sel nst → sel nst2 = sel nst) ∧
     (t ∈ sel nst → sel nst2 = filter (λ x, x ≠ t) (sel nst) ++ [t]) ∧
     (NoDup (sel nst) → NoDup (sel nst1))) ∧
  LMConfigModal.urls mst2 = LMConfigModal.urls mst ∧
  (∀ i server,
     LMConfigModal.localMCPServers mst !! i = Some server →
     ∃ server1 server2,
       LMConfigModal.localMCPServers mst1 !! i = Some server1 ∧
       LMConfigModal.localMCPServers mst2 !! i = Some server2 ∧
       (∀ x, x ∈ LMConfigContext.selectedTools server2
             ↔ x ∈ LMConfigContext.selectedTools server) ∧
       (t ∉ LMConfigContext.selectedTools server → server2 = server) ∧
       (LMConfigContext.url server = u →
        t ∈ LMConfigContext.selectedTools server →
        LMConfigContext.selectedTools server2 =
          filter (λ x, x ≠ t) (LMConfigContext.selectedTools server) ++ [t]) ∧
       (LMConfigContext.url server ≠ u → server2 = server) ∧
       (NoDup (LMConfigContext.selectedTools server) →
        NoDup (LMConfigContext.selectedTools server1))).
Proof.
  cbn zeta.
  split; [apply node_toggle_throws|]. split; [|split].
  - intros Hok.
    destruct (toggle_list_twice t (default [] (ModuleNode.selectedTools nst !! u)))
      as (H1 & H2 & H3 & H4).
    do 2 eexists. split; [by apply node_toggle_ok|]. split.
    { apply node_toggle_ok. simpl. by rewrite lookup_insert_eq. }
    simpl. rewrite !lookup_insert_eq. simpl. done.
  - unfold LMConfigModal.urls. simpl. rewrite !fmap_url_keep; [done|..];
      intros s; by destruct (JS.str_eq _ _).
  - intros i [su ts] Hi. simpl. rewrite !list_lookup_fmap, Hi. simpl.
    do 2 eexists. split; [done|]. split; [done|].
    destruct (JS.str_eq su u) eqn:E; simpl; rewrite E.
    + destruct (toggle_list_twice t ts) as (G1 & G2 & G3 & G4). simpl.
      split; [exact G1|]. split; [intros Ht; by rewrite (G2 Ht)|].
      split; [intros _; exact G3|]. split; [|exact G4].
      apply str_eq_true in E. done.
    + apply str_eq_false in E. repeat split; try done.
Qed.

(** The tool [t] of the selection [[a; t; b]], toggled twice, has moved to
    the end; and the first toggle of the server [constructor] of a new node
    throws. *)
Example toggle_twice_examples :
  let u := js "http://a" in
  let a := js "a" in let b := js "b" in let t := js "t" in
  LMConfigModal.toggle_in t (LMConfigModal.toggle_in t [a; t; b]) = [a; b; t] ∧
  LMConfigModal.toggle_in t (LMConfigModal.toggle_in t [a; b]) = [a; b] ∧
  ModuleNode.toggleToolSelection (js "constructor") t ModuleNode.init =
    inl JS.TypeError.
Proof. cbn zeta. repeat split; vm_compute; reflexivity. Qed.






(* ===================================================================== *)
(** * Saving a node and opening it again *)
(* ===================================================================== *)

(** X1. [handleSave] keeps the ids and the order of the nodes, keeps every
    node with another id as it is, and gives every node with the id the
    data of the editor while keeping the fields of its data that the editor
    does not hold.  Saving twice is saving once, and with no node of that id
    nothing changes. *)
Theorem handleSave_frame (id' : jsstring)
    (gs : list LMConfigContext.MCPServer) (st : ModuleNode.state)
    (nds : list Node) :
  let nds' := (ModuleNode.handleSave id' gs st nds).2 in
  id <$> nds' = id <$> nds ∧
  (∀ i node, nds !! i = Some node →
     nds' !! i = Some (if JS.str_eq (id node) id'
                       then {| id := id node;
                               data := ModuleNode.nodeDataToSave st gs (data node) |}
                       else node)) ∧
  (∀ node, node ∈ nds' → id node = id' →
     ∃ old, old ∈ nds ∧
       ModuleNodeData.other (data node) = ModuleNodeData.other (data old)) ∧
  (ModuleNode.handleSave id' gs st nds').2 = nds' ∧
  (id' ∉ id <$> nds → nds' = nds).
Proof.
  cbn zeta. simpl. split; [|split; [|split; [|split]]].
  - rewrite <- list_fmap_compose. apply list_fmap_ext. intros i n _. simpl.
    by destruct (JS.str_eq _ _).
  - intros i node Hi. by rewrite list_lookup_fmap, Hi.
  - intros node (n0 & -> & Hin)%list_elem_of_fmap Hid. exists n0.
    split; [done|]. by destruct (JS.str_eq _ _).
  - rewrite <- list_fmap_compose. apply list_fmap_ext. intros i n _. simpl.
    destruct (JS.str_eq (id n) id') eqn:E; simpl; by rewrite E.
  - intros Hn. induction nds as [|n nds IH]; csimpl; [done|].
    csimpl in Hn. apply not_elem_of_cons in Hn as [Hx Hl].
    assert (JS.str_eq (id n) id' = false) as ->
      by (apply str_eq_false; congruence).
    by rewrite IH.
Qed.

(** X18. Opening the editor on the data a save stored restores what was
    saved: the model, the instruction, the parameters, the servers, the
    flag and the selections are those of the editor that saved, the label
    too unless it was empty (then it is the name of the module type), the
    iterations too unless they were [0] (then 5).  The catalogs are gone and
    no request is sent: the editor starts with no catalog, no loading flag
    and nothing in flight.  An expanded server of the list then shows
    nothing, except a server whose url names a member of [Object.prototype]:
    the read of its loading flag finds that member, and the server shows
    "Loading tools...". *)
Theorem mount_after_save (st : ModuleNode.state)
    (gs : list LMConfigContext.MCPServer) (old : ModuleNodeData.t) :
  let st' := NodeForm.mount (ModuleNode.nodeDataToSave st gs old) in
  ModuleNode.nodeLabel st' =
    (if JS.string_truthy (ModuleNode.nodeLabel st) then ModuleNode.nodeLabel st
     else NodeForm.ModuleType_name (ModuleNode.moduleType st)) ∧
  ModuleNode.maxIters st' =
    (if (ModuleNode.maxIters st =? 0)%Z then 5%Z else ModuleNode.maxIters st) ∧
  ModuleNode.moduleType st' = ModuleNode.moduleType st ∧
  ModuleNode.model st' = ModuleNode.model st ∧
  ModuleNode.instruction st' = ModuleNode.instruction st ∧
  ModuleNode.parameters st' = ModuleNode.parameters st ∧
  ModuleNode.mcpServers st' = ModuleNode.mcpServers st ∧
  ModuleNode.useGlobalMcpServers st' = ModuleNode.useGlobalMcpServers st ∧
  ModuleNode.selectedTools st' = ModuleNode.selectedTools st ∧
  ModuleNode.availableTools st' = ∅ ∧
  ModuleNode.loadingTools st' = ∅ ∧
  ModuleNode.requests st' = [] ∧
  ∀ u, NodeForm.tools_view st' u =
         if bool_decide (u ∈ ModuleNode.mcpServers st) && JS.inherited u
         then ViewLoading else ViewNothing.
Proof.
  cbn zeta. simpl. repeat split.
  - destruct (JS.string_truthy (ModuleNode.nodeLabel st)); [done|].
    by destruct (ModuleNode.moduleType st).
  - by destruct (ModuleNode.moduleType st).
  - by destruct (ModuleNode.model st).
  - by destruct (ModuleNode.instruction st).
  - by rewrite orb_false_r.
  - intros u. unfold NodeForm.tools_view. simpl.
    case_bool_decide; [|done]. simpl.
    rewrite read_truthy_none by apply lookup_empty.
    destruct (JS.inherited u) eqn:E; [done|].
    unfold hasTools. by rewrite read_absent by (done || apply lookup_empty).
Qed.

(** A node saved with the servers [http://a] and [constructor], opened
    again. *)
Example mount_after_save_examples :
  let st := ModuleNode.setMcpServers [js "http://a"; js "constructor"]
              ModuleNode.init in
  let st' := NodeForm.mount
               (ModuleNode.nodeDataToSave st [] (data (Scenario.node_N false []))) in
  NodeForm.tools_view st' (js "http://a") = ViewNothing ∧
  NodeForm.tools_view st' (js "constructor") = ViewLoading ∧
  NodeForm.tools_view st' (js "toString") = ViewNothing ∧
  ModuleNode.requests st' = [].
Proof. cbn zeta. repeat split; vm_compute; reflexivity. Qed.

(* ===================================================================== *)
(** * The modal and the context *)
(* ===================================================================== *)

Lemma setGlobalLMConfig_in_sync (JSON_stringify : JS.value → jsstring)
    (c : option LMConfigContext.LMConfig) (ctx : LMConfigContext.state) :
  ModalSession.in_sync JSON_stringify
    (LMConfigContext.setGlobalLMConfig JSON_stringify c ctx).
Proof. unfold ModalSession.in_sync. simpl. apply lookup_insert_eq. Qed.

Lemma setMCPServers_in_sync (JSON_stringify : JS.value → jsstring)
    (ms : list LMConfigContext.MCPServer) (ctx : LMConfigContext.state) :
  ModalSession.in_sync JSON_stringify
    (LMConfigContext.setMCPServers JSON_stringify ms ctx).
Proof. unfold ModalSession.in_sync. simpl. apply lookup_insert_eq. Qed.

Lemma session_step_context (JSON_stringify : JS.value → jsstring)
    (s : LMConfigModal.state * LMConfigContext.state) (a : ModalSession.action) :
  (ModalSession.step JSON_stringify s a).2 = s.2 ∨
  ModalSession.in_sync JSON_stringify (ModalSession.step JSON_stringify s a).2.
Proof.
  destruct s as [st ctx]. destruct a; simpl; try (by left).
  - unfold LMConfigModal.handleSave. destruct (LMConfigModal.activeTab st).
    + destruct (negb _); [by left | right; apply setGlobalLMConfig_in_sync].
    + right. apply setMCPServers_in_sync.
  - right. unfold ModalSession.handleClear.
    destruct (LMConfigModal.activeTab st); simpl;
      [apply setGlobalLMConfig_in_sync | apply setMCPServers_in_sync].
Qed.

Lemma session_run_in_sync (JSON_stringify : JS.value → jsstring)
    (acts : list ModalSession.action)
    (s : LMConfigModal.state * LMConfigContext.state) :
  ModalSession.in_sync JSON_stringify s.2 →
  ModalSession.in_sync JSON_stringify (ModalSession.run JSON_stringify acts s).2.
Proof.
  unfold ModalSession.run. revert s.
  induction acts as [|a acts IH]; intros s H; simpl; [done|].
  apply IH. destruct (session_step_context JSON_stringify s a) as [-> | ?]; done.
Qed.

(** X12. An action of the modal leaves the context, in memory and in the
    storage, exactly as it is, or leaves the stored text equal to the text
    of the configuration in memory.  Only saving and clearing change the
    context, and saving the language-model tab with a blank model name
    changes nothing.  So once the stored text is the one of the memory, it
    stays so along every sequence of actions. *)
Theorem storage_follows_memory (JSON_stringify : JS.value → jsstring)
    (acts : list ModalSession.action) (a : ModalSession.action)
    (s : LMConfigModal.state * LMConfigContext.state) :
  let s' := ModalSession.step JSON_stringify s a in
  (s'.2 = s.2 ∨ ModalSession.in_sync JSON_stringify s'.2) ∧
  (a ≠ ModalSession.Save → a ≠ ModalSession.Clear → s'.2 = s.2) ∧
  (a = ModalSession.Save → LMConfigModal.activeTab s.1 = LMConfigModal.TabLM →
   JS.trim (LMConfigModal.modelName s.1) = [] → s' = s) ∧
  (a = ModalSession.Clear → ModalSession.in_sync JSON_stringify s'.2) ∧
  (ModalSession.in_sync JSON_stringify s.2 →
   ModalSession.in_sync JSON_stringify
     (ModalSession.run JSON_stringify acts s).2).
Proof.
  cbn zeta. split; [apply session_step_context|].
  split; [|split; [|split; [|apply session_run_in_sync]]].
  - intros H1 H2. destruct s as [st ctx]. by destruct a.
  - intros -> Htab Hblank. destruct s as [st ctx]. simpl in *.
    unfold LMConfigModal.handleSave. by rewrite Htab, Hblank.
  - intros ->. destruct s as [st ctx]. simpl. unfold ModalSession.handleClear.
    destruct (LMConfigModal.activeTab st); simpl;
      [apply setGlobalLMConfig_in_sync | apply setMCPServers_in_sync].
Qed.

(** X13. After any sequence of actions of the modal that started with the
    stored text equal to the text of the memory, mounting the provider
    again on that storage (a reload of the page) gives the language model
    and the servers that were in memory, when [JSON.parse] reads the
    text of that configuration back as it was printed. *)
Theorem reload_restores_memory (JSON_parse : jsstring → JS.exn + JS.value)
    (JSON_stringify : JS.value → jsstring)
    (acts : list ModalSession.action)
    (s : LMConfigModal.state * LMConfigContext.state) :
  let ctx' := (ModalSession.run JSON_stringify acts s).2 in
  let config := LMConfigContext.GlobalConfig_value
                  (LMConfigContext.globalLMConfig ctx')
                  (LMConfigContext.mcpServers ctx') in
  ModalSession.in_sync JSON_stringify s.2 →
  JSON_parse (JSON_stringify config) = inr config →
  JSON_stringify config ≠ [] →
  LMConfigContext.load JSON_parse (LMConfigContext.localStorage ctx')
    LMConfigContext.mount_init =
    JS.Normal tt (LMConfigContext.mounted (LMConfigContext.globalLMConfig ctx')
                    (LMConfigContext.mcpServers ctx') []).
Proof.
  intros ctx' config Hsync Hp Hne.
  pose proof (session_run_in_sync JSON_stringify acts s Hsync) as H.
  fold ctx' in H. unfold ModalSession.in_sync in H. fold config in H.
  rewrite (load_parsed JSON_parse _ _ (JSON_stringify config) config
             (LMConfigContext.LMConfig_value (LMConfigContext.globalLMConfig ctx'))
             (LMConfigContext.MCPServers_value (LMConfigContext.mcpServers ctx')));
    [| done..].
  by rewrite or_LMConfig_value, or_MCPServers_value.
Qed.

Lemma reload_restores_memory_witness :
  let s := (LMConfigModal.init,
            LMConfigContext.setMCPServers MiniJSON.stringify
              [Scenario.server_a [js "search"]] Scenario.context) in
  let acts :=
    [ModalSession.Effect [(js "openai", true)];
     ModalSession.Act (LMConfigModal.AddServer (js "http://b"));
     ModalSession.SelectTab LMConfigModal.TabMCP;
     ModalSession.Save] in
  let ctx' := (ModalSession.run MiniJSON.stringify acts s).2 in
  LMConfigContext.load MiniJSON.parse (LMConfigContext.localStorage ctx')
    LMConfigContext.mount_init =
    JS.Normal tt (LMConfigContext.mounted (LMConfigContext.globalLMConfig ctx')
                    (LMConfigContext.mcpServers ctx') []).
Proof.
  cbn zeta.
  apply (reload_restores_memory MiniJSON.parse MiniJSON.stringify
           [ModalSession.Effect [(js "openai", true)];
            ModalSession.Act (LMConfigModal.AddServer (js "http://b"));
            ModalSession.SelectTab LMConfigModal.TabMCP;
            ModalSession.Save]
           (LMConfigModal.init,
            LMConfigContext.setMCPServers MiniJSON.stringify
              [Scenario.server_a [js "search"]] Scenario.context)).
  - apply setMCPServers_in_sync.
  - vm_compute. reflexivity.
  - vm_compute. discriminate.
Defined.

Example reload_restores_memory_servers :
  LMConfigContext.mcpServers
    (ModalSession.run MiniJSON.stringify
       [ModalSession.Effect [(js "openai", true)];
        ModalSession.Act (LMConfigModal.AddServer (js "http://b"));
        ModalSession.SelectTab LMConfigModal.TabMCP;
        ModalSession.Save]
       (LMConfigModal.init,
        LMConfigContext.setMCPServers MiniJSON.stringify
          [Scenario.server_a [js "search"]] Scenario.context)).2
  = [Scenario.server_a [js "search"]; LMConfigContext.mkMCPServer (js "http://b") []].
Proof. vm_compute. reflexivity. Qed.

Lemma effect_form (ctx : LMConfigContext.state)
    (availableProviders : list (jsstring * bool)) (st : LMConfigModal.state)
    (c : LMConfigContext.LMConfig) :
  LMConfigContext.globalLMConfig ctx = Some c →
  let st' := ModalSession.effect ctx availableProviders st in
  LMConfigModal.selectedProvider st' = LMConfigContext.provider c ∧
  LMConfigModal.modelName st' = LMConfigContext.modelName c ∧
  LMConfigModal.activeTab st' = LMConfigModal.activeTab st.
Proof.
  intros Hc. cbn zeta. unfold ModalSession.effect, LMConfigModal.load_servers.
  rewrite Hc.
  destruct (fetch_fold_frame (LMConfigContext.mcpServers ctx)
              (LMConfigModal.setLocalMCPServers
                 (λ _, LMConfigContext.mcpServers ctx)
                 (ModalSession.load_lm (Some c) availableProviders st)))
    as (_ & _ & _ & -> & -> & ->).
  done.
Qed.

(** X10. Saving the language-model tab stores the model name with the
    provider and a slash in front.  The effect then puts that stored name
    back into the field, so saving again without touching the field puts
    the provider in front a second time: after [openai] and [gpt-4] the
    first save stores [openai/gpt-4] and the second [openai/openai/gpt-4]. *)
Theorem save_twice_prefixes_twice (JSON_stringify : JS.value → jsstring)
    (availableProviders : list (jsstring * bool))
    (st : LMConfigModal.state) (ctx : LMConfigContext.state) :
  LMConfigModal.activeTab st = LMConfigModal.TabLM →
  JS.trim (LMConfigModal.modelName st) ≠ [] →
  let p := LMConfigModal.selectedProvider st in
  let m := JS.trim (LMConfigModal.modelName st) in
  let ctx1 := LMConfigModal.handleSave JSON_stringify st ctx in
  let st1 := ModalSession.effect ctx1 availableProviders st in
  let ctx2 := LMConfigModal.handleSave JSON_stringify st1 ctx1 in
  LMConfigContext.globalLMConfig ctx1 =
    Some (LMConfigContext.mkLMConfig p (p ++ js "/" ++ m)) ∧
  LMConfigContext.globalLMConfig ctx2 =
    Some (LMConfigContext.mkLMConfig p
            (p ++ js "/" ++ JS.trimStart p ++ js "/" ++ m)).
Proof.
  intros Htab Hne p m ctx1 st1 ctx2.
  assert (LMConfigContext.globalLMConfig ctx1 =
            Some (LMConfigContext.mkLMConfig p (p ++ js "/" ++ m))) as H1.
  { subst ctx1. unfold LMConfigModal.handleSave. rewrite Htab.
    apply string_truthy_true in Hne. by rewrite Hne. }
  split; [done|].
  destruct (effect_form ctx1 availableProviders st _ H1) as (Hp & Hm & Ht).
  fold st1 in Hp, Hm, Ht.
  cbn [LMConfigContext.provider LMConfigContext.modelName] in Hp, Hm.
  subst ctx2. unfold LMConfigModal.handleSave. rewrite Ht, Htab, Hp, Hm.
  assert (JS.trim (p ++ js "/" ++ m) = JS.trimStart p ++ js "/" ++ m) as ->
    by (apply (trim_app_trimmed p _ 47%N); reflexivity).
  assert (JS.string_truthy (JS.trimStart p ++ js "/" ++ m) = true) as ->.
  { apply string_truthy_true. by destruct (JS.trimStart p). }
  done.
Qed.

Lemma save_twice_prefixes_twice_witness :
  let st := ModalSession.setModelName (js "gpt-4")
              (ModalSession.setSelectedProvider (js "openai") LMConfigModal.init) in
  let ctx := Scenario.context in
  let ctx1 := LMConfigModal.handleSave MiniJSON.stringify st ctx in
  let st1 := ModalSession.effect ctx1 [] st in
  let ctx2 := LMConfigModal.handleSave MiniJSON.stringify st1 ctx1 in
  LMConfigContext.globalLMConfig ctx1 =
    Some (LMConfigContext.mkLMConfig (js "openai") (js "openai/gpt-4")) ∧
  LMConfigContext.globalLMConfig ctx2 =
    Some (LMConfigContext.mkLMConfig (js "openai") (js "openai/openai/gpt-4")).
Proof.
  cbn zeta.
  apply (save_twice_prefixes_twice MiniJSON.stringify []
           (ModalSession.setModelName (js "gpt-4")
              (ModalSession.setSelectedProvider (js "openai") LMConfigModal.init))
           Scenario.context).
  - reflexivity.
  - discriminate.
Defined.

(* ===================================================================== *)
(** * The providers *)
(* ===================================================================== *)

Lemma find_first {A : Type} (f : A → bool) (pre post : list A) (x : A) :
  (∀ y, y ∈ pre → f y = false) → f x = true →
  find f (pre ++ x :: post) = Some x.
Proof.
  intros Hpre Hx. induction pre as [|y pre IH]; simpl; [by rewrite Hx|].
  rewrite (Hpre y) by (by left). apply IH. intros z Hz. apply Hpre. by right.
Qed.

(** X11. The provider the effect selects when no global model is set is
    never the empty text, and it is [databricks] or a provider the server
    reported as available: [databricks] when that one is available or when
    none is, otherwise the first available provider in the order of the
    answer (when its name is not empty). *)
Theorem default_provider_choice (availableProviders : list (jsstring * bool)) :
  let d := Providers.defaultProvider availableProviders in
  d ≠ [] ∧
  (d = js "databricks" ∨ Providers.available availableProviders d = true) ∧
  (Providers.available availableProviders (js "databricks") = true →
     d = js "databricks") ∧
  ((∀ p, Providers.available availableProviders p = false) →
     d = js "databricks") ∧
  (∀ pre p b post,
     availableProviders = pre ++ (p, b) :: post →
     Providers.available availableProviders (js "databricks") = false →
     (∀ q, q ∈ pre.*1 → Providers.available availableProviders q = false) →
     Providers.available availableProviders p = true → p ≠ [] →
     d = p).
Proof.
  cbn zeta. unfold Providers.defaultProvider.
  destruct (Providers.available availableProviders (js "databricks")) eqn:Ed.
  { split; [done|]. split; [by left|]. split; [done|]. split; [done|].
    intros; discriminate. }
  destruct (find _ (availableProviders.*1)) as [p|] eqn:Ef.
  - destruct (find_some _ _ Ef) as [_ Hp].
    destruct (JS.string_truthy p) eqn:Et.
    + split; [by apply string_truthy_true|]. split; [by right|].
      split; [done|]. split; [intros Hall; by rewrite Hall in Hp|].
      intros pre p' b post -> _ Hpre Hp' Hne.
      rewrite fmap_app, fmap_cons in Ef. simpl in Ef.
      rewrite (find_first _ _ _ p') in Ef by done. by injection Ef as ->.
    + split; [done|]. split; [by left|]. split; [done|]. split; [done|].
      intros pre p' b post -> _ Hpre Hp' Hne.
      rewrite fmap_app, fmap_cons in Ef. simpl in Ef.
      rewrite (find_first _ _ _ p') in Ef by done. injection Ef as ->.
      apply string_truthy_true in Hne. congruence.
  - split; [done|]. split; [by left|]. split; [done|]. split; [done|].
    intros pre p' b post -> _ Hpre Hp' Hne.
    rewrite fmap_app, fmap_cons in Ef. simpl in Ef.
    rewrite (find_first _ _ _ p') in Ef by done. discriminate Ef.
Qed.

Lemma find_option (provider : jsstring) (l : list Providers.option_) :
  match find (λ p, JS.str_eq (Providers.value p) provider) l with
  | Some o => o ∈ l ∧ Providers.value o = provider
  | None => provider ∉ Providers.value <$> l
  end.
Proof.
  induction l as [|o l IH]; csimpl; [by intros ?%elem_of_nil|].
  destruct (JS.str_eq (Providers.value o) provider) eqn:E.
  - apply str_eq_true in E. split; [by left | done].
  - apply str_eq_false in E.
    destruct (find _ l) as [o'|].
    + destruct IH as [Hin Hv]. split; [by right | done].
    + intros [Heq|Hin]%elem_of_cons; [congruence | done].
Qed.

(** X17. [getProviderInfo] answers for the five providers of the select box
    and for no other name.  The status is green exactly when the server
    reported the provider as configured, and it never reads "Available":
    the only provider that needs no key is databricks, which has its own
    texts. *)
Theorem provider_info_cases (availableProviders : list (jsstring * bool))
    (provider : jsstring) :
  (Providers.getProviderInfo availableProviders provider = None ↔
     provider ∉ Providers.value <$> Providers.PROVIDER_OPTIONS) ∧
  ∀ i, Providers.getProviderInfo availableProviders provider = Some i →
    (Providers.statusColor i = js "text-green-600" ↔
       Providers.isProviderConfigured availableProviders provider = true) ∧
    Providers.statusText i ≠ js "Available" ∧
    (Providers.statusText i = js "Configured" ∨
     Providers.statusText i = js "API Key Configured" ↔
       Providers.isProviderConfigured availableProviders provider = true).
Proof.
  unfold Providers.getProviderInfo.
  pose proof (find_option provider Providers.PROVIDER_OPTIONS) as H.
  destruct (find _ Providers.PROVIDER_OPTIONS) as [o|].
  - destruct H as [Hin <-].
    assert (Providers.value o ∈ Providers.value <$> Providers.PROVIDER_OPTIONS)
      as Hv by (by apply list_elem_of_fmap_2).
    revert Hv. generalize (Providers.value <$> Providers.PROVIDER_OPTIONS).
    intros values Hv.
    repeat (apply elem_of_cons in Hin as [-> | Hin]);
      try (by apply elem_of_nil in Hin);
      cbn [Providers.value Providers.requiresKey Providers.label];
      (split; [split; [discriminate | done] |]);
      intros i;
      destruct (Providers.isProviderConfigured availableProviders _);
      vm_compute; intros [= <-];
      repeat match goal with
             | |- _ ∧ _ => split
             | |- _ → _ => intro
             | H : _ ∨ _ |- _ => destruct H
             end;
      first [ reflexivity | done | by left | by right ].
  - split; [done|]. intros i; discriminate.
Qed.

(* ===================================================================== *)
(** * Collapsing a server, and the parameters of a node *)
(* ===================================================================== *)

(** X16. [toggleServerCollapse] flips whether the server shows as collapsed
    and keeps the other servers, and two toggles show every server as
    before.  A server that was never toggled shows expanded, unless its url
    names a member of [Object.prototype]: the read finds that member, and
    the server shows collapsed. *)
Theorem collapse_toggles (u v : jsstring) (collapsedServers : gmap jsstring bool) :
  isCollapsed (toggleServerCollapse u collapsedServers) u =
    negb (isCollapsed collapsedServers u) ∧
  (v ≠ u → isCollapsed (toggleServerCollapse u collapsedServers) v =
           isCollapsed collapsedServers v) ∧
  isCollapsed (toggleServerCollapse u (toggleServerCollapse u collapsedServers)) v =
    isCollapsed collapsedServers v ∧
  isCollapsed ∅ v = JS.inherited v.
Proof.
  unfold isCollapsed, toggleServerCollapse. split; [|split; [|split]].
  - apply read_truthy_insert.
  - intros Hne. by apply read_truthy_insert_ne.
  - destruct (decide (u = v)) as [->|Hne].
    + rewrite !read_truthy_insert. apply negb_involutive.
    + by rewrite !read_truthy_insert_ne.
  - apply read_truthy_none, lookup_empty.
Qed.

(** The servers [http://a] and [constructor] before any toggle, and after
    one: the first toggle of [constructor] stores [false]. *)
Example collapse_examples :
  isCollapsed ∅ (js "http://a") = false ∧
  isCollapsed ∅ (js "constructor") = true ∧
  toggleServerCollapse (js "http://a") ∅ = {[ js "http://a" := true ]} ∧
  toggleServerCollapse (js "constructor") ∅ = {[ js "constructor" := false ]}.
Proof. repeat split; vm_compute; reflexivity. Qed.

Lemma size_pos_lookup (m : gmap jsstring JS.value) (k : jsstring) (v : JS.value) :
  m !! k = Some v → 0 < size m.
Proof.
  intros Hk. destruct (size m) eqn:E; [|lia].
  apply map_size_empty_inv in E. subst m. by rewrite lookup_empty in Hk.
Qed.

(** X14. [addParameter] names the new parameter after the number of
    parameters, so after a removal the name can be taken: when the parameter
    named after the current count exists and another parameter is removed,
    the next [addParameter] adds nothing and resets the value of that
    parameter to the empty text. *)
Theorem addParameter_after_remove (st : ModuleNode.state)
    (k : jsstring) (v w : JS.value) :
  let K := js "param_" ++ decimal (N.of_nat (size (ModuleNode.parameters st))) in
  ModuleNode.parameters st !! K = Some v →
  ModuleNode.parameters st !! k = Some w →
  k ≠ K →
  let st' := NodeForm.addParameter (NodeForm.removeParameter k st) in
  ModuleNode.parameters st' !! K = Some (JS.VStr []) ∧
  ModuleNode.parameters st' !! k = None ∧
  size (ModuleNode.parameters st') = size (ModuleNode.parameters st) - 1 ∧
  ∀ k', k' ≠ K → k' ≠ k →
    ModuleNode.parameters st' !! k' = ModuleNode.parameters st !! k'.
Proof.
  intros K HK Hk Hne st'.
  pose proof (size_pos_lookup _ _ _ Hk) as Hpos.
  assert (NodeForm.next_key (delete k (ModuleNode.parameters st)) = K) as Hkey.
  { unfold NodeForm.next_key, K. rewrite map_size_delete_Some by done.
    do 2 f_equal. lia. }
  subst st'. unfold NodeForm.addParameter, NodeForm.updateParameter.
  cbn [NodeForm.removeParameter NodeForm.setParameters ModuleNode.parameters].
  rewrite Hkey. split; [apply lookup_insert_eq|]. split; [|split].
  - rewrite lookup_insert_ne by done. apply lookup_delete_eq.
  - rewrite map_size_insert_Some, map_size_delete_Some by
      (try done; by rewrite lookup_delete_ne).
    lia.
  - intros k' H1 H2. by rewrite lookup_insert_ne, lookup_delete_ne.
Qed.

Lemma addParameter_after_remove_witness :
  let st := NodeForm.updateParameter (js "param_2") (JS.VStr (js "0.7"))
              (NodeForm.updateParameter (js "param_1") (JS.VStr (js "8"))
                 (NodeForm.addParameter (NodeForm.addParameter ModuleNode.init))) in
  let st' := NodeForm.addParameter (NodeForm.removeParameter (js "param_1") st) in
  ModuleNode.parameters st' !! js "param_2" = Some (JS.VStr []) ∧
  ModuleNode.parameters st' !! js "param_1" = None ∧
  size (ModuleNode.parameters st') = size (ModuleNode.parameters st) - 1 ∧
  ∀ k', k' ≠ js "param_2" → k' ≠ js "param_1" →
    ModuleNode.parameters st' !! k' = ModuleNode.parameters st !! k'.
Proof.
  cbn zeta.
  apply (addParameter_after_remove
           (NodeForm.updateParameter (js "param_2") (JS.VStr (js "0.7"))
              (NodeForm.updateParameter (js "param_1") (JS.VStr (js "8"))
                 (NodeForm.addParameter (NodeForm.addParameter ModuleNode.init))))
           (js "param_1") (JS.VStr (js "0.7")) (JS.VStr (js "8"))).
  - vm_compute. reflexivity.
  - vm_compute. reflexivity.
  - vm_compute. discriminate.
Defined.

(** X15. Renaming a parameter moves its value to the new name and keeps the
    parameters with other names; typing the name it has changes nothing.
    When the new name is the one of another parameter, that parameter is
    overwritten and the node has one parameter less.  The name [__proto__]
    is apart: unless another parameter has that name, the assignment runs
    the setter of [Object.prototype] and the parameter is lost. *)
Theorem renameParameter_moves (st : ModuleNode.state)
    (key newKey : jsstring) (value : JS.value) :
  ModuleNode.parameters st !! key = Some value →
  let st' := NodeForm.renameParameter key value newKey st in
  let lost :=
    bool_decide (newKey = js "__proto__" ∧
                 (newKey = key ∨ ModuleNode.parameters st !! newKey = None)) in
  ModuleNode.parameters st' !! newKey = (if lost then None else Some value) ∧
  (newKey ≠ key → ModuleNode.parameters st' !! key = None) ∧
  (∀ k, k ≠ key → k ≠ newKey →
     ModuleNode.parameters st' !! k = ModuleNode.parameters st !! k) ∧
  (newKey = key → newKey ≠ js "__proto__" → st' = st) ∧
  (lost = true →
     ModuleNode.parameters st' = delete key (ModuleNode.parameters st)) ∧
  (newKey ≠ key →
     size (ModuleNode.parameters st') =
       match ModuleNode.parameters st !! newKey with
       | Some _ => size (ModuleNode.parameters st) - 1
       | None =>
           if lost then size (ModuleNode.parameters st) - 1
           else size (ModuleNode.parameters st)
       end).
Proof.
  intros Hk st' lost. subst st'. unfold NodeForm.renameParameter.
  cbn [NodeForm.setParameters ModuleNode.parameters].
  pose proof (size_pos_lookup _ _ _ Hk) as Hpos.
  assert (JS.str_eq newKey (js "__proto__") &&
          negb (bool_decide
                  (is_Some (delete key (ModuleNode.parameters st) !! newKey)))
          = lost) as ->.
  { subst lost. unfold JS.str_eq.
    destruct (decide (newKey = js "__proto__")) as [Hp|Hp].
    - rewrite (bool_decide_eq_true_2 _ Hp). simpl.
      destruct (decide (newKey = key)) as [->|Hne].
      + rewrite lookup_delete_eq.
        rewrite bool_decide_eq_false_2 by (by intros [? ?]).
        by rewrite bool_decide_eq_true_2 by (split; [done | by left]).
      + rewrite lookup_delete_ne by done.
        destruct (ModuleNode.parameters st !! newKey) as [w|] eqn:E.
        * rewrite bool_decide_eq_true_2 by (by eexists).
          rewrite bool_decide_eq_false_2; [done|].
          intros [_ [?|?]]; done.
        * rewrite bool_decide_eq_false_2 by (by intros [? ?]).
          by rewrite bool_decide_eq_true_2 by (split; [done | by right]).
    - rewrite (bool_decide_eq_false_2 _ Hp). simpl.
      by rewrite bool_decide_eq_false_2 by (by intros [? _]). }
  destruct lost eqn:El.
  - subst lost. apply bool_decide_eq_true in El as [Hp Hnone].
    assert (delete key (ModuleNode.parameters st) !! newKey = None) as Hd.
    { destruct Hnone as [->|Hn]; [apply lookup_delete_eq|].
      destruct (decide (newKey = key)) as [->|Hne]; [apply lookup_delete_eq|].
      by rewrite lookup_delete_ne. }
    split; [done|]. split; [intros _; apply lookup_delete_eq|].
    split; [intros k H1 H2; by rewrite lookup_delete_ne|].
    split; [done|]. split; [done|].
    intros Hne. rewrite map_size_delete_Some by done.
    rewrite lookup_delete_ne in Hd by done. rewrite Hd. lia.
  - split; [apply lookup_insert_eq|]. split; [|split; [|split; [|split]]].
    + intros Hne. rewrite lookup_insert_ne by done. apply lookup_delete_eq.
    + intros k H1 H2. by rewrite lookup_insert_ne, lookup_delete_ne.
    + intros -> _. rewrite insert_delete_eq, insert_id by done. by destruct st.
    + done.
    + intros Hne.
      rewrite map_size_insert, lookup_delete_ne, map_size_delete_Some by done.
      destruct (ModuleNode.parameters st !! newKey); simpl; lia.
Qed.

Lemma renameParameter_moves_witness :
  let st := NodeForm.updateParameter (js "temperature") (JS.VStr (js "0.7"))
              (NodeForm.updateParameter (js "top_k") (JS.VStr (js "8"))
                 ModuleNode.init) in
  let st' := NodeForm.renameParameter (js "top_k") (JS.VStr (js "8"))
               (js "temperature") st in
  ModuleNode.parameters st' !! js "temperature" = Some (JS.VStr (js "8")) ∧
  (js "temperature" ≠ js "top_k" →
     ModuleNode.parameters st' !! js "top_k" = None) ∧
  (∀ k, k ≠ js "top_k" → k ≠ js "temperature" →
     ModuleNode.parameters st' !! k = ModuleNode.parameters st !! k) ∧
  (js "temperature" = js "top_k" → js "temperature" ≠ js "__proto__" → st' = st) ∧
  (false = true →
     ModuleNode.parameters st' = delete (js "top_k") (ModuleNode.parameters st)) ∧
  (js "temperature" ≠ js "top_k" →
     size (ModuleNode.parameters st') =
       match ModuleNode.parameters st !! js "temperature" with
       | Some _ => size (ModuleNode.parameters st) - 1
       | None => size (ModuleNode.parameters st)
       end).
Proof.
  cbn zeta.
  apply (renameParameter_moves
           (NodeForm.updateParameter (js "temperature") (JS.VStr (js "0.7"))
              (NodeForm.updateParameter (js "top_k") (JS.VStr (js "8"))
                 ModuleNode.init))
           (js "top_k") (js "temperature") (JS.VStr (js "8"))).
  vm_compute. reflexivity.
Defined.

(** The parameter [top_k] renamed to [__proto__] is lost; renamed to
    [constructor] it is kept, as an own property of that name. *)
Example renameParameter_examples :
  let st := NodeForm.updateParameter (js "top_k") (JS.VStr (js "8"))
              ModuleNode.init in
  ModuleNode.parameters
    (NodeForm.renameParameter (js "top_k") (JS.VStr (js "8")) (js "__proto__") st)
    = ∅ ∧
  ModuleNode.parameters
    (NodeForm.renameParameter (js "top_k") (JS.VStr (js "8")) (js "constructor") st)
    = {[ js "constructor" := JS.VStr (js "8") ]}.
Proof. cbn zeta. split; vm_compute; reflexivity. Qed.

(** X9. [handleClear] clears the half of the configuration of the active
    tab and keeps the other half, in memory and in the stored text: on the
    language-model tab the global model becomes [null] and the servers
    stay; on the servers tab the draft and the servers of the context
    become empty and the global model stays, while the catalogs, the
    loading flags and the requests in flight of the modal are kept.
    Clearing on both tabs leaves the stored text of the empty
    configuration. *)
Theorem handleClear_halves (JSON_stringify : JS.value → jsstring)
    (st : LMConfigModal.state) (ctx : LMConfigContext.state) :
  let lm := ModalSession.handleClear JSON_stringify
              (LMConfigModal.setActiveTab LMConfigModal.TabLM st) ctx in
  let mcp := ModalSession.handleClear JSON_stringify
               (LMConfigModal.setActiveTab LMConfigModal.TabMCP st) ctx in
  let both := ModalSession.handleClear JSON_stringify
                (LMConfigModal.setActiveTab LMConfigModal.TabMCP lm.1) lm.2 in
  (LMConfigContext.globalLMConfig lm.2 = None ∧
   LMConfigContext.mcpServers lm.2 = LMConfigContext.mcpServers ctx ∧
   LMConfigModal.localMCPServers lm.1 = LMConfigModal.localMCPServers st ∧
   LMConfigModal.selectedProvider lm.1 = js "databricks" ∧
   LMConfigModal.modelName lm.1 = []) ∧
  (LMConfigContext.mcpServers mcp.2 = [] ∧
   LMConfigContext.globalLMConfig mcp.2 = LMConfigContext.globalLMConfig ctx ∧
   LMConfigModal.localMCPServers mcp.1 = [] ∧
   LMConfigModal.availableTools mcp.1 = LMConfigModal.availableTools st ∧
   LMConfigModal.loadingTools mcp.1 = LMConfigModal.loadingTools st ∧
   LMConfigModal.requests mcp.1 = LMConfigModal.requests st) ∧
  (LMConfigContext.localStorage lm.2 !! LMConfigContext.GLOBAL_CONFIG_STORAGE_KEY =
     Some (JSON_stringify
             (LMConfigContext.GlobalConfig_value None
                (LMConfigContext.mcpServers ctx))) ∧
   LMConfigContext.localStorage mcp.2 !! LMConfigContext.GLOBAL_CONFIG_STORAGE_KEY =
     Some (JSON_stringify
             (LMConfigContext.GlobalConfig_value
                (LMConfigContext.globalLMConfig ctx) [])) ∧
   LMConfigContext.localStorage both.2 !! LMConfigContext.GLOBAL_CONFIG_STORAGE_KEY =
     Some (JSON_stringify (LMConfigContext.GlobalConfig_value None []))) ∧
  NodeForm.useGlobalConfig (LMConfigContext.globalLMConfig both.2) =
    (λ nst, nst).
Proof.
  cbn zeta. simpl. repeat split; apply lookup_insert_eq.
Qed.

Example decimal_examples :
  decimal 0 = js "0" ∧ decimal 7 = js "7" ∧ decimal 120 = js "120" ∧
  NodeForm.next_key ∅ = js "param_1".
Proof. repeat split; vm_compute; reflexivity. Qed.
